(** * Glimpse: code scheme, session store and commands

    A shallow embedding of the TypeScript sources of the glimpse CLI
    (src/utils/code-generator.ts, src/services/storage-service.ts,
    src/services/unsplash-service.ts and
    src/commands/{create,reveal,list,status}.ts) together with the
    properties its specification states about them.

    Conventions of the embedding.
    - A JavaScript string is the list of its UTF-16 code units, each a [Z].
    - A JavaScript number is modelled where the sources compute with it as
      a count, an index or a time value: an integer [Z], with [NaN] a
      separate case.  The numbers that [generateCode] receives as
      arguments are any numbers: [NaN], an infinity or a finite double,
      given by the rational it denotes.
    - Effects (console, logger, file system, process exit, exceptions) are
      threaded explicitly through a small monad. *)

From Stdlib Require Import ZArith QArith Qround List Bool Lia String Ascii.
From stdpp Require Import base option list gmap.
Import ListNotations.
Local Open Scope Z_scope.
Local Set Warnings "-register-all".

(* ================================================================== *)
(** * Part I: definitions                                              *)
(* ================================================================== *)

(** ** JavaScript strings *)

Module JsString.

Definition jsstring : Type := list Z.

(** A string literal of the sources, as code units. *)
Definition js (s : string) : jsstring :=
  List.map (fun a => Z.of_N (N_of_ascii a)) (list_ascii_of_string s).

Definition is_high_surrogate (c : Z) : bool := (0xD800 <=? c) && (c <=? 0xDBFF).
Definition is_low_surrogate (c : Z) : bool := (0xDC00 <=? c) && (c <=? 0xDFFF).

Definition UTF16SurrogatePairToCodePoint (lead trail : Z) : Z :=
  (lead - 0xD800) * 0x400 + (trail - 0xDC00) + 0x10000.

(** ECMA-262 StringToCodePoints: a lead surrogate directly followed by a
    trail surrogate is one code point, any other code unit stands for
    itself. *)
Fixpoint StringToCodePoints (s : jsstring) : list Z :=
  match s with
  | [] => []
  | c :: rest =>
      match rest with
      | d :: rest' =>
          if is_high_surrogate c && is_low_surrogate d
          then UTF16SurrogatePairToCodePoint c d :: StringToCodePoints rest'
          else c :: StringToCodePoints rest
      | [] => [c]
      end
  end.

Definition UTF16EncodeCodePoint (cp : Z) : jsstring :=
  if (0x10000 <=? cp) && (cp <=? 0x10FFFF)
  then [0xD800 + (cp - 0x10000) / 0x400; 0xDC00 + (cp - 0x10000) mod 0x400]
  else [cp].

Definition CodePointsToString (cps : list Z) : jsstring :=
  flat_map UTF16EncodeCodePoint cps.

(** The Unicode default uppercase mapping (Unicode 14.0.0: the
    Simple_Uppercase_Mapping of UnicodeData.txt and the unconditional
    entries of SpecialCasing.txt), which String.prototype.toUpperCase
    applies to every code point.  [simple_uppercase_ranges] lists
    (first, last, stride, delta): every code point first + k*stride up to
    last maps to itself plus delta; [special_uppercase] lists the code
    points whose uppercase form is several code points long. *)
Definition simple_uppercase_ranges : list (Z * Z * Z * Z) :=
  [(0x61, 0x7A, 1, (-32)); (0xB5, 0xB5, 1, 743); (0xE0, 0xF6, 1, (-32));
   (0xF8, 0xFE, 1, (-32)); (0xFF, 0xFF, 1, 121); (0x101, 0x12F, 2, (-1));
   (0x131, 0x131, 1, (-232)); (0x133, 0x137, 2, (-1));
   (0x13A, 0x148, 2, (-1)); (0x14B, 0x177, 2, (-1)); (0x17A, 0x17E, 2, (-1));
   (0x17F, 0x17F, 1, (-300)); (0x180, 0x180, 1, 195);
   (0x183, 0x185, 2, (-1)); (0x188, 0x188, 1, (-1)); (0x18C, 0x18C, 1, (-1));
   (0x192, 0x192, 1, (-1)); (0x195, 0x195, 1, 97); (0x199, 0x199, 1, (-1));
   (0x19A, 0x19A, 1, 163); (0x19E, 0x19E, 1, 130); (0x1A1, 0x1A5, 2, (-1));
   (0x1A8, 0x1A8, 1, (-1)); (0x1AD, 0x1AD, 1, (-1)); (0x1B0, 0x1B0, 1, (-1));
   (0x1B4, 0x1B6, 2, (-1)); (0x1B9, 0x1B9, 1, (-1)); (0x1BD, 0x1BD, 1, (-1));
   (0x1BF, 0x1BF, 1, 56); (0x1C5, 0x1C5, 1, (-1)); (0x1C6, 0x1C6, 1, (-2));
   (0x1C8, 0x1C8, 1, (-1)); (0x1C9, 0x1C9, 1, (-2)); (0x1CB, 0x1CB, 1, (-1));
   (0x1CC, 0x1CC, 1, (-2)); (0x1CE, 0x1DC, 2, (-1));
   (0x1DD, 0x1DD, 1, (-79)); (0x1DF, 0x1EF, 2, (-1));
   (0x1F2, 0x1F2, 1, (-1)); (0x1F3, 0x1F3, 1, (-2)); (0x1F5, 0x1F5, 1, (-1));
   (0x1F9, 0x21F, 2, (-1)); (0x223, 0x233, 2, (-1)); (0x23C, 0x23C, 1, (-1));
   (0x23F, 0x240, 1, 10815); (0x242, 0x242, 1, (-1));
   (0x247, 0x24F, 2, (-1)); (0x250, 0x250, 1, 10783);
   (0x251, 0x251, 1, 10780); (0x252, 0x252, 1, 10782);
   (0x253, 0x253, 1, (-210)); (0x254, 0x254, 1, (-206));
   (0x256, 0x257, 1, (-205)); (0x259, 0x259, 1, (-202));
   (0x25B, 0x25B, 1, (-203)); (0x25C, 0x25C, 1, 42319);
   (0x260, 0x260, 1, (-205)); (0x261, 0x261, 1, 42315);
   (0x263, 0x263, 1, (-207)); (0x265, 0x265, 1, 42280);
   (0x266, 0x266, 1, 42308); (0x268, 0x268, 1, (-209));
   (0x269, 0x269, 1, (-211)); (0x26A, 0x26A, 1, 42308);
   (0x26B, 0x26B, 1, 10743); (0x26C, 0x26C, 1, 42305);
   (0x26F, 0x26F, 1, (-211)); (0x271, 0x271, 1, 10749);
   (0x272, 0x272, 1, (-213)); (0x275, 0x275, 1, (-214));
   (0x27D, 0x27D, 1, 10727); (0x280, 0x280, 1, (-218));
   (0x282, 0x282, 1, 42307); (0x283, 0x283, 1, (-218));
   (0x287, 0x287, 1, 42282); (0x288, 0x288, 1, (-218));
   (0x289, 0x289, 1, (-69)); (0x28A, 0x28B, 1, (-217));
   (0x28C, 0x28C, 1, (-71)); (0x292, 0x292, 1, (-219));
   (0x29D, 0x29D, 1, 42261); (0x29E, 0x29E, 1, 42258); (0x345, 0x345, 1, 84);
   (0x371, 0x373, 2, (-1)); (0x377, 0x377, 1, (-1)); (0x37B, 0x37D, 1, 130);
   (0x3AC, 0x3AC, 1, (-38)); (0x3AD, 0x3AF, 1, (-37));
   (0x3B1, 0x3C1, 1, (-32)); (0x3C2, 0x3C2, 1, (-31));
   (0x3C3, 0x3CB, 1, (-32)); (0x3CC, 0x3CC, 1, (-64));
   (0x3CD, 0x3CE, 1, (-63)); (0x3D0, 0x3D0, 1, (-62));
   (0x3D1, 0x3D1, 1, (-57)); (0x3D5, 0x3D5, 1, (-47));
   (0x3D6, 0x3D6, 1, (-54)); (0x3D7, 0x3D7, 1, (-8));
   (0x3D9, 0x3EF, 2, (-1)); (0x3F0, 0x3F0, 1, (-86));
   (0x3F1, 0x3F1, 1, (-80)); (0x3F2, 0x3F2, 1, 7); (0x3F3, 0x3F3, 1, (-116));
   (0x3F5, 0x3F5, 1, (-96)); (0x3F8, 0x3F8, 1, (-1));
   (0x3FB, 0x3FB, 1, (-1)); (0x430, 0x44F, 1, (-32));
   (0x450, 0x45F, 1, (-80)); (0x461, 0x481, 2, (-1));
   (0x48B, 0x4BF, 2, (-1)); (0x4C2, 0x4CE, 2, (-1));
   (0x4CF, 0x4CF, 1, (-15)); (0x4D1, 0x52F, 2, (-1));
   (0x561, 0x586, 1, (-48)); (0x10D0, 0x10FA, 1, 3008);
   (0x10FD, 0x10FF, 1, 3008); (0x13F8, 0x13FD, 1, (-8));
   (0x1C80, 0x1C80, 1, (-6254)); (0x1C81, 0x1C81, 1, (-6253));
   (0x1C82, 0x1C82, 1, (-6244)); (0x1C83, 0x1C84, 1, (-6242));
   (0x1C85, 0x1C85, 1, (-6243)); (0x1C86, 0x1C86, 1, (-6236));
   (0x1C87, 0x1C87, 1, (-6181)); (0x1C88, 0x1C88, 1, 35266);
   (0x1D79, 0x1D79, 1, 35332); (0x1D7D, 0x1D7D, 1, 3814);
   (0x1D8E, 0x1D8E, 1, 35384); (0x1E01, 0x1E95, 2, (-1));
   (0x1E9B, 0x1E9B, 1, (-59)); (0x1EA1, 0x1EFF, 2, (-1));
   (0x1F00, 0x1F07, 1, 8); (0x1F10, 0x1F15, 1, 8); (0x1F20, 0x1F27, 1, 8);
   (0x1F30, 0x1F37, 1, 8); (0x1F40, 0x1F45, 1, 8); (0x1F51, 0x1F57, 2, 8);
   (0x1F60, 0x1F67, 1, 8); (0x1F70, 0x1F71, 1, 74); (0x1F72, 0x1F75, 1, 86);
   (0x1F76, 0x1F77, 1, 100); (0x1F78, 0x1F79, 1, 128);
   (0x1F7A, 0x1F7B, 1, 112); (0x1F7C, 0x1F7D, 1, 126);
   (0x1FB0, 0x1FB1, 1, 8); (0x1FBE, 0x1FBE, 1, (-7205));
   (0x1FD0, 0x1FD1, 1, 8); (0x1FE0, 0x1FE1, 1, 8); (0x1FE5, 0x1FE5, 1, 7);
   (0x214E, 0x214E, 1, (-28)); (0x2170, 0x217F, 1, (-16));
   (0x2184, 0x2184, 1, (-1)); (0x24D0, 0x24E9, 1, (-26));
   (0x2C30, 0x2C5F, 1, (-48)); (0x2C61, 0x2C61, 1, (-1));
   (0x2C65, 0x2C65, 1, (-10795)); (0x2C66, 0x2C66, 1, (-10792));
   (0x2C68, 0x2C6C, 2, (-1)); (0x2C73, 0x2C73, 1, (-1));
   (0x2C76, 0x2C76, 1, (-1)); (0x2C81, 0x2CE3, 2, (-1));
   (0x2CEC, 0x2CEE, 2, (-1)); (0x2CF3, 0x2CF3, 1, (-1));
   (0x2D00, 0x2D25, 1, (-7264)); (0x2D27, 0x2D27, 1, (-7264));
   (0x2D2D, 0x2D2D, 1, (-7264)); (0xA641, 0xA66D, 2, (-1));
   (0xA681, 0xA69B, 2, (-1)); (0xA723, 0xA72F, 2, (-1));
   (0xA733, 0xA76F, 2, (-1)); (0xA77A, 0xA77C, 2, (-1));
   (0xA77F, 0xA787, 2, (-1)); (0xA78C, 0xA78C, 1, (-1));
   (0xA791, 0xA793, 2, (-1)); (0xA794, 0xA794, 1, 48);
   (0xA797, 0xA7A9, 2, (-1)); (0xA7B5, 0xA7C3, 2, (-1));
   (0xA7C8, 0xA7CA, 2, (-1)); (0xA7D1, 0xA7D1, 1, (-1));
   (0xA7D7, 0xA7D9, 2, (-1)); (0xA7F6, 0xA7F6, 1, (-1));
   (0xAB53, 0xAB53, 1, (-928)); (0xAB70, 0xABBF, 1, (-38864));
   (0xFF41, 0xFF5A, 1, (-32)); (0x10428, 0x1044F, 1, (-40));
   (0x104D8, 0x104FB, 1, (-40)); (0x10597, 0x105BB, 2, (-39));
   (0x10598, 0x105A1, 1, (-39)); (0x105A4, 0x105B1, 1, (-39));
   (0x105B4, 0x105B9, 1, (-39)); (0x105BC, 0x105BC, 1, (-39));
   (0x10CC0, 0x10CF2, 1, (-64)); (0x118C0, 0x118DF, 1, (-32));
   (0x16E60, 0x16E7F, 1, (-32)); (0x1E922, 0x1E943, 1, (-34))].

Definition special_uppercase : list (Z * list Z) :=
  [(0xDF, [0x53; 0x53]); (0x149, [0x2BC; 0x4E]); (0x1F0, [0x4A; 0x30C]);
   (0x390, [0x399; 0x308; 0x301]); (0x3B0, [0x3A5; 0x308; 0x301]);
   (0x587, [0x535; 0x552]); (0x1E96, [0x48; 0x331]); (0x1E97, [0x54; 0x308]);
   (0x1E98, [0x57; 0x30A]); (0x1E99, [0x59; 0x30A]); (0x1E9A, [0x41; 0x2BE]);
   (0x1F50, [0x3A5; 0x313]); (0x1F52, [0x3A5; 0x313; 0x300]);
   (0x1F54, [0x3A5; 0x313; 0x301]); (0x1F56, [0x3A5; 0x313; 0x342]);
   (0x1F80, [0x1F08; 0x399]); (0x1F81, [0x1F09; 0x399]);
   (0x1F82, [0x1F0A; 0x399]); (0x1F83, [0x1F0B; 0x399]);
   (0x1F84, [0x1F0C; 0x399]); (0x1F85, [0x1F0D; 0x399]);
   (0x1F86, [0x1F0E; 0x399]); (0x1F87, [0x1F0F; 0x399]);
   (0x1F88, [0x1F08; 0x399]); (0x1F89, [0x1F09; 0x399]);
   (0x1F8A, [0x1F0A; 0x399]); (0x1F8B, [0x1F0B; 0x399]);
   (0x1F8C, [0x1F0C; 0x399]); (0x1F8D, [0x1F0D; 0x399]);
   (0x1F8E, [0x1F0E; 0x399]); (0x1F8F, [0x1F0F; 0x399]);
   (0x1F90, [0x1F28; 0x399]); (0x1F91, [0x1F29; 0x399]);
   (0x1F92, [0x1F2A; 0x399]); (0x1F93, [0x1F2B; 0x399]);
   (0x1F94, [0x1F2C; 0x399]); (0x1F95, [0x1F2D; 0x399]);
   (0x1F96, [0x1F2E; 0x399]); (0x1F97, [0x1F2F; 0x399]);
   (0x1F98, [0x1F28; 0x399]); (0x1F99, [0x1F29; 0x399]);
   (0x1F9A, [0x1F2A; 0x399]); (0x1F9B, [0x1F2B; 0x399]);
   (0x1F9C, [0x1F2C; 0x399]); (0x1F9D, [0x1F2D; 0x399]);
   (0x1F9E, [0x1F2E; 0x399]); (0x1F9F, [0x1F2F; 0x399]);
   (0x1FA0, [0x1F68; 0x399]); (0x1FA1, [0x1F69; 0x399]);
   (0x1FA2, [0x1F6A; 0x399]); (0x1FA3, [0x1F6B; 0x399]);
   (0x1FA4, [0x1F6C; 0x399]); (0x1FA5, [0x1F6D; 0x399]);
   (0x1FA6, [0x1F6E; 0x399]); (0x1FA7, [0x1F6F; 0x399]);
   (0x1FA8, [0x1F68; 0x399]); (0x1FA9, [0x1F69; 0x399]);
   (0x1FAA, [0x1F6A; 0x399]); (0x1FAB, [0x1F6B; 0x399]);
   (0x1FAC, [0x1F6C; 0x399]); (0x1FAD, [0x1F6D; 0x399]);
   (0x1FAE, [0x1F6E; 0x399]); (0x1FAF, [0x1F6F; 0x399]);
   (0x1FB2, [0x1FBA; 0x399]); (0x1FB3, [0x391; 0x399]);
   (0x1FB4, [0x386; 0x399]); (0x1FB6, [0x391; 0x342]);
   (0x1FB7, [0x391; 0x342; 0x399]); (0x1FBC, [0x391; 0x399]);
   (0x1FC2, [0x1FCA; 0x399]); (0x1FC3, [0x397; 0x399]);
   (0x1FC4, [0x389; 0x399]); (0x1FC6, [0x397; 0x342]);
   (0x1FC7, [0x397; 0x342; 0x399]); (0x1FCC, [0x397; 0x399]);
   (0x1FD2, [0x399; 0x308; 0x300]); (0x1FD3, [0x399; 0x308; 0x301]);
   (0x1FD6, [0x399; 0x342]); (0x1FD7, [0x399; 0x308; 0x342]);
   (0x1FE2, [0x3A5; 0x308; 0x300]); (0x1FE3, [0x3A5; 0x308; 0x301]);
   (0x1FE4, [0x3A1; 0x313]); (0x1FE6, [0x3A5; 0x342]);
   (0x1FE7, [0x3A5; 0x308; 0x342]); (0x1FF2, [0x1FFA; 0x399]);
   (0x1FF3, [0x3A9; 0x399]); (0x1FF4, [0x38F; 0x399]);
   (0x1FF6, [0x3A9; 0x342]); (0x1FF7, [0x3A9; 0x342; 0x399]);
   (0x1FFC, [0x3A9; 0x399]); (0xFB00, [0x46; 0x46]); (0xFB01, [0x46; 0x49]);
   (0xFB02, [0x46; 0x4C]); (0xFB03, [0x46; 0x46; 0x49]);
   (0xFB04, [0x46; 0x46; 0x4C]); (0xFB05, [0x53; 0x54]);
   (0xFB06, [0x53; 0x54]); (0xFB13, [0x544; 0x546]);
   (0xFB14, [0x544; 0x535]); (0xFB15, [0x544; 0x53B]);
   (0xFB16, [0x54E; 0x546]); (0xFB17, [0x544; 0x53D])].

Definition in_uppercase_range (cp : Z) (r : Z * Z * Z * Z) : bool :=
  let '(lo, hi, stride, _) := r in
  (lo <=? cp) && (cp <=? hi) && ((cp - lo) mod stride =? 0).

Definition toUppercase (cp : Z) : list Z :=
  match List.find (fun e => fst e =? cp) special_uppercase with
  | Some (_, l) => l
  | None =>
      match List.find (in_uppercase_range cp) simple_uppercase_ranges with
      | Some (_, _, _, delta) => [cp + delta]
      | None => [cp]
      end
  end.

(** String.prototype.toUpperCase. *)
Definition toUpperCase (s : jsstring) : jsstring :=
  CodePointsToString (flat_map toUppercase (StringToCodePoints s)).

Definition HYPHEN : Z := 0x2D.

(** [s.replace(/-/g, '')]: every occurrence of the code unit '-' is removed. *)
Definition replace_hyphens (s : jsstring) : jsstring :=
  List.filter (fun c => negb (c =? HYPHEN)) s.

(** [s.split('')]: the code units of [s], each as a string of length one. *)
Definition split_empty (s : jsstring) : list jsstring :=
  List.map (fun c => [c]) s.

Fixpoint starts_with (needle hay : jsstring) : bool :=
  match needle, hay with
  | [], _ => true
  | _ :: _, [] => false
  | a :: needle', b :: hay' => (a =? b) && starts_with needle' hay'
  end.

(** Two lowercase hexadecimal digits per byte: [buffer.toString('hex')]. *)
Definition hex_digit (d : Z) : Z := if d <? 10 then 0x30 + d else 0x61 + (d - 10).

Definition to_hex (bytes : list Z) : jsstring :=
  flat_map (fun b => [hex_digit (b / 16); hex_digit (b mod 16)]) bytes.

(** [hay.includes(needle)]: [needle] occurs in [hay] as a substring. *)
Fixpoint includes (hay needle : jsstring) : bool :=
  starts_with needle hay ||
  match hay with
  | [] => false
  | _ :: hay' => includes hay' needle
  end.

(** [s.endsWith(suffix)]. *)
Definition ends_with (s suffix : jsstring) : bool :=
  starts_with (rev suffix) (rev s).

(** [s.replace(pattern, '')] for a string pattern: the first occurrence
    of [pattern] is removed. *)
Fixpoint remove_first (pattern s : jsstring) : jsstring :=
  if starts_with pattern s then drop (List.length pattern) s
  else match s with
       | [] => []
       | c :: s' => c :: remove_first pattern s'
       end.

(** The decimal digits of a natural number. *)
Fixpoint decimal_digits (fuel : nat) (n : Z) : jsstring :=
  match fuel with
  | O => []
  | S fuel' =>
      if n <? 10 then [0x30 + n]
      else decimal_digits fuel' (n / 10) ++ [0x30 + n mod 10]
  end.

Definition decimal (n : Z) : jsstring :=
  if n <? 0 then 0x2D :: decimal_digits (S (Z.to_nat (Z.log2 (- n)))) (- n)
  else decimal_digits (S (Z.to_nat (Z.log2 n))) n.

End JsString.

(** ** Exceptions and results *)

Module Js.

(** What a [throw] of the sources or of the platform carries. *)
Inductive exn : Type :=
| RangeError              (* invalid typed array length, invalid size *)
| QuotaExceededError      (* crypto.getRandomValues beyond 65536 bytes *)
| SyntaxError             (* JSON.parse on malformed text *)
| TypeError               (* property access on undefined or null *)
| ErrnoException (code : string)  (* a failing fs call, with its [code] *)
| AxiosError (message : string)   (* a failing HTTP request *)
| Error (message : string)        (* [new Error(message)] *)
| ErrorFrom (message : string) (cause : exn).
    (* [new Error(`message: ${cause}`)] *)

Inductive result (A : Type) : Type :=
| Ok (a : A)
| Throw (e : exn).
Arguments Ok {A} a.
Arguments Throw {A} e.

#[global] Instance result_ret : MRet result := fun A a => Ok a.
#[global] Instance result_bind : MBind result := fun A B k r =>
  match r with
  | Ok a => k a
  | Throw e => Throw e
  end.

End Js.

(** ** Numbers as arguments *)

Module JsDouble.

(** A number as a function receives it: [NaN], an infinity, or a finite
    double, given by the rational it denotes.  [x - 1] is taken exactly;
    in double arithmetic it is rounded only for [x] below 1 or from 2^53
    on, where the comparisons with a loop index (an integer from 0 up to
    the length of an array) come out the same. *)
Inductive double : Type :=
| DNaN
| DInf (negative : bool)
| DNum (q : Q).

(** An integer as a number. *)
Definition of_int (z : Z) : double := DNum (inject_Z z).
Coercion of_int : Z >-> double.

(** [i < x] for an integer [i]. *)
Definition int_lt (i : Z) (x : double) : bool :=
  match x with
  | DNaN => false
  | DInf negative => negb negative
  | DNum q => negb (Qle_bool q (inject_Z i))
  end.

(** [i === x] for an integer [i]. *)
Definition int_eq (i : Z) (x : double) : bool :=
  match x with
  | DNum q => Qeq_bool (inject_Z i) q
  | _ => false
  end.

(** [x - 1] *)
Definition minus_one (x : double) : double :=
  match x with
  | DNum q => DNum (q - 1)
  | _ => x
  end.

(** ToIntegerOrInfinity: the fraction is cut off and [NaN] counts as 0;
    [None] stands for an infinity. *)
Definition ToIntegerOrInfinity (x : double) : option Z :=
  match x with
  | DNaN => Some 0
  | DInf _ => None
  | DNum q => Some (if Qle_bool 0 q then Qfloor q else Qceiling q)
  end.

End JsDouble.

(** ** src/utils/code-generator.ts *)

Module CodeGenerator.
Import JsString Js.
Export JsDouble.

Definition CROCKFORD_ALPHABET : jsstring := js "0123456789ABCDEFGHJKMNPQRSTVWXYZ".

(** Whether the global [crypto] with [getRandomValues] exists decides which
    branch of [generateCode] draws the bytes. *)
Record platform : Type := { has_web_crypto : bool }.

(** [new Uint8Array(length)]: as many zero bytes as [length] says once
    its fraction is cut off (ToIndex); a length that is then negative or
    above 2^53 - 1, or infinite, throws. *)
Definition new_Uint8Array (length : double) : result (list Z) :=
  match ToIntegerOrInfinity length with
  | Some n =>
      if (n <? 0) || (9007199254740991 <? n) then Throw RangeError
      else Ok (List.repeat 0 (Z.to_nat n))
  | None => Throw RangeError
  end.

(** Storing a number in a Uint8Array keeps its low eight bits. *)
Definition ToUint8 (v : Z) : Z := v mod 256.

(** [crypto.getRandomValues(bytes)]: every element is overwritten with a
    drawn byte, [entropy i] being the i-th draw; more than 65536 bytes are
    refused. *)
Definition getRandomValues (entropy : nat -> Z) (bytes : list Z) : result (list Z) :=
  if 65536 <? Z.of_nat (List.length bytes) then Throw QuotaExceededError
  else Ok (imap (fun i _ => ToUint8 (entropy i)) bytes).

(** [require('crypto').randomBytes(size)]: a size that is [NaN], negative
    or above 2^31 - 1 is refused; of any other size the fraction is cut
    off ([size >>> 0]). *)
Definition randomBytes (entropy : nat -> Z) (size : double) : result (list Z) :=
  match size with
  | DNum q =>
      if negb (Qle_bool 0 q) || negb (Qle_bool q (inject_Z 2147483647))
      then Throw RangeError
      else Ok (List.map (fun i => ToUint8 (entropy i)) (seq 0 (Z.to_nat (Qfloor q))))
  | _ => Throw RangeError
  end.

(** [for (let i = 0; i < length; i++) bytes[i] = randomBytes[i];]
    An element read past the end of [randomBytes] is [undefined], stored
    as 0; a store past the end of [bytes] is ignored. *)
Fixpoint copy_bytes (randomBytes : list Z) (length : double) (fuel : nat) (i : Z)
    (bytes : list Z) : list Z :=
  match fuel with
  | O => bytes
  | S fuel' =>
      if int_lt i length then
        let v := match randomBytes !! Z.to_nat i with Some b => ToUint8 b | None => 0 end in
        copy_bytes randomBytes length fuel' (i + 1) (<[Z.to_nat i := v]> bytes)
      else bytes
  end.

(** [bytes[i]], [undefined] (here [None]) outside the array. *)
Definition byte_at (bytes : list Z) (i : Z) : option Z :=
  if i <? 0 then None else bytes !! Z.to_nat i.

(** [bytes[i] % CROCKFORD_ALPHABET.length]; [undefined % 32] is [NaN]. *)
Definition symbol_index (b : option Z) : option Z :=
  match b with
  | Some v => Some (Z.rem v (Z.of_nat (List.length CROCKFORD_ALPHABET)))
  | None => None
  end.

(** What [code += CROCKFORD_ALPHABET[index]] appends: the symbol, or the
    text "undefined" when the index is [NaN] or outside the alphabet. *)
Definition symbol_text (index : option Z) : jsstring :=
  match index with
  | Some k =>
      if k <? 0 then js "undefined"
      else match CROCKFORD_ALPHABET !! Z.to_nat k with
           | Some c => [c]
           | None => js "undefined"
           end
  | None => js "undefined"
  end.

(** The loop of lines 35-43, started at [i] with [code] built so far. *)
Fixpoint generate_loop (bytes : list Z) (length : double) (separator : jsstring)
    (separatorPosition : double) (fuel : nat) (i : Z) (code : jsstring) : jsstring :=
  match fuel with
  | O => code
  | S fuel' =>
      if int_lt i length then
        let index := symbol_index (byte_at bytes i) in
        let code := code ++ symbol_text index in
        let code :=
          if int_eq i (minus_one separatorPosition) && int_lt i (minus_one length)
          then code ++ separator else code in
        generate_loop bytes length separator separatorPosition fuel' (i + 1) code
      else code
  end.

(** The array has the length with its fraction cut off, so neither loop
    over [i < length] makes more turns than the array has elements, plus
    one. *)
Definition generateCode (p : platform) (entropy : nat -> Z)
    (length : double) (separator : jsstring) (separatorPosition : double)
    : result jsstring :=
  match new_Uint8Array length with
  | Throw e => Throw e
  | Ok bytes =>
      let turns := S (List.length bytes) in
      let drawn :=
        if has_web_crypto p then getRandomValues entropy bytes
        else match randomBytes entropy length with
             | Throw e => Throw e
             | Ok rb => Ok (copy_bytes rb length turns 0 bytes)
             end in
      match drawn with
      | Throw e => Throw e
      | Ok bytes =>
          Ok (generate_loop bytes length separator separatorPosition turns 0 [])
      end
  end.

(** [generateCode()] with the default arguments. *)
Definition generateCode_default (p : platform) (entropy : nat -> Z) : result jsstring :=
  generateCode p entropy 8 (js "-") 4.

Definition normalizeCode (code : jsstring) : jsstring :=
  toUpperCase (replace_hyphens code).

Definition validateCode (code : jsstring) : bool :=
  let cleanCode := toUpperCase (replace_hyphens code) in
  forallb (fun char => includes CROCKFORD_ALPHABET char) (split_empty cleanCode).

End CodeGenerator.


(** ** Numbers, dates and [parseInt] *)

Module JsNumber.
Import JsString.

(** The numbers the sources compute with: [NaN] or an integer. *)
Inductive number : Type :=
| NaN
| Num (z : Z).

Definition number_lt (a b : number) : bool :=
  match a, b with
  | Num x, Num y => x <? y
  | _, _ => false
  end.

Definition number_gt (a b : number) : bool := number_lt b a.

Definition number_ge (a b : number) : bool :=
  match a, b with
  | Num x, Num y => y <=? x
  | _, _ => false
  end.

Definition number_add (a b : number) : number :=
  match a, b with
  | Num x, Num y => Num (x + y)
  | _, _ => NaN
  end.

Definition number_sub (a b : number) : number :=
  match a, b with
  | Num x, Num y => Num (x - y)
  | _, _ => NaN
  end.

Definition number_mul (a b : number) : number :=
  match a, b with
  | Num x, Num y => Num (x * y)
  | _, _ => NaN
  end.

(** WhiteSpace and LineTerminator code units, skipped by [parseInt]. *)
Definition is_StrWhiteSpaceChar (c : Z) : bool :=
  (c =? 0x9) || (c =? 0xA) || (c =? 0xB) || (c =? 0xC) || (c =? 0xD) ||
  (c =? 0x20) || (c =? 0xA0) || (c =? 0x1680) ||
  ((0x2000 <=? c) && (c <=? 0x200A)) ||
  (c =? 0x2028) || (c =? 0x2029) || (c =? 0x202F) || (c =? 0x205F) ||
  (c =? 0x3000) || (c =? 0xFEFF).

Fixpoint trim_start (s : jsstring) : jsstring :=
  match s with
  | c :: s' => if is_StrWhiteSpaceChar c then trim_start s' else s
  | [] => []
  end.

Definition is_digit (c : Z) : bool := (0x30 <=? c) && (c <=? 0x39).

(** The longest prefix of decimal digits. *)
Fixpoint digits_prefix (s : jsstring) : list Z :=
  match s with
  | c :: s' => if is_digit c then (c - 0x30) :: digits_prefix s' else []
  | [] => []
  end.

Definition digits_value (ds : list Z) : Z :=
  fold_left (fun acc d => acc * 10 + d) ds 0.

(** [parseInt(s, 10)]: leading white space and one sign are skipped, the
    digits that follow are read, and no digit at all yields [NaN]. *)
Definition parseInt10 (s : jsstring) : number :=
  let trimmed := trim_start s in
  let '(sign, body) :=
    match trimmed with
    | c :: rest =>
        if c =? 0x2D then (-1, rest)
        else if c =? 0x2B then (1, rest)
        else (1, trimmed)
    | [] => (1, trimmed)
    end in
  match digits_prefix body with
  | [] => NaN
  | ds => Num (sign * digits_value ds)
  end.

End JsNumber.

Module JsDate.
Import JsString JsNumber.

(** A Date object is its time value: milliseconds since the epoch, or
    [NaN] for an Invalid Date. *)
Record Date : Type := mkDate { getTime : number }.

Definition TimeClip (v : number) : number :=
  match v with
  | Num t => if Z.abs t <=? 8640000000000000 then Num t else NaN
  | NaN => NaN
  end.

(** [new Date(v)] for a number [v]. *)
Definition Date_of_number (v : number) : Date := mkDate (TimeClip v).

(** [a >= b] on two Date objects compares their time values. *)
Definition Date_ge (a b : Date) : bool := number_ge (getTime a) (getTime b).

Definition msPerDay : Z := 86400000.

(** Proleptic Gregorian calendar: day number since the epoch to
    (year, month, day) and back. *)
Definition civil_from_days (days : Z) : Z * Z * Z :=
  let z := days + 719468 in
  let era := z / 146097 in
  let doe := z - era * 146097 in
  let yoe := (doe - doe / 1460 + doe / 36524 - doe / 146096) / 365 in
  let y := yoe + era * 400 in
  let doy := doe - (365 * yoe + yoe / 4 - yoe / 100) in
  let mp := (5 * doy + 2) / 153 in
  let d := doy - (153 * mp + 2) / 5 + 1 in
  let m := if mp <? 10 then mp + 3 else mp - 9 in
  (if m <=? 2 then y + 1 else y, m, d).

Definition days_from_civil (y m d : Z) : Z :=
  let y := if m <=? 2 then y - 1 else y in
  let era := y / 400 in
  let yoe := y - era * 400 in
  let doy := (153 * (if 2 <? m then m - 3 else m + 9) + 2) / 5 + d - 1 in
  let doe := yoe * 365 + yoe / 4 - yoe / 100 + doy in
  era * 146097 + doe - 719468.

(** [n] written with exactly [width] decimal digits (0 <= n). *)
Fixpoint pad_digits (width : nat) (n : Z) : jsstring :=
  match width with
  | O => []
  | S w => pad_digits w (n / 10) ++ [0x30 + n mod 10]
  end.

(** Date.prototype.toISOString on a valid time value:
    YYYY-MM-DDTHH:mm:ss.sssZ, the year with a sign and six digits
    outside 0..9999. *)
Definition toISOString (t : Z) : jsstring :=
  let days := t / msPerDay in
  let ms := t mod msPerDay in
  let '(y, m, d) := civil_from_days days in
  let year :=
    if (0 <=? y) && (y <=? 9999) then pad_digits 4 y
    else (if y <? 0 then js "-" else js "+") ++ pad_digits 6 (Z.abs y) in
  year ++ js "-" ++ pad_digits 2 m ++ js "-" ++ pad_digits 2 d ++ js "T" ++
  pad_digits 2 (ms / 3600000) ++ js ":" ++
  pad_digits 2 (ms / 60000 mod 60) ++ js ":" ++
  pad_digits 2 (ms / 1000 mod 60) ++ js "." ++
  pad_digits 3 (ms mod 1000) ++ js "Z".

(** Exactly [width] digits at the head of [s]: their value and the rest. *)
Fixpoint read_digits (width : nat) (acc : Z) (s : jsstring) : option (Z * jsstring) :=
  match width with
  | O => Some (acc, s)
  | S w =>
      match s with
      | c :: s' => if is_digit c then read_digits w (acc * 10 + (c - 0x30)) s' else None
      | [] => None
      end
  end.

Definition read_char (c : Z) (s : jsstring) : option jsstring :=
  match s with
  | c' :: s' => if c' =? c then Some s' else None
  | [] => None
  end.

Definition days_in_month (y m : Z) : Z :=
  days_from_civil (if m =? 12 then y + 1 else y) (if m =? 12 then 1 else m + 1) 1
  - days_from_civil y m 1.

(** [Date.parse] on the complete date-time form written by
    [toISOString].  Any other text is left to the engine's own fallback
    parser by ECMA-262; it is taken here to be unparseable ([NaN]). *)
Definition Date_parse (s : jsstring) : number :=
  let year :=
    match s with
    | c :: s' =>
        if c =? 0x2B then '(y, r) ← read_digits 6 0 s'; Some (y, r)
        else if c =? 0x2D then
          '(y, r) ← read_digits 6 0 s'; if y =? 0 then None else Some (- y, r)
        else read_digits 4 0 s
    | [] => None
    end in
  let fields :=
    '(y, r) ← year;
    r ← read_char 0x2D r; '(m, r) ← read_digits 2 0 r;
    r ← read_char 0x2D r; '(d, r) ← read_digits 2 0 r;
    r ← read_char 0x54 r; '(hh, r) ← read_digits 2 0 r;
    r ← read_char 0x3A r; '(mm, r) ← read_digits 2 0 r;
    r ← read_char 0x3A r; '(ss, r) ← read_digits 2 0 r;
    r ← read_char 0x2E r; '(ms, r) ← read_digits 3 0 r;
    r ← read_char 0x5A r;
    match r with
    | [] =>
        if (1 <=? m) && (m <=? 12) && (1 <=? d) && (d <=? days_in_month y m) &&
           ((hh <=? 23) && (mm <=? 59) && (ss <=? 59) ||
            (hh =? 24) && (mm =? 0) && (ss =? 0) && (ms =? 0))
        then Some (days_from_civil y m d * msPerDay
                   + hh * 3600000 + mm * 60000 + ss * 1000 + ms)
        else None
    | _ :: _ => None
    end in
  match fields with
  | Some t => TimeClip (Num t)
  | None => NaN
  end.

End JsDate.


(** ** Values, property access and JSON *)

Module JsValue.
Import JsString Js JsNumber JsDate.

(** Run-time values.  An object is the list of its own properties in
    insertion order; an array has its elements and, apart from them, the
    named properties assigned to it. *)
Inductive jsval : Type :=
| VUndefined
| VNull
| VBool (b : bool)
| VNumber (n : number)
| VString (s : jsstring)
| VDate (d : Date)
| VArray (items : list jsval) (named : list (jsstring * jsval))
| VObject (props : list (jsstring * jsval)).

(** JSON texts, by their syntax tree. *)
Inductive json : Type :=
| JNull
| JBool (b : bool)
| JNumber (z : Z)
| JString (s : jsstring)
| JArray (items : list json)
| JObject (members : list (jsstring * json)).

Fixpoint lookup_prop {A : Type} (k : jsstring) (props : list (jsstring * A)) : option A :=
  match props with
  | [] => None
  | (k', v) :: props' => if decide (k' = k) then Some v else lookup_prop k props'
  end.

(** [o[k] = v] on the property list of [o]: an existing property keeps
    its place, a new one is added last. *)
Fixpoint assign_prop {A : Type} (k : jsstring) (v : A) (props : list (jsstring * A))
    : list (jsstring * A) :=
  match props with
  | [] => [(k, v)]
  | (k', v') :: props' =>
      if decide (k' = k) then (k, v) :: props' else (k', v') :: assign_prop k v props'
  end.

(** [v.k] for the named properties the sources read.  Reading a property
    of [undefined] or [null] throws; a value without the property yields
    [undefined]. *)
Definition get (v : jsval) (k : string) : result jsval :=
  match v with
  | VUndefined | VNull => Throw TypeError
  | VObject props => Ok (default VUndefined (lookup_prop (js k) props))
  | VArray _ named => Ok (default VUndefined (lookup_prop (js k) named))
  | _ => Ok VUndefined
  end.

(** [v.k = x] in strict mode: only objects and arrays take properties. *)
Definition set (v : jsval) (k : string) (x : jsval) : result jsval :=
  match v with
  | VObject props => Ok (VObject (assign_prop (js k) x props))
  | VArray items named => Ok (VArray items (assign_prop (js k) x named))
  | _ => Throw TypeError
  end.

(** ToBoolean. *)
Definition truthy (v : jsval) : bool :=
  match v with
  | VUndefined | VNull => false
  | VBool b => b
  | VNumber NaN => false
  | VNumber (Num z) => negb (z =? 0)
  | VString s => match s with [] => false | _ :: _ => true end
  | VDate _ | VArray _ _ | VObject _ => true
  end.

(** JSON.stringify: [None] stands for the result [undefined].  A Date
    is written through [toJSON], that is [toISOString], an Invalid Date
    and [NaN] as [null]; an [undefined] property is left out and an
    [undefined] array element becomes [null]. *)
Fixpoint JSON_stringify (v : jsval) : option json :=
  match v with
  | VUndefined => None
  | VNull => Some JNull
  | VBool b => Some (JBool b)
  | VNumber NaN => Some JNull
  | VNumber (Num z) => Some (JNumber z)
  | VString s => Some (JString s)
  | VDate d =>
      match getTime d with
      | Num t => Some (JString (toISOString t))
      | NaN => Some JNull
      end
  | VArray items _ =>
      Some (JArray (List.map (fun x => default JNull (JSON_stringify x)) items))
  | VObject props =>
      Some (JObject
        ((fix members (ps : list (jsstring * jsval)) : list (jsstring * json) :=
            match ps with
            | [] => []
            | (k, x) :: ps' =>
                match JSON_stringify x with
                | Some j => (k, j) :: members ps'
                | None => members ps'
                end
            end) props))
  end.

(** JSON.parse on a well-formed text: a repeated member name keeps its
    first place and its last value. *)
Fixpoint JSON_parse (j : json) : jsval :=
  match j with
  | JNull => VNull
  | JBool b => VBool b
  | JNumber z => VNumber (Num z)
  | JString s => VString s
  | JArray items => VArray (List.map JSON_parse items) []
  | JObject members =>
      VObject
        ((fix props (ms : list (jsstring * json)) (acc : list (jsstring * jsval))
            : list (jsstring * jsval) :=
            match ms with
            | [] => acc
            | (k, x) :: ms' => props ms' (assign_prop k (JSON_parse x) acc)
            end) members [])
  end.

(** [new Date(v)] with one argument.  An array or object argument is
    converted through its string form, which the model takes to be
    unparseable. *)
Definition new_Date (v : jsval) : Date :=
  match v with
  | VUndefined => mkDate NaN
  | VNull => Date_of_number (Num 0)
  | VBool b => Date_of_number (Num (if b then 1 else 0))
  | VNumber n => Date_of_number n
  | VString s => mkDate (Date_parse s)
  | VDate d => d
  | VArray _ _ | VObject _ => mkDate NaN
  end.

End JsValue.


(** ** Effects: console, logger, clock, randomness, network, files *)

Module Effects.
Import JsString Js JsNumber JsDate JsValue CodeGenerator.

(** What a run prints.  A text is recorded by its template in the
    sources, with the values interpolated into it. *)
Inductive event : Type :=
| LogDebug (text : string)
| LogError (text : string) (detail : option exn)
| Spinner (method text : string)
| Print (text : string) (values : list jsval).

(** Text the sessions directory holds under a file name: a JSON text, or
    text that [JSON.parse] rejects. *)
Inductive file_text : Type :=
| JsonText (j : json)
| Malformed.

Inductive file : Type :=
| File (text : file_text)
| Unreadable (code : string).   (* reading it fails with this errno *)

(** The data directory.  [files] are the entries of data/sessions by
    file name; the [_fault] fields make the corresponding fs call fail
    with the given errno code. *)
Record filesystem : Type := {
  sessions_dir : bool;
  files : gmap jsstring file;
  mkdir_fault : option string;
  readdir_fault : option string;
  write_fault : option string;
  unlink_fault : option string
}.

Record world : Type := {
  fs : filesystem;
  out : list event;
  clock_reads : nat;
  random_draws : nat;
  requests_sent : nat
}.

(** What the run is given from outside: the i-th reading of the clock,
    the bytes of the i-th random draw, the outcome of the i-th HTTP
    request, the answer to the confirmation prompt, the access key of the
    process environment and the text [String(date)] gives. *)
Record environment : Type := {
  plat : platform;
  clock : nat -> Z;
  entropy : nat -> nat -> Z;
  responses : nat -> result jsval;
  prompt_answer : result bool;
  UNSPLASH_ACCESS_KEY : option jsstring;
  Date_toString : Date -> jsstring
}.

(** How a computation ends: with a value, with a thrown exception, or
    with [process.exit(code)], which no [catch] intercepts. *)
Inductive outcome (A : Type) : Type :=
| Return (a : A)
| Raise (e : exn)
| Exit (code : Z).
Arguments Return {A} a.
Arguments Raise {A} e.
Arguments Exit {A} code.

Definition M (A : Type) : Type := world -> outcome A * world.

Definition ret {A} (a : A) : M A := fun w => (Return a, w).

Definition bind {A B} (m : M A) (k : A -> M B) : M B :=
  fun w =>
    match m w with
    | (Return a, w') => k a w'
    | (Raise e, w') => (Raise e, w')
    | (Exit c, w') => (Exit c, w')
    end.

Definition throw {A} (e : exn) : M A := fun w => (Raise e, w).

Definition process_exit {A} (code : Z) : M A := fun w => (Exit code, w).

(** [try { m } catch (error) { handler error }]. *)
Definition try_catch {A} (m : M A) (handler : exn -> M A) : M A :=
  fun w =>
    match m w with
    | (Raise e, w') => handler e w'
    | r => r
    end.

Definition lift {A} (r : result A) : M A :=
  match r with
  | Ok a => ret a
  | Throw e => throw e
  end.

Declare Scope M_scope.
Delimit Scope M_scope with M.
Notation "'let*' x ':=' m 'in' k" := (bind m (fun x => k))
  (at level 10, x pattern, m at level 100, k at level 200) : M_scope.
Notation "m ';;' k" := (bind m (fun _ => k))
  (at level 100, k at level 200, right associativity) : M_scope.
Local Open Scope M_scope.

Definition emit (e : event) : M unit :=
  fun w => (Return tt, {| fs := fs w; out := out w ++ [e];
                          clock_reads := clock_reads w;
                          random_draws := random_draws w;
                          requests_sent := requests_sent w |}).

(** Modelled from the spec: the logger of src/utils/logger, which is not
    among the sources.  Failures are "surfaced to the user via printed
    messages": [logger.error] and [logger.debug] print what they are
    given. *)
Definition logger_error (text : string) (detail : option exn) : M unit :=
  emit (LogError text detail).

Definition logger_debug (text : string) : M unit := emit (LogDebug text).

Definition console_log (text : string) (values : list jsval) : M unit :=
  emit (Print text values).

Definition spinner (method text : string) : M unit := emit (Spinner method text).

Definition with_fs (w : world) (f : filesystem) : world :=
  {| fs := f; out := out w; clock_reads := clock_reads w;
     random_draws := random_draws w; requests_sent := requests_sent w |}.

(** [new Date()]. *)
Definition Date_now (env : environment) : M Date :=
  fun w =>
    (Return (Date_of_number (Num (clock env (clock_reads w)))),
     {| fs := fs w; out := out w; clock_reads := S (clock_reads w);
        random_draws := random_draws w; requests_sent := requests_sent w |}).

(** One draw from the random source: the function giving its bytes. *)
Definition draw (env : environment) : M (nat -> Z) :=
  fun w =>
    (Return (entropy env (random_draws w)),
     {| fs := fs w; out := out w; clock_reads := clock_reads w;
        random_draws := S (random_draws w); requests_sent := requests_sent w |}).

(** [axios.get(url, config)]: the response data, or a thrown error. *)
Definition axios_get (env : environment) : M jsval :=
  fun w =>
    (match responses env (requests_sent w) with
     | Ok data => Return data
     | Throw e => Raise e
     end,
     {| fs := fs w; out := out w; clock_reads := clock_reads w;
        random_draws := random_draws w; requests_sent := S (requests_sent w) |}).

Definition isAxiosError (e : exn) : bool :=
  match e with
  | AxiosError _ => true
  | _ => false
  end.

(** [fs.mkdir(sessionsDir, { recursive: true })]. *)
Definition fs_mkdir : M unit :=
  fun w =>
    match mkdir_fault (fs w) with
    | Some code => (Raise (ErrnoException code), w)
    | None =>
        (Return tt,
         with_fs w {| sessions_dir := true; files := files (fs w);
                      mkdir_fault := mkdir_fault (fs w);
                      readdir_fault := readdir_fault (fs w);
                      write_fault := write_fault (fs w);
                      unlink_fault := unlink_fault (fs w) |})
    end.

(** [fs.writeFile(path, data, 'utf-8')] for a file of the directory. *)
Definition fs_writeFile (name : jsstring) (data : file_text) : M unit :=
  fun w =>
    match write_fault (fs w) with
    | Some code => (Raise (ErrnoException code), w)
    | None =>
        if sessions_dir (fs w) then
          (Return tt,
           with_fs w {| sessions_dir := true;
                        files := <[name := File data]> (files (fs w));
                        mkdir_fault := mkdir_fault (fs w);
                        readdir_fault := readdir_fault (fs w);
                        write_fault := write_fault (fs w);
                        unlink_fault := unlink_fault (fs w) |})
        else (Raise (ErrnoException "ENOENT"), w)
    end.

(** [fs.readFile(path, 'utf-8')]. *)
Definition fs_readFile (name : jsstring) : M file_text :=
  fun w =>
    if sessions_dir (fs w) then
      match files (fs w) !! name with
      | Some (File text) => (Return text, w)
      | Some (Unreadable code) => (Raise (ErrnoException code), w)
      | None => (Raise (ErrnoException "ENOENT"), w)
      end
    else (Raise (ErrnoException "ENOENT"), w).

(** [fs.readdir(sessionsDir)]: the file names, in the directory's order. *)
Definition fs_readdir : M (list jsstring) :=
  fun w =>
    match readdir_fault (fs w) with
    | Some code => (Raise (ErrnoException code), w)
    | None =>
        if sessions_dir (fs w)
        then (Return (List.map fst (map_to_list (files (fs w)))), w)
        else (Raise (ErrnoException "ENOENT"), w)
    end.

(** [fs.unlink(path)]. *)
Definition fs_unlink (name : jsstring) : M unit :=
  fun w =>
    match unlink_fault (fs w) with
    | Some code => (Raise (ErrnoException code), w)
    | None =>
        if sessions_dir (fs w) then
          match files (fs w) !! name with
          | Some _ =>
              (Return tt,
               with_fs w {| sessions_dir := true;
                            files := delete name (files (fs w));
                            mkdir_fault := mkdir_fault (fs w);
                            readdir_fault := readdir_fault (fs w);
                            write_fault := write_fault (fs w);
                            unlink_fault := unlink_fault (fs w) |})
          | None => (Raise (ErrnoException "ENOENT"), w)
          end
        else (Raise (ErrnoException "ENOENT"), w)
    end.

End Effects.

(** ** src/types/index.ts *)

Module Types.
Import JsString JsNumber JsDate JsValue.

Record RVTarget : Type := {
  code : jsstring;
  targetUrl : jsval;
  targetDescription : jsval;
  targetSource : jsstring;
  revealed : bool;
  revealedAt : option Date
}.

Record RVSession : Type := {
  id : jsstring;
  name : option jsstring;
  targets : list RVTarget;
  createdAt : Date;
  revealAt : Date;
  notes : option jsstring
}.

Definition optional (k : string) (v : option jsval) : list (jsstring * jsval) :=
  match v with
  | Some x => [(js k, x)]
  | None => []
  end.

(** The object a typed record is at run time.  The literals of
    create.ts write [name] even when it is undefined, and neither
    [revealedAt] nor [notes]. *)
Definition RVTarget_value (t : RVTarget) : jsval :=
  VObject ([(js "code", VString (code t));
            (js "targetUrl", targetUrl t);
            (js "targetDescription", targetDescription t);
            (js "targetSource", VString (targetSource t));
            (js "revealed", VBool (revealed t))]
           ++ optional "revealedAt" (VDate <$> revealedAt t)).

Definition RVSession_value (s : RVSession) : jsval :=
  VObject ([(js "id", VString (id s));
            (js "name", from_option VString VUndefined (name s));
            (js "targets", VArray (List.map RVTarget_value (targets s)) []);
            (js "createdAt", VDate (createdAt s));
            (js "revealAt", VDate (revealAt s))]
           ++ optional "notes" (VString <$> notes s)).

End Types.

(** ** src/services/storage-service.ts *)

Module StorageService.
Import JsString Js JsNumber JsDate JsValue Effects.
Local Open Scope M_scope.

Section JsonStorageService.
Variable env : environment.

(** The text a template literal makes of a value. *)
Fixpoint ToString (v : jsval) : jsstring :=
  match v with
  | VUndefined => js "undefined"
  | VNull => js "null"
  | VBool b => if b then js "true" else js "false"
  | VNumber NaN => js "NaN"
  | VNumber (Num z) => decimal z
  | VString s => s
  | VDate d => Date_toString env d
  | VArray items _ =>
      (fix join (l : list jsval) : jsstring :=
         match l with
         | [] => []
         | x :: l' =>
             let text := match x with
                         | VUndefined | VNull => []
                         | _ => ToString x
                         end in
             match l' with
             | [] => text
             | _ :: _ => text ++ js "," ++ join l'
             end
         end) items
  | VObject _ => js "[object Object]"
  end.

(** The path of a session file, relative to the sessions directory. *)
Definition getSessionPath (id : jsstring) : jsstring := id ++ js ".json".

Definition ensureDataDirectory : M unit :=
  try_catch fs_mkdir
    (fun error =>
       logger_error "Failed to create data directory:" (Some error);;
       throw error).

(** [JSON.stringify(session, null, 2)] as the text handed to writeFile;
    writeFile rejects [undefined]. *)
Definition stringify_text (session : jsval) : M file_text :=
  match JSON_stringify session with
  | Some j => ret (JsonText j)
  | None => throw TypeError
  end.

(** The try block of [saveSession], lines 98-99. *)
Definition write_session (filePath : jsstring) (session : jsval) : M unit :=
  let* data := stringify_text session in
  fs_writeFile filePath data;;
  logger_debug "Session ${session.id} saved to ${filePath}".

Definition saveSession (session : jsval) : M unit :=
  ensureDataDirectory;;
  let* id := lift (get session "id") in
  let filePath := getSessionPath (ToString id) in
  try_catch
    (write_session filePath session)
    (fun error =>
       logger_error "Failed to save session:" (Some error);;
       throw (ErrorFrom "Failed to save session" error)).

Definition parse_text (data : file_text) : M jsval :=
  match data with
  | JsonText j => ret (JSON_parse j)
  | Malformed => throw SyntaxError
  end.

Definition is_ENOENT (e : exn) : bool :=
  match e with
  | ErrnoException code => bool_decide (code = "ENOENT"%string)
  | _ => false
  end.

(** The try block of [getSession], lines 110-118. *)
Definition read_session (filePath : jsstring) : M jsval :=
  let* data := fs_readFile filePath in
  let* session := parse_text data in
  let* c := lift (get session "createdAt") in
  let* session := lift (set session "createdAt" (VDate (new_Date c))) in
  let* r := lift (get session "revealAt") in
  let* session := lift (set session "revealAt" (VDate (new_Date r))) in
  let* ra := lift (get session "revealedAt") in
  let* session :=
    (if truthy ra
     then lift (set session "revealedAt" (VDate (new_Date ra)))
     else ret session) in
  ret session.

(** The result is [VNull] when the file does not exist. *)
Definition getSession (id : jsstring) : M jsval :=
  let filePath := getSessionPath id in
  try_catch
    (read_session filePath)
    (fun error =>
       if is_ENOENT error then ret VNull
       else (logger_error "Failed to read session:" (Some error);;
             throw error)).

(** The loop over the directory entries of [getAllSessions]. *)
Fixpoint read_sessions (entries : list jsstring) (sessions : list jsval)
    : M (list jsval) :=
  match entries with
  | [] => ret sessions
  | file :: entries' =>
      if ends_with file (js ".json") then
        let id := remove_first (js ".json") file in
        let* session := getSession id in
        if truthy session
        then read_sessions entries' (sessions ++ [session])
        else read_sessions entries' sessions
      else read_sessions entries' sessions
  end.

(** [v.getTime()] *)
Definition call_getTime (v : jsval) : result number :=
  match v with
  | VDate d => Ok (getTime d)
  | _ => Throw TypeError
  end.

(** [(a, b) => b.createdAt.getTime() - a.createdAt.getTime()] *)
Definition newest_first (a b : jsval) : result number :=
  cb ← get b "createdAt";
  tb ← call_getTime cb;
  ca ← get a "createdAt";
  ta ← call_getTime ca;
  mret (number_sub tb ta).

(** Array.prototype.sort with a comparator, as a stable insertion sort:
    [x] goes before the first element that the comparator puts after it;
    a [NaN] comparison counts as equal. *)
Fixpoint sort_insert (compare : jsval -> jsval -> result number)
    (x : jsval) (sorted : list jsval) : result (list jsval) :=
  match sorted with
  | [] => mret [x]
  | y :: sorted' =>
      v ← compare y x;
      if number_gt v (Num 0) then mret (x :: y :: sorted')
      else (rest ← sort_insert compare x sorted'; mret (y :: rest))
  end.

Definition Array_sort (compare : jsval -> jsval -> result number)
    (l : list jsval) : result (list jsval) :=
  fold_left (fun acc x => sorted ← acc; sort_insert compare x sorted) l (mret []).

(** The try block of [getAllSessions], lines 133-147. *)
Definition list_sessions : M (list jsval) :=
  let* entries := fs_readdir in
  let* sessions := read_sessions entries [] in
  lift (Array_sort newest_first sessions).

Definition getAllSessions : M (list jsval) :=
  ensureDataDirectory;;
  try_catch
    list_sessions
    (fun error =>
       logger_error "Failed to list sessions:" (Some error);;
       ret []).

(** The own properties an object spread copies. *)
Definition spread (v : jsval) : list (jsstring * jsval) :=
  match v with
  | VObject props => props
  | VArray items named =>
      imap (fun i x => (decimal (Z.of_nat i), x)) items ++ named
  | VString s => imap (fun i c => (decimal (Z.of_nat i), VString [c])) s
  | _ => []
  end.

Definition updateSession (id : jsstring) (updates : jsval) : M unit :=
  let* session := getSession id in
  if negb (truthy session) then throw (Error "Session ${id} not found")
  else
    let updatedSession :=
      VObject (fold_left (fun acc kv => assign_prop (fst kv) (snd kv) acc)
                 (spread updates) (spread session)) in
    saveSession updatedSession.

(** The try block of [deleteSession], lines 168-169. *)
Definition unlink_session (filePath : jsstring) : M unit :=
  fs_unlink filePath;;
  logger_debug "Session ${id} deleted".

Definition deleteSession (id : jsstring) : M unit :=
  let filePath := getSessionPath id in
  try_catch
    (unlink_session filePath)
    (fun error =>
       logger_error "Failed to delete session:" (Some error);;
       throw (ErrorFrom "Failed to delete session" error)).

End JsonStorageService.
End StorageService.

(** ** src/services/unsplash-service.ts *)

Module UnsplashService.
Import JsString Js JsNumber JsDate JsValue Effects.
Local Open Scope M_scope.

Section UnsplashService.
Variable env : environment.

Record image : Type := {
  url : jsval;
  description : jsval;
  sourceUrl : jsval
}.

(** The constructor: an empty or missing key is refused. *)
Definition new_UnsplashService (accessKey : option jsstring) : M jsstring :=
  match accessKey with
  | Some (c :: key) => ret (c :: key)
  | Some [] | None => throw (Error "Unsplash access key is required")
  end.

(** [a || b] *)
Definition or_else (a b : jsval) : jsval := if truthy a then a else b.

(** The try block of [fetchRandomImage], lines 23-41. *)
Definition request_image : M image :=
  logger_debug "Fetching random image from Unsplash...";;
  let* photo := axios_get env in
  let* urls := lift (get photo "urls") in
  let* regular := lift (get urls "regular") in
  let* d := lift (get photo "description") in
  let* alt := lift (get photo "alt_description") in
  let* links := lift (get photo "links") in
  let* html := lift (get links "html") in
  ret {| url := regular;
         description :=
           or_else (or_else d alt) (VString (js "No description available"));
         sourceUrl := html |}.

Definition fetchRandomImage : M image :=
  try_catch
    request_image
    (fun error =>
       if isAxiosError error then
         logger_error "Unsplash API error:" (Some error);;
         throw (ErrorFrom "Failed to fetch image from Unsplash" error)
       else throw error).

Definition testConnection : M bool :=
  try_catch
    (let* _ := axios_get env in ret true)
    (fun error => ret false).

End UnsplashService.
End UnsplashService.

(** ** src/commands *)

Module Commands.
Import JsString Js JsNumber JsDate JsValue CodeGenerator Effects Types.
Import StorageService UnsplashService.
Local Open Scope M_scope.

Section Commands.
Variable env : environment.

(** *** create.ts *)

(** The options commander hands to the action: [--duration] and
    [--targets] as the texts given (defaults '60' and '1'). *)
Record create_options : Type := {
  options_duration : jsstring;
  options_targets : jsstring;
  options_name : option jsstring;
  options_source : jsstring
}.

Definition loop_fuel (bound : number) : nat :=
  match bound with
  | Num n => Z.to_nat n
  | NaN => O
  end.

(** The loop of lines 59-75, at index [i] with [targets] pushed so far. *)
Fixpoint create_targets (targetCount : number) (fuel : nat) (i : Z)
    (targets : list RVTarget) : M (list RVTarget) :=
  match fuel with
  | O => ret targets
  | S fuel' =>
      if number_lt (Num i) targetCount then
        spinner "text" "Creating target ${i + 1}/${targetCount}...";;
        let* bytes := draw env in
        let* code := lift (generateCode_default (plat env) bytes) in
        let* image := fetchRandomImage env in
        create_targets targetCount fuel' (i + 1)
          (targets ++ [{| code := code;
                          targetUrl := url image;
                          targetDescription := description image;
                          targetSource := js "unsplash";
                          revealed := false;
                          revealedAt := None |}])
      else ret targets
  end.

(** Lines 23-88 of the action: the checks, the session and its saving.
    The session is returned so that statements can refer to it. *)
Definition create_session (options : create_options) : M RVSession :=
  match UNSPLASH_ACCESS_KEY env with
  | None | Some [] =>
      spinner "fail" "Unsplash API key not found";;
      console_log "Please set UNSPLASH_ACCESS_KEY in your .env file or environment" [];;
      console_log "Get your key at: https://unsplash.com/developers" [];;
      process_exit 1
  | Some unsplashKey =>
      let* _ := new_UnsplashService (Some unsplashKey) in
      let targetCount := parseInt10 (options_targets options) in
      let duration := parseInt10 (options_duration options) in
      if number_lt targetCount (Num 1) || number_gt targetCount (Num 10) then
        spinner "fail" "Invalid target count";;
        console_log "Target count must be between 1 and 10" [];;
        process_exit 1
      else
        let* bytes := draw env in
        let* idBytes := lift (randomBytes bytes 8) in
        let sessionId := to_hex idBytes in
        let* createdAt := Date_now env in
        let revealAt :=
          Date_of_number
            (number_add (getTime createdAt)
               (number_mul (number_mul duration (Num 60)) (Num 1000))) in
        let* targets := create_targets targetCount (loop_fuel targetCount) 0 [] in
        let session :=
          {| id := sessionId;
             name := options_name options;
             targets := targets;
             createdAt := createdAt;
             revealAt := revealAt;
             notes := None |} in
        spinner "text" "Saving session...";;
        saveSession env (RVSession_value session);;
        ret session
  end.

(** The try block of the action, lines 23-116. *)
Definition create_action (options : create_options) : M unit :=
  let* session := create_session options in
  spinner "succeed" "RV session created successfully!";;
  console_log "SESSION CREATED"
    [RVSession_value session;
     VNumber (parseInt10 (options_targets options));
     VNumber (parseInt10 (options_duration options))].

Definition createCommand (options : create_options) : M unit :=
  spinner "start" "Creating RV session...";;
  try_catch
    (create_action options)
    (fun error =>
       spinner "fail" "Failed to create session";;
       logger_error "error.message" (Some error);;
       process_exit 1).

(** *** reveal.ts *)

(** [normalizeCode(v).toUpperCase()] for a value [v]: only a string has
    [replace]. *)
Definition normalized_upper (v : jsval) : result jsstring :=
  match v with
  | VString s => Ok (toUpperCase (normalizeCode s))
  | _ => Throw TypeError
  end.

(** [(t) => normalizeCode(t.code).toUpperCase() === normalizedCode] *)
Definition has_code (normalizedCode : jsstring) (t : jsval) : result bool :=
  c ← get t "code";
  n ← normalized_upper c;
  mret (bool_decide (n = normalizedCode)).

(** [items.findIndex(pred)], counting from [i]. *)
Fixpoint findIndex_from (pred : jsval -> result bool) (items : list jsval) (i : Z)
    : result Z :=
  match items with
  | [] => mret (-1)
  | t :: items' =>
      b ← pred t;
      if (b : bool) then mret i else findIndex_from pred items' (i + 1)
  end.

(** The elements of a value used as an array; anything else has none of
    the array methods. *)
Definition as_array (v : jsval) : result (list jsval) :=
  match v with
  | VArray items _ => Ok items
  | _ => Throw TypeError
  end.

(** The loop of lines 26-35: the first session with a target of that
    code and the target's index. *)
Fixpoint find_target (allSessions : list jsval) (normalizedCode : jsstring)
    : result (option (jsval * Z)) :=
  match allSessions with
  | [] => mret None
  | session :: allSessions' =>
      ts ← get session "targets";
      items ← as_array ts;
      index ← findIndex_from (has_code normalizedCode) items 0;
      if index =? -1 then find_target allSessions' normalizedCode
      else mret (Some (session, index))
  end.

(** [session.targets[index]] *)
Definition target_at (session : jsval) (index : Z) : result jsval :=
  ts ← get session "targets";
  items ← as_array ts;
  mret (default VUndefined (items !! Z.to_nat index)).

(** [v.toLocaleString()]: the text stands for the value it renders. *)
Definition call_toLocaleString (v : jsval) : result jsval :=
  match v with
  | VUndefined | VNull => Throw TypeError
  | _ => Ok v
  end.

(** [v?.toLocaleString() || 'N/A'] *)
Definition locale_or_NA (v : jsval) : jsval :=
  match v with
  | VUndefined | VNull | VString [] => VString (js "N/A")
  | _ => v
  end.

Definition showTarget (target session : jsval) : M unit :=
  let* code := lift (get target "code") in
  let* name := lift (get session "name") in
  let* source := lift (get target "targetSource") in
  let* description := lift (get target "targetDescription") in
  let* url := lift (get target "targetUrl") in
  let* created := lift (get session "createdAt") in
  let* created := lift (call_toLocaleString created) in
  let* revealedAt := lift (get target "revealedAt") in
  console_log "TARGET REVEALED"
    [code; name; source; description; url; created; locale_or_NA revealedAt].

(** [now >= v] for a Date [now]; [v] is the Date that getSession stored
    under [revealAt]. *)
Definition reached (now : Date) (v : jsval) : bool :=
  match v with
  | VDate d => Date_ge now d
  | _ => false
  end.

(** [Math.ceil(ms / (1000 * 60))] *)
Definition minutes_ceil (ms : number) : number :=
  match ms with
  | Num t => Num (- ((- t) / 60000))
  | NaN => NaN
  end.

(** Lines 80-81: the flag and the timestamp of [targets[index]]. *)
Definition mark_revealed (session : jsval) (index : Z) (now : Date) : result jsval :=
  ts ← get session "targets";
  match ts with
  | VArray items named =>
      match items !! Z.to_nat index with
      | Some t =>
          t ← set t "revealed" (VBool true);
          t ← set t "revealedAt" (VDate now);
          set session "targets" (VArray (<[Z.to_nat index := t]> items) named)
      | None => Throw TypeError
      end
  | _ => Throw TypeError
  end.

(** The try block of the action, lines 15-87. *)
Definition reveal_action (code : jsstring) (force : bool) : M unit :=
  let* allSessions := getAllSessions in
  let normalizedCode := toUpperCase (normalizeCode code) in
  let* found := lift (find_target allSessions normalizedCode) in
  match found with
  | None =>
      console_log "Target not found: ${code}" [VString code];;
      console_log "Use glimpse list to see available targets." [];;
      process_exit 1
  | Some (targetSession, targetIndex) =>
      let* target := lift (target_at targetSession targetIndex) in
      let* flag := lift (get target "revealed") in
      if truthy flag then
        let* shown := lift (get target "code") in
        console_log "Target ${target.code} was already revealed." [shown];;
        showTarget target targetSession
      else
        let* now := Date_now env in
        let* revealAt := lift (get targetSession "revealAt") in
        let canReveal := reached now revealAt in
        let* proceed :=
          (if negb canReveal && negb force then
             let* t := lift (call_getTime revealAt) in
             let timeRemaining := number_sub t (getTime now) in
             let* shown := lift (get target "code") in
             console_log "Target ${target.code} is not ready to reveal yet." [shown];;
             console_log "Time remaining: ${minutesRemaining} minutes"
               [VNumber (minutes_ceil timeRemaining)];;
             console_log "Reveal at: ${revealAt}" [revealAt];;
             let* forceReveal := lift (prompt_answer env) in
             if (forceReveal : bool) then ret true
             else (console_log "Reveal cancelled." [];; ret false)
           else ret true) in
        if (proceed : bool) then
          let* stamp := Date_now env in
          let* targetSession := lift (mark_revealed targetSession targetIndex stamp) in
          saveSession env targetSession;;
          console_log "Target revealed!" [];;
          let* target := lift (target_at targetSession targetIndex) in
          showTarget target targetSession
        else ret tt
  end.

Definition revealCommand (code : jsstring) (force : bool) : M unit :=
  try_catch
    (reveal_action code force)
    (fun error =>
       logger_error "Failed to reveal target" None;;
       logger_error "error.message" (Some error);;
       process_exit 1).

(** *** list.ts *)

Record list_options : Type := {
  options_all : bool;
  options_revealed : bool
}.

(** [t.revealed] as a condition. *)
Definition is_revealed (t : jsval) : result bool :=
  flag ← get t "revealed";
  mret (truthy flag).

(** [items.every(pred)] and [items.some(pred)] stop at the first element
    that decides the answer. *)
Fixpoint Array_every (pred : jsval -> result bool) (items : list jsval) : result bool :=
  match items with
  | [] => mret true
  | t :: items' =>
      b ← pred t;
      if (b : bool) then Array_every pred items' else mret false
  end.

Fixpoint Array_some (pred : jsval -> result bool) (items : list jsval) : result bool :=
  match items with
  | [] => mret false
  | t :: items' =>
      b ← pred t;
      if (b : bool) then mret true else Array_some pred items'
  end.

Fixpoint Array_filter (pred : jsval -> result bool) (items : list jsval)
    : result (list jsval) :=
  match items with
  | [] => mret []
  | t :: items' =>
      b ← pred t;
      rest ← Array_filter pred items';
      mret (if (b : bool) then t :: rest else rest)
  end.

(** [s.targets], which must be an array for the calls made on it. *)
Definition targets_of (s : jsval) : result (list jsval) :=
  ts ← get s "targets";
  as_array ts.

Definition all_revealed (s : jsval) : result bool :=
  items ← targets_of s;
  Array_every is_revealed items.

Definition some_hidden (s : jsval) : result bool :=
  items ← targets_of s;
  Array_some (fun t => b ← is_revealed t; mret (negb b)) items.

Definition revealed_count (s : jsval) : result Z :=
  items ← targets_of s;
  shown ← Array_filter is_revealed items;
  mret (Z.of_nat (List.length shown)).

(** [session.targets.forEach((target, index) => ...)], lines 67-70. *)
Fixpoint show_target_lines (l : list jsval) (index : Z) : M unit :=
  match l with
  | [] => ret tt
  | target :: l' =>
      let* flag := lift (get target "revealed") in
      let* code := lift (get target "code") in
      console_log "${index + 1}. ${target.code} ${targetStatus}"
        [VNumber (Num (index + 1)); code;
         VString (js (if truthy flag then "[REVEALED]"%string else "[HIDDEN]"%string))];;
      show_target_lines l' (index + 1)
  end.

(** The body of [filteredSessions.forEach], lines 46-73. *)
Definition show_session (session : jsval) : M unit :=
  let* now := Date_now env in
  let* revealAt := lift (get session "revealAt") in
  let canReveal := reached now revealAt in
  let* revealedCount := lift (revealed_count session) in
  let* items := lift (targets_of session) in
  let totalTargets := Z.of_nat (List.length items) in
  let status :=
    if revealedCount =? totalTargets then "ALL REVEALED"%string
    else if canReveal then "READY"%string else "ACTIVE"%string in
  let* name := lift (get session "name") in
  let* id := lift (get session "id") in
  console_log "${sessionName} - ${status}"
    [if truthy name then name else id; VString (js status)];;
  console_log "ID: ${session.id}" [id];;
  let* created := lift (get session "createdAt") in
  let* created := lift (call_toLocaleString created) in
  console_log "Created: ${createdAt}" [created];;
  let* reveal := lift (call_toLocaleString revealAt) in
  console_log "Reveal: ${revealAt}" [reveal];;
  console_log "Targets: ${revealedCount}/${totalTargets} revealed"
    [VNumber (Num revealedCount); VNumber (Num totalTargets)];;
  show_target_lines items 0;;
  console_log "" [].

Fixpoint forEach (f : jsval -> M unit) (l : list jsval) : M unit :=
  match l with
  | [] => ret tt
  | x :: l' => f x;; forEach f l'
  end.

(** [sessions.reduce((sum, s) => sum + count(s), 0)] *)
Fixpoint sum_over (count : jsval -> result Z) (l : list jsval) (sum : Z) : result Z :=
  match l with
  | [] => mret sum
  | x :: l' => n ← count x; sum_over count l' (sum + n)
  end.

(** The try block of the action, lines 12-86. *)
Definition list_action (options : list_options) : M unit :=
  let* sessions := getAllSessions in
  match sessions with
  | [] =>
      console_log "No sessions found." [];;
      console_log "Create one with: glimpse create" []
  | _ :: _ =>
      let* filteredSessions :=
        lift (if options_revealed options then Array_filter all_revealed sessions
              else if negb (options_all options) then Array_filter some_hidden sessions
              else Ok sessions) in
      match filteredSessions with
      | [] => console_log "No sessions match the filter." []
      | _ :: _ =>
          console_log "RV Sessions (${filteredSessions.length}):"
            [VNumber (Num (Z.of_nat (List.length filteredSessions)))];;
          forEach show_session filteredSessions;;
          let* totalTargets :=
            lift (sum_over (fun s => items ← targets_of s;
                                     mret (Z.of_nat (List.length items)))
                    sessions 0) in
          let* revealedTargets := lift (sum_over revealed_count sessions 0) in
          console_log "Total Sessions: ${n} | Total Targets: ${t} | Revealed: ${r}"
            [VNumber (Num (Z.of_nat (List.length sessions)));
             VNumber (Num totalTargets); VNumber (Num revealedTargets)]
      end
  end.

Definition listCommand (options : list_options) : M unit :=
  try_catch
    (list_action options)
    (fun error =>
       logger_error "Failed to list sessions" None;;
       logger_error "error.message" (Some error);;
       process_exit 1).

(** *** status.ts *)

(** [Math.floor(n / 60)] and [n % 60] *)
Definition number_floor_div (a : number) (b : Z) : number :=
  match a with
  | Num x => Num (x / b)
  | NaN => NaN
  end.

Definition number_rem (a : number) (b : Z) : number :=
  match a with
  | Num x => Num (Z.rem x b)
  | NaN => NaN
  end.

Definition getStatusBadge (revealed : jsval) (canReveal : bool) : string :=
  if truthy revealed then "REVEALED"%string
  else if canReveal then "READY"%string
  else "ACTIVE"%string.

(** [v?.toLocaleString()] *)
Definition optional_locale (v : jsval) : jsval :=
  match v with
  | VUndefined | VNull => VUndefined
  | _ => v
  end.

(** The two numbers of "Time remaining: ${hours}h ${remainingMinutes}m". *)
Definition time_remaining (timeUntilReveal : number) : number * number :=
  let minutes := minutes_ceil timeUntilReveal in
  let hours := number_floor_div minutes 60 in
  let remainingMinutes := number_rem minutes 60 in
  (hours, remainingMinutes).

Definition showTargetStatus (target session : jsval) : M unit :=
  let* now := Date_now env in
  let* revealAt := lift (get session "revealAt") in
  let canReveal := reached now revealAt in
  let* t := lift (call_getTime revealAt) in
  let timeUntilReveal := number_sub t (getTime now) in
  let* code := lift (get target "code") in
  console_log "Target Status: ${target.code}" [code];;
  let* flag := lift (get target "revealed") in
  console_log "Status: ${getStatusBadge(target.revealed, canReveal)}"
    [VString (js (getStatusBadge flag canReveal))];;
  let* name := lift (get session "name") in
  let* id := lift (get session "id") in
  console_log "Session: ${session.name || session.id}" [or_else name id];;
  let* created := lift (get session "createdAt") in
  let* created := lift (call_toLocaleString created) in
  console_log "Created: ${createdAt}" [created];;
  let* reveal := lift (call_toLocaleString revealAt) in
  console_log "Reveal: ${revealAt}" [reveal];;
  if truthy flag then
    let* revealedAt := lift (get target "revealedAt") in
    console_log "Revealed: ${target.revealedAt?.toLocaleString()}"
      [optional_locale revealedAt]
  else if canReveal then
    console_log "Ready to reveal!" [];;
    console_log "Use: glimpse reveal ${target.code}" [code]
  else
    let '(hours, remainingMinutes) := time_remaining timeUntilReveal in
    console_log "Time remaining: ${hours}h ${remainingMinutes}m"
      [VNumber hours; VNumber remainingMinutes];;
    console_log "Use glimpse reveal ${target.code} --force to reveal now" [code].

(** [session.targets.forEach((target, index) => ...)], lines 105-108. *)
Fixpoint show_status_lines (canReveal : bool) (l : list jsval) (index : Z) : M unit :=
  match l with
  | [] => ret tt
  | target :: l' =>
      let* flag := lift (get target "revealed") in
      let* code := lift (get target "code") in
      console_log "${index + 1}. ${target.code} - ${status}"
        [VNumber (Num (index + 1)); code;
         VString (js (getStatusBadge flag canReveal))];;
      show_status_lines canReveal l' (index + 1)
  end.

Definition showSessionStatus (session : jsval) : M unit :=
  let* now := Date_now env in
  let* revealAt := lift (get session "revealAt") in
  let canReveal := reached now revealAt in
  let* t := lift (call_getTime revealAt) in
  let timeUntilReveal := number_sub t (getTime now) in
  let* revealedCount := lift (revealed_count session) in
  let* items := lift (targets_of session) in
  let totalTargets := Z.of_nat (List.length items) in
  console_log "Session Status" [];;
  let* id := lift (get session "id") in
  console_log "ID: ${session.id}" [id];;
  let* name := lift (get session "name") in
  (if truthy name then console_log "Name: ${session.name}" [name] else ret tt);;
  let* created := lift (get session "createdAt") in
  let* created := lift (call_toLocaleString created) in
  console_log "Created: ${createdAt}" [created];;
  let* reveal := lift (call_toLocaleString revealAt) in
  console_log "Reveal: ${revealAt}" [reveal];;
  console_log "Targets: ${revealedCount}/${totalTargets} revealed"
    [VNumber (Num revealedCount); VNumber (Num totalTargets)];;
  (if canReveal then console_log "Session is ready to reveal!" []
   else
     let '(hours, remainingMinutes) := time_remaining timeUntilReveal in
     console_log "Time remaining: ${hours}h ${remainingMinutes}m"
       [VNumber hours; VNumber remainingMinutes]);;
  console_log "Targets:" [];;
  show_status_lines canReveal items 0;;
  console_log "" [].

(** [items.find(pred)]: the first element that satisfies [pred], or
    [undefined]. *)
Fixpoint Array_find (pred : jsval -> result bool) (items : list jsval) : result jsval :=
  match items with
  | [] => mret VUndefined
  | t :: items' =>
      b ← pred t;
      if (b : bool) then mret t else Array_find pred items'
  end.

(** The loop of lines 24-34 and, when it finds nothing, lines 36-38. *)
Fixpoint status_search (allSessions : list jsval) (normalizedCode : jsstring)
    (code : jsstring) : M unit :=
  match allSessions with
  | [] =>
      console_log "Target or session not found: ${code}" [VString code];;
      console_log "Use glimpse list to see available sessions and targets." [];;
      process_exit 1
  | s :: allSessions' =>
      let* items := lift (targets_of s) in
      let* target := lift (Array_find (has_code normalizedCode) items) in
      if truthy target then showTargetStatus target s
      else status_search allSessions' normalizedCode code
  end.

(** The try block of the action, lines 12-43. *)
Definition status_action (code : jsstring) : M unit :=
  let* session := getSession code in
  if negb (truthy session) then
    let* allSessions := getAllSessions in
    let normalizedCode := toUpperCase (normalizeCode code) in
    status_search allSessions normalizedCode code
  else showSessionStatus session.

Definition statusCommand (code : jsstring) : M unit :=
  try_catch
    (status_action code)
    (fun error =>
       logger_error "Failed to check status" None;;
       logger_error "error.message" (Some error);;
       process_exit 1).

End Commands.
End Commands.

(** ** Auxiliary definitions of the statements *)

Module JsStringAux.
Import JsString.

(** A code point that the mapping may produce from another one: it is
    mapped to itself and is neither a surrogate nor the hyphen. *)
Definition settled (x : Z) : bool :=
  match toUppercase x with
  | [y] => y =? x
  | _ => false
  end && negb (is_high_surrogate x) && negb (is_low_surrogate x)
      && negb (x =? HYPHEN).

Definition range_members (r : Z * Z * Z * Z) : list Z :=
  let '(lo, hi, stride, _) := r in
  List.map (fun k => lo + stride * Z.of_nat k)
    (seq 0 (Z.to_nat ((hi - lo) / stride + 1))).

Definition range_settled (r : Z * Z * Z * Z) : bool :=
  let '(_, _, stride, delta) := r in
  (0 <? stride) && forallb (fun cp => settled (cp + delta)) (range_members r).

Definition special_settled (e : Z * list Z) : bool :=
  match snd e with
  | [] => false
  | _ :: _ => forallb settled (snd e)
  end.

(** No lead surrogate stands directly before a trail surrogate. *)
Fixpoint no_split_pair (cps : list Z) : bool :=
  match cps with
  | [] => true
  | c :: cps' =>
      match cps' with
      | d :: _ => negb (is_high_surrogate c && is_low_surrogate d)
      | [] => true
      end && no_split_pair cps'
  end.

Definition first_low (l : list Z) : bool :=
  match l with
  | x :: _ => is_low_surrogate x
  | [] => false
  end.

Fixpoint last_high (l : list Z) : bool :=
  match l with
  | [] => false
  | [x] => is_high_surrogate x
  | _ :: l' => last_high l'
  end.

(** A code unit below the surrogates that upper-casing leaves alone. *)
Definition plain (c : Z) : bool :=
  match toUppercase c with
  | [y] => y =? c
  | _ => false
  end && (c <? 0xD800).

End JsStringAux.

Module CodeGeneratorAux.
Import JsString Js CodeGenerator.

(** The bytes a draw leaves in the array. *)
Definition drawn_bytes (entropy : nat -> Z) (n : nat) : list Z :=
  List.map (fun i => ToUint8 (entropy i)) (seq 0 n).

(** The alphabet symbol of the i-th drawn byte. *)
Definition drawn_symbol (entropy : nat -> Z) (i : nat) : Z :=
  nth (Z.to_nat (ToUint8 (entropy i) mod 32)) CROCKFORD_ALPHABET 0.

Definition drawn_symbols (entropy : nat -> Z) (length : Z) : jsstring :=
  List.map (drawn_symbol entropy) (seq 0 (Z.to_nat length)).

(** What one turn of the loop appends at index [i]. *)
Definition loop_piece (entropy : nat -> Z) (length : Z) (separator : jsstring)
    (separatorPosition : Z) (i : nat) : jsstring :=
  drawn_symbol entropy i ::
  (if (Z.of_nat i =? separatorPosition - 1) && (Z.of_nat i <? length - 1)
   then separator else []).

(** Following the spec's words: the separator inserted once, immediately
    after the symbol at [separatorPosition] (1-indexed). *)
Definition with_separator_after (symbols separator : jsstring)
    (separatorPosition : Z) : jsstring :=
  take (Z.to_nat separatorPosition) symbols ++ separator
  ++ drop (Z.to_nat separatorPosition) symbols.

(** Following the spec's words: the digits 0-9 and the uppercase letters
    without I, L, O and U. *)
Definition is_crockford_symbol (c : Z) : bool :=
  ((0x30 <=? c) && (c <=? 0x39)) ||
  ((0x41 <=? c) && (c <=? 0x5A) &&
   negb ((c =? 0x49) || (c =? 0x4C) || (c =? 0x4F) || (c =? 0x55))).

(** The code units [validateCode] lets through besides the hyphen: the
    alphabet, its lowercase letters, and the five letters whose uppercase
    form is spelled with alphabet symbols (sharp s "SS", long s "S", and
    the ligatures ff "FF", long-s-t and st "ST"). *)
Definition accepted_units : list Z :=
  CROCKFORD_ALPHABET ++ js "abcdefghjkmnpqrstvwxyz"
  ++ [0xDF; 0x17F; 0xFB00; 0xFB05; 0xFB06].

Definition member (c : Z) (l : list Z) : bool := existsb (Z.eqb c) l.

(** Upper-casing the code point gives alphabet symbols only. *)
Definition uppercase_in_alphabet (cp : Z) : bool :=
  forallb (fun u => member u CROCKFORD_ALPHABET) (toUppercase cp).

(** No code unit occurs twice. *)
Fixpoint distinct (l : list Z) : bool :=
  match l with
  | [] => true
  | x :: l' => negb (existsb (Z.eqb x) l') && distinct l'
  end.

End CodeGeneratorAux.

Module JsDateAux.
Import JsString JsNumber JsDate.

(** [ok] holds at [i], [i + 1], ..., [i + fuel - 1]. *)
Fixpoint holds_from (ok : Z -> bool) (fuel : nat) (i : Z) : bool :=
  match fuel with
  | O => true
  | S fuel' => ok i && holds_from ok fuel' (i + 1)
  end.

(** Day [z] of the 400-year cycle that starts on 0000-03-01: the date
    that [civil_from_days] makes of it is a date of the calendar, and
    [days_from_civil] leads back to the day. *)
Definition cycle_day_ok (z : Z) : bool :=
  let '(y, m, d) := civil_from_days (z - 719468) in
  (0 <=? y) && (y <=? 400) && (1 <=? m) && (m <=? 12) && (1 <=? d) &&
  (d <=? days_in_month y m) && (d <=? 31) &&
  (days_from_civil y m d =? z - 719468).

(** The year as [toISOString] writes it. *)
Definition year_text (y : Z) : jsstring :=
  if (0 <=? y) && (y <=? 9999) then pad_digits 4 y
  else (if y <? 0 then js "-" else js "+") ++ pad_digits 6 (Z.abs y).

(** A valid Date: its time value is within 8.64e15 ms of the epoch. *)
Definition in_time_range (d : Date) : bool :=
  match getTime d with
  | Num t => Z.abs t <=? 8640000000000000
  | NaN => false
  end.

End JsDateAux.

Module EffectsAux.
Import JsString Js JsNumber JsDate JsValue Effects.

(** A run never ends in [process.exit]. *)
Definition never_exits {A} (m : M A) : Prop :=
  forall w c, fst (m w) <> Exit c.

(** A run never ends with an exception that nobody caught. *)
Definition never_raises {A} (m : M A) : Prop :=
  forall w e, fst (m w) <> Raise e.

(** A run only adds to what was printed; when it ends in
    [process.exit] the code is 1 and, unless [printed] says that the
    message came before the run, the run itself printed something. *)
Definition reports {A} (printed : bool) (m : M A) : Prop :=
  forall w, exists evs,
    out (snd (m w)) = out w ++ evs /\
    forall c, fst (m w) = Exit c -> c = 1 /\ (printed = false -> evs <> []).

(** Two states of the data directory with the same entries and faults. *)
Definition same_store (f g : filesystem) : Prop :=
  files f = files g /\
  mkdir_fault f = mkdir_fault g /\
  readdir_fault f = readdir_fault g /\
  write_fault f = write_fault g /\
  unlink_fault f = unlink_fault g.

(** A run leaves the entries of the data directory as they are. *)
Definition keeps_store {A} (m : M A) : Prop :=
  forall w, same_store (fs (snd (m w))) (fs w) /\
            (sessions_dir (fs w) = true -> fs (snd (m w)) = fs w).

(** The data directory once it exists, and with one more file. *)
Definition with_sessions_dir (f : filesystem) : filesystem :=
  {| sessions_dir := true; files := files f; mkdir_fault := mkdir_fault f;
     readdir_fault := readdir_fault f; write_fault := write_fault f;
     unlink_fault := unlink_fault f |}.

Definition with_file (name : jsstring) (data : file_text) (f : filesystem)
    : filesystem :=
  {| sessions_dir := true; files := <[name := File data]> (files f);
     mkdir_fault := mkdir_fault f; readdir_fault := readdir_fault f;
     write_fault := write_fault f; unlink_fault := unlink_fault f |}.


(** The value of [v.k] where the access does not throw. *)
Definition prop (v : jsval) (k : string) : jsval :=
  match get v k with
  | Ok x => x
  | Throw _ => VUndefined
  end.

(** The value and the final world of a run that returned. *)
Definition returned {A} (d : A) (r : outcome A * world) : A :=
  match fst r with
  | Return a => a
  | _ => d
  end.

(** The Date that [getSession] makes of a saved Date: the ISO-8601 text
    of a valid date parsed again; an Invalid Date is written as [null],
    and [new Date(null)] is the epoch. *)
Definition reread_date (d : Date) : Date :=
  match getTime d with
  | Num t => mkDate (Date_parse (toISOString t))
  | NaN => mkDate (Num 0)
  end.

(** The world with more printed. *)
Definition printing (w : world) (evs : list event) : world :=
  {| fs := fs w; out := out w ++ evs; clock_reads := clock_reads w;
     random_draws := random_draws w; requests_sent := requests_sent w |}.

(** [m] is [block] inside a [try] whose [catch] prints [report error]
    and ends the process with code 1: what [block] throws ends so, and
    every other end of [block] is the end of [m]. *)
Definition exits_on_failure {A} (block m : M A) (report : exn -> list event)
    : Prop :=
  forall w,
    m w = match block w with
          | (Raise e, w1) => (Exit 1, printing w1 (report e))
          | r => r
          end.

(** [m] is [block] inside a [try] whose [catch] prints [report error]
    and throws [thrown error]. *)
Definition throws_on_failure {A} (block m : M A) (report : exn -> list event)
    (thrown : exn -> exn) : Prop :=
  forall w,
    m w = match block w with
          | (Raise e, w1) => (Raise (thrown e), printing w1 (report e))
          | r => r
          end.

(** A run leaves the data directory exactly as it is. *)
Definition leaves_files {A} (m : M A) : Prop :=
  forall w, fs (snd (m w)) = fs w.

(** A run that does not return leaves the entries of the data directory
    as they were. *)
Definition fails_safely {A} (m : M A) : Prop :=
  forall w, (forall a, fst (m w) <> Return a) ->
            same_store (fs (snd (m w))) (fs w).

(** How often the clock, the random source and the network were used. *)
Definition usage (w : world) : nat * nat * nat :=
  (clock_reads w, random_draws w, requests_sent w).

(** The world after one more reading of the clock. *)
Definition after_clock (w : world) : world :=
  {| fs := fs w; out := out w; clock_reads := S (clock_reads w);
     random_draws := random_draws w; requests_sent := requests_sent w |}.

(** The reading of the clock that a run in [w] gets next. *)
Definition clock_now (env : environment) (w : world) : Date :=
  Date_of_number (Num (clock env (clock_reads w))).

(** The world after the request of [fetchRandomImage] was sent. *)
Definition after_request (w : world) : world :=
  {| fs := fs w;
     out := out w ++ [LogDebug "Fetching random image from Unsplash..."];
     clock_reads := clock_reads w; random_draws := random_draws w;
     requests_sent := S (requests_sent w) |}.

(** [v.createdAt.getTime()] where [v.createdAt] is a Date. *)
Definition created_time (v : jsval) : number :=
  match prop v "createdAt" with
  | VDate d => getTime d
  | _ => NaN
  end.

(** [a] was created at the time of [b] or later. *)
Definition not_older (a b : jsval) : Prop :=
  exists ta tb, created_time a = Num ta /\ created_time b = Num tb /\ tb <= ta.

(** Every session of the list is followed by older ones only. *)
Fixpoint newest_first_order (l : list jsval) : Prop :=
  match l with
  | [] => True
  | a :: l' => Forall (not_older a) l' /\ newest_first_order l'
  end.

End EffectsAux.

Module CommandsAux.
Import JsString Js JsNumber JsDate JsValue CodeGenerator Effects Types.
Import UnsplashService Commands EffectsAux.

(** A target as it is read back from its JSON text. *)
Definition reread_target (t : RVTarget) : jsval :=
  JSON_parse (default JNull (JSON_stringify (RVTarget_value t))).

(** [a || b || c] *)
Definition first_truthy (a b c : jsval) : jsval :=
  if truthy a then a else if truthy b then b else c.

(** The image that lines 24-28 of the service make of a response. *)
Definition image_of (photo : jsval) : result image :=
  urls ← get photo "urls";
  regular ← get urls "regular";
  d ← get photo "description";
  alt ← get photo "alt_description";
  links ← get photo "links";
  html ← get links "html";
  mret {| url := regular;
          description :=
            or_else (or_else d alt) (VString (js "No description available"));
          sourceUrl := html |}.

(** A target as the create command makes it. *)
Definition fresh_target (t : RVTarget) : Prop :=
  revealed t = false /\ revealedAt t = None /\ targetSource t = js "unsplash" /\
  List.length (code t) = 9%nat /\ validateCode (code t) = true /\
  truthy (targetDescription t) = true.

Definition is_hex_digit (c : Z) : bool :=
  ((0x30 <=? c) && (c <=? 0x39)) || ((0x61 <=? c) && (c <=? 0x66)).

(** No target of the session has the code. *)
Definition without_code (normalizedCode : jsstring) (s : jsval) : Prop :=
  exists items, targets_of s = Ok items /\
    Forall (fun t => has_code normalizedCode t = Ok false) items.

(** What the reveal command prints before it asks for confirmation. *)
Definition not_ready_lines (target : jsval) (r now : Date) : list event :=
  [Print "Target ${target.code} is not ready to reveal yet." [prop target "code"];
   Print "Time remaining: ${minutesRemaining} minutes"
     [VNumber (minutes_ceil (number_sub (getTime r) (getTime now)))];
   Print "Reveal at: ${revealAt}" [VDate r]].

End CommandsAux.

(** ** Example runs *)

Module Examples.
Import JsString Js JsNumber JsDate JsValue CodeGenerator Effects Types Commands.

Definition example_photo : jsval :=
  VObject [(js "urls", VObject [(js "regular", VString (js "https://images.example/1"))]);
           (js "description", VNull);
           (js "alt_description", VString (js "a lake"));
           (js "links", VObject [(js "html", VString (js "https://example/photos/1"))])].

Definition example_env : environment :=
  {| plat := {| has_web_crypto := true |};
     clock := fun k => 1700000000000 + Z.of_nat k * 1000;
     entropy := fun k i => Z.of_nat (k * 7 + i * 13);
     responses := fun _ => Ok example_photo;
     prompt_answer := Ok false;
     UNSPLASH_ACCESS_KEY := Some (js "key");
     Date_toString := fun d =>
       match getTime d with
       | Num t => toISOString t
       | NaN => js "Invalid Date"
       end |}.

Definition empty_fs : filesystem :=
  {| sessions_dir := false; files := ∅; mkdir_fault := None;
     readdir_fault := None; write_fault := None; unlink_fault := None |}.

Definition empty_world : world :=
  {| fs := empty_fs; out := []; clock_reads := 0; random_draws := 0;
     requests_sent := 0 |}.

Definition example_options (duration targets : string) : create_options :=
  {| options_duration := js duration; options_targets := js targets;
     options_name := None; options_source := js "unsplash" |}.

(** A session with one target that was revealed, as the create and
    reveal commands leave it in memory. *)
Definition revealed_session (created reveal revealedTime : Z) : RVSession :=
  {| id := js "00d1a2734414e5b0";
     name := Some (js "morning");
     targets :=
       [{| code := js "AB3D-X7K2";
           targetUrl := VString (js "https://images.example/1");
           targetDescription := VString (js "a lake");
           targetSource := js "unsplash";
           revealed := true;
           revealedAt := Some (mkDate (Num revealedTime)) |}];
     createdAt := mkDate (Num created);
     revealAt := mkDate (Num reveal);
     notes := None |}.

(** The store after that session was saved. *)
Definition revealed_world : world :=
  snd (StorageService.saveSession example_env
         (RVSession_value
            (revealed_session 1700000000000 1700003600000 1700003700000))
         empty_world).

(** A data directory that cannot be listed, and one that holds an
    unparseable file beside the saved session. *)
Definition unlistable_world : world :=
  {| fs := {| sessions_dir := true; files := files (fs revealed_world);
              mkdir_fault := None; readdir_fault := Some "EACCES"%string;
              write_fault := None; unlink_fault := None |};
     out := []; clock_reads := 0; random_draws := 0; requests_sent := 0 |}.

Definition damaged_world : world :=
  {| fs := {| sessions_dir := true;
              files := <[js "draft.json" := File Malformed]> (files (fs revealed_world));
              mkdir_fault := None; readdir_fault := None;
              write_fault := None; unlink_fault := None |};
     out := []; clock_reads := 0; random_draws := 0; requests_sent := 0 |}.

(** A later session whose target is still hidden, and the store that
    holds it beside the revealed one. *)
Definition pending_session : RVSession :=
  {| id := js "8f3c5a7e9b1d2f40";
     name := None;
     targets :=
       [{| code := js "QW9E-RT5Y";
           targetUrl := VString (js "https://images.example/2");
           targetDescription := VString (js "a bridge");
           targetSource := js "unsplash";
           revealed := false;
           revealedAt := None |}];
     createdAt := mkDate (Num 1700000500000);
     revealAt := mkDate (Num 1700004100000);
     notes := None |}.

Definition two_sessions_world : world :=
  snd (StorageService.saveSession example_env (RVSession_value pending_session)
         revealed_world).

(** The environment in which the third request to Unsplash fails. *)
Definition failing_env : environment :=
  {| plat := plat example_env; clock := clock example_env;
     entropy := entropy example_env;
     responses := fun k => if (k <? 2)%nat then Ok example_photo
                           else Throw (AxiosError "Network Error");
     prompt_answer := Ok false;
     UNSPLASH_ACCESS_KEY := Some (js "key");
     Date_toString := Date_toString example_env |}.

(** A data directory that cannot be created, one whose session file
    cannot be read, and one that holds the pending session but takes no
    writing. *)
Definition uncreatable_world : world :=
  {| fs := {| sessions_dir := false; files := ∅;
              mkdir_fault := Some "EACCES"%string; readdir_fault := None;
              write_fault := None; unlink_fault := None |};
     out := []; clock_reads := 0; random_draws := 0; requests_sent := 0 |}.

Definition unreadable_world : world :=
  {| fs := {| sessions_dir := true;
              files := <[js "00d1a2734414e5b0.json" := Unreadable "EACCES"]>
                         (files (fs revealed_world));
              mkdir_fault := None; readdir_fault := None;
              write_fault := None; unlink_fault := None |};
     out := []; clock_reads := 0; random_draws := 0; requests_sent := 0 |}.

Definition read_only_world : world :=
  {| fs := {| sessions_dir := true; files := files (fs two_sessions_world);
              mkdir_fault := None; readdir_fault := None;
              write_fault := Some "EROFS"%string; unlink_fault := None |};
     out := []; clock_reads := 0; random_draws := 0; requests_sent := 0 |}.

(** The environment in which every request to Unsplash fails. *)
Definition offline_env : environment :=
  {| plat := plat example_env; clock := clock example_env;
     entropy := entropy example_env;
     responses := fun _ => Throw (AxiosError "Network Error");
     prompt_answer := Ok false;
     UNSPLASH_ACCESS_KEY := Some (js "key");
     Date_toString := Date_toString example_env |}.

End Examples.

(* ================================================================== *)
(** * Part II: properties                                              *)
(* ================================================================== *)

(** ** Unicode uppercase mapping *)

Module JsStringFacts.
Import JsString JsStringAux.

Lemma special_uppercase_settled :
  forallb special_settled special_uppercase = true.
Proof. vm_compute. reflexivity. Qed.

Lemma simple_uppercase_settled :
  forallb range_settled simple_uppercase_ranges = true.
Proof. vm_compute. reflexivity. Qed.

Lemma in_range_member cp lo hi stride delta :
  0 < stride ->
  in_uppercase_range cp (lo, hi, stride, delta) = true ->
  In cp (range_members (lo, hi, stride, delta)).
Proof.
  intros Hs H. unfold in_uppercase_range in H.
  apply andb_prop in H as [H Hm]. apply andb_prop in H as [Hlo Hhi].
  apply Z.leb_le in Hlo, Hhi. apply Z.eqb_eq in Hm.
  unfold range_members. apply in_map_iff.
  exists (Z.to_nat ((cp - lo) / stride)).
  assert (Hq : 0 <= (cp - lo) / stride) by (apply Z.div_pos; lia).
  assert (Hle : (cp - lo) / stride <= (hi - lo) / stride)
    by (apply Z.div_le_mono; lia).
  split.
  - rewrite Z2Nat.id by lia.
    pose proof (Z.div_mod (cp - lo) stride ltac:(lia)). lia.
  - apply in_seq. lia.
Qed.

Lemma toUppercase_cases cp :
  toUppercase cp = [cp] \/
  (toUppercase cp <> [] /\ Forall (fun x => settled x = true) (toUppercase cp)).
Proof.
  unfold toUppercase.
  destruct (List.find _ special_uppercase) as [[k l]|] eqn:Hsp.
  - right. apply find_some in Hsp as [Hin _].
    pose proof special_uppercase_settled as H.
    rewrite forallb_forall in H. specialize (H _ Hin).
    unfold special_settled in H. simpl in H.
    destruct l as [|x l]; [discriminate|].
    split; [discriminate|].
    apply List.Forall_forall. intros y Hy.
    rewrite forallb_forall in H. auto.
  - destruct (List.find _ simple_uppercase_ranges) as [[[[lo hi] st] d]|] eqn:Hr.
    + right. apply find_some in Hr as [Hin Hmem].
      pose proof simple_uppercase_settled as H.
      rewrite forallb_forall in H. specialize (H _ Hin).
      unfold range_settled in H. apply andb_prop in H as [Hst H].
      apply Z.ltb_lt in Hst.
      split; [discriminate|].
      constructor; [|constructor].
      rewrite forallb_forall in H. apply H.
      apply in_range_member; assumption.
    + left. reflexivity.
Qed.

Lemma settled_fixed x : settled x = true -> toUppercase x = [x].
Proof.
  unfold settled. intros H.
  repeat (apply andb_prop in H as [H _]).
  destruct (toUppercase x) as [|y [|z l]]; try discriminate.
  apply Z.eqb_eq in H. subst. reflexivity.
Qed.

Lemma settled_not_surrogate x :
  settled x = true -> is_high_surrogate x = false /\ is_low_surrogate x = false.
Proof.
  unfold settled. intros H.
  apply andb_prop in H as [H _]. apply andb_prop in H as [H Hl].
  apply andb_prop in H as [_ Hh].
  split; [destruct (is_high_surrogate x) | destruct (is_low_surrogate x)];
    simpl in *; congruence.
Qed.

Lemma settled_not_hyphen x : settled x = true -> x <> HYPHEN.
Proof.
  unfold settled. intros H. apply andb_prop in H as [_ H].
  intros ->. discriminate.
Qed.

Lemma toUppercase_nonempty cp : toUppercase cp <> [].
Proof.
  destruct (toUppercase_cases cp) as [H|[H _]]; [rewrite H; discriminate|exact H].
Qed.

(** The mapping is idempotent on code points. *)
Lemma toUppercase_idempotent cp :
  flat_map toUppercase (toUppercase cp) = toUppercase cp.
Proof.
  destruct (toUppercase_cases cp) as [H|[_ H]].
  - rewrite H. simpl. rewrite H. reflexivity.
  - induction H as [|x l Hx _ IH]; [reflexivity|].
    simpl. rewrite (settled_fixed _ Hx), IH. reflexivity.
Qed.

Lemma flat_map_toUppercase_idempotent cps :
  flat_map toUppercase (flat_map toUppercase cps) = flat_map toUppercase cps.
Proof.
  induction cps as [|cp cps IH]; [reflexivity|].
  simpl. rewrite flat_map_app, toUppercase_idempotent, IH. reflexivity.
Qed.

(** *** Surrogate pairs *)

Lemma pair_code_point_range c d :
  is_high_surrogate c = true -> is_low_surrogate d = true ->
  0x10000 <= UTF16SurrogatePairToCodePoint c d <= 0x10FFFF.
Proof.
  unfold is_high_surrogate, is_low_surrogate, UTF16SurrogatePairToCodePoint.
  intros H1 H2. apply andb_prop in H1 as [? ?], H2 as [? ?]. lia.
Qed.

Lemma astral_not_surrogate cp :
  0x10000 <= cp -> is_high_surrogate cp = false /\ is_low_surrogate cp = false.
Proof.
  unfold is_high_surrogate, is_low_surrogate. intros H.
  split; apply andb_false_iff; right; apply Z.leb_gt; lia.
Qed.

Lemma StringToCodePoints_pair c d rest :
  is_high_surrogate c && is_low_surrogate d = true ->
  StringToCodePoints (c :: d :: rest)
  = UTF16SurrogatePairToCodePoint c d :: StringToCodePoints rest.
Proof. intros H. simpl. rewrite H. reflexivity. Qed.

Lemma StringToCodePoints_single c d rest :
  is_high_surrogate c && is_low_surrogate d = false ->
  StringToCodePoints (c :: d :: rest) = c :: StringToCodePoints (d :: rest).
Proof. intros H. cbn [StringToCodePoints]. rewrite H. reflexivity. Qed.

(** Induction along the way [StringToCodePoints] reads a string. *)
Lemma code_points_ind (P : jsstring -> Prop) :
  P [] ->
  (forall c, P [c]) ->
  (forall c d rest,
      is_high_surrogate c && is_low_surrogate d = true ->
      P rest -> P (c :: d :: rest)) ->
  (forall c d rest,
      is_high_surrogate c && is_low_surrogate d = false ->
      P (d :: rest) -> P (c :: d :: rest)) ->
  forall s, P s.
Proof.
  intros Hnil Hone Hpair Hsingle.
  assert (H : forall n s, (List.length s <= n)%nat -> P s).
  { induction n as [|n IH]; intros s Hlen.
    - destruct s; [exact Hnil | simpl in Hlen; lia].
    - destruct s as [|c [|d rest]]; [exact Hnil | apply Hone |].
      simpl in Hlen.
      destruct (is_high_surrogate c && is_low_surrogate d) eqn:E.
      + apply Hpair; [exact E | apply IH; lia].
      + apply Hsingle; [exact E | apply IH; simpl; lia]. }
  intros s. apply (H (List.length s)). lia.
Qed.

Lemma first_low_code_points d rest :
  first_low (StringToCodePoints (d :: rest)) = true -> is_low_surrogate d = true.
Proof.
  destruct rest as [|e rest]; [simpl; auto|].
  destruct (is_high_surrogate d && is_low_surrogate e) eqn:E.
  - rewrite StringToCodePoints_pair by exact E. simpl.
    apply andb_prop in E as [E1 E2].
    pose proof (pair_code_point_range _ _ E1 E2) as [Hlo _].
    destruct (astral_not_surrogate _ Hlo) as [_ Hn]. congruence.
  - rewrite StringToCodePoints_single by exact E. simpl. auto.
Qed.

Lemma no_split_pair_cons c l :
  no_split_pair (c :: l)
  = negb (is_high_surrogate c && first_low l) && no_split_pair l.
Proof.
  destruct l as [|d l]; simpl; [rewrite andb_false_r|]; reflexivity.
Qed.

Lemma StringToCodePoints_no_split s :
  no_split_pair (StringToCodePoints s) = true.
Proof.
  induction s as [| c | c d rest E IH | c d rest E IH] using code_points_ind.
  - reflexivity.
  - reflexivity.
  - rewrite StringToCodePoints_pair by exact E.
    rewrite no_split_pair_cons, IH.
    apply andb_prop in E as [E1 E2].
    pose proof (pair_code_point_range _ _ E1 E2) as [Hlo _].
    destruct (astral_not_surrogate _ Hlo) as [Hn _]. rewrite Hn. reflexivity.
  - rewrite StringToCodePoints_single by exact E.
    rewrite no_split_pair_cons, IH, andb_true_r.
    apply negb_true_iff, andb_false_iff.
    destruct (is_high_surrogate c); [right|left; reflexivity].
    destruct (first_low (StringToCodePoints (d :: rest))) eqn:F; [|reflexivity].
    apply first_low_code_points in F. simpl in E. congruence.
Qed.

Lemma encode_astral cp :
  0x10000 <= cp <= 0x10FFFF ->
  exists h l, UTF16EncodeCodePoint cp = [h; l] /\
              is_high_surrogate h = true /\ is_low_surrogate l = true /\
              UTF16SurrogatePairToCodePoint h l = cp.
Proof.
  intros [H1 H2]. unfold UTF16EncodeCodePoint.
  replace ((0x10000 <=? cp) && (cp <=? 0x10FFFF)) with true
    by (symmetry; apply andb_true_iff; split; apply Z.leb_le; lia).
  eexists _, _. split; [reflexivity|].
  pose proof (Z.div_mod (cp - 0x10000) 0x400 ltac:(lia)) as Hdm.
  pose proof (Z.mod_pos_bound (cp - 0x10000) 0x400 ltac:(lia)) as Hm.
  assert (0 <= (cp - 0x10000) / 0x400 <= 0x3FF).
  { split; [apply Z.div_pos; lia|].
    apply Z.lt_succ_r, Z.div_lt_upper_bound; lia. }
  unfold is_high_surrogate, is_low_surrogate, UTF16SurrogatePairToCodePoint.
  repeat split; try (apply andb_true_iff; split; apply Z.leb_le; lia); lia.
Qed.

Lemma encode_other cp :
  (0x10000 <=? cp) && (cp <=? 0x10FFFF) = false ->
  UTF16EncodeCodePoint cp = [cp].
Proof. intros H. unfold UTF16EncodeCodePoint. rewrite H. reflexivity. Qed.

Lemma first_low_encode cps :
  first_low (CodePointsToString cps) = first_low cps.
Proof.
  destruct cps as [|cp cps]; [reflexivity|].
  unfold CodePointsToString. simpl.
  destruct ((0x10000 <=? cp) && (cp <=? 0x10FFFF)) eqn:E.
  - apply andb_prop in E as [E1 E2]. apply Z.leb_le in E1, E2.
    destruct (encode_astral cp (conj E1 E2)) as (h & l & -> & Hh & _ & _).
    simpl. destruct (astral_not_surrogate cp E1) as [_ ->].
    unfold is_high_surrogate, is_low_surrogate in *.
    apply andb_prop in Hh as [_ Hh]. apply Z.leb_le in Hh.
    apply andb_false_iff. left. apply Z.leb_gt. lia.
  - rewrite encode_other by exact E. reflexivity.
Qed.

(** Reading back what was encoded gives the same code points. *)
Lemma StringToCodePoints_encode cps :
  no_split_pair cps = true ->
  StringToCodePoints (CodePointsToString cps) = cps.
Proof.
  induction cps as [|cp cps IH]; [reflexivity|].
  rewrite no_split_pair_cons. intros H. apply andb_prop in H as [Hb Hrest].
  specialize (IH Hrest).
  change (CodePointsToString (cp :: cps))
    with (UTF16EncodeCodePoint cp ++ CodePointsToString cps).
  destruct ((0x10000 <=? cp) && (cp <=? 0x10FFFF)) eqn:E.
  - apply andb_prop in E as [E1 E2]. apply Z.leb_le in E1, E2.
    destruct (encode_astral cp (conj E1 E2)) as (h & l & -> & Hh & Hl & Hp).
    simpl app. rewrite StringToCodePoints_pair by (rewrite Hh, Hl; reflexivity).
    rewrite Hp, IH. reflexivity.
  - rewrite encode_other by exact E. simpl app.
    destruct (CodePointsToString cps) as [|w rest] eqn:Hw.
    + simpl in IH. subst cps. reflexivity.
    + rewrite StringToCodePoints_single, IH; [reflexivity|].
      apply negb_true_iff in Hb.
      rewrite <- first_low_encode, Hw in Hb. exact Hb.
Qed.

(** *** The mapping keeps surrogates apart *)

Lemma settled_list_no_high l :
  Forall (fun x => settled x = true) l ->
  no_split_pair l = true /\ last_high l = false /\ first_low l = false.
Proof.
  induction 1 as [|x l Hx Hl (IH1 & IH2 & IH3)]; [auto|].
  destruct (settled_not_surrogate _ Hx) as [Hh Hlow].
  rewrite no_split_pair_cons, Hh, IH1. simpl first_low. rewrite Hlow.
  repeat split; try reflexivity.
  destruct l; [exact Hh | exact IH2].
Qed.

Lemma toUppercase_boundaries cp :
  no_split_pair (toUppercase cp) = true /\
  (last_high (toUppercase cp) = true ->
     toUppercase cp = [cp] /\ is_high_surrogate cp = true) /\
  (first_low (toUppercase cp) = true ->
     toUppercase cp = [cp] /\ is_low_surrogate cp = true).
Proof.
  destruct (toUppercase_cases cp) as [H|[_ H]].
  - rewrite H. simpl. auto.
  - apply settled_list_no_high in H as (H1 & H2 & H3).
    rewrite H1, H2, H3. repeat split; discriminate.
Qed.

Lemma no_split_pair_app l1 l2 :
  no_split_pair l1 = true -> no_split_pair l2 = true ->
  last_high l1 && first_low l2 = false ->
  no_split_pair (l1 ++ l2) = true.
Proof.
  induction l1 as [|x l1 IH]; [auto|].
  intros H1 H2 Hb. rewrite no_split_pair_cons in H1.
  apply andb_prop in H1 as [Hx H1].
  change ((x :: l1) ++ l2) with (x :: (l1 ++ l2)).
  rewrite no_split_pair_cons.
  destruct l1 as [|y l1].
  - simpl in *. rewrite H2, andb_true_r. apply negb_true_iff. exact Hb.
  - rewrite IH; [| exact H1 | exact H2 | exact Hb].
    simpl in *. rewrite andb_true_r. exact Hx.
Qed.

Lemma first_low_flat_map cps :
  first_low (flat_map toUppercase cps) = true -> first_low cps = true.
Proof.
  destruct cps as [|cp cps]; [auto|].
  simpl. destruct (toUppercase cp) as [|x l] eqn:E.
  - destruct (toUppercase_nonempty cp E).
  - simpl. intros H.
    destruct (toUppercase_boundaries cp) as (_ & _ & Hf).
    rewrite E in Hf. destruct (Hf H) as [_ Hl]. exact Hl.
Qed.

Lemma flat_map_toUppercase_no_split cps :
  no_split_pair cps = true ->
  no_split_pair (flat_map toUppercase cps) = true.
Proof.
  induction cps as [|cp cps IH]; [auto|].
  rewrite no_split_pair_cons. intros H. apply andb_prop in H as [Hb Hrest].
  simpl. destruct (toUppercase_boundaries cp) as (Hn & Hlast & _).
  apply no_split_pair_app; [exact Hn | apply IH; exact Hrest |].
  destruct (last_high (toUppercase cp)) eqn:El; [|reflexivity].
  destruct (first_low (flat_map toUppercase cps)) eqn:Ef; [|reflexivity].
  destruct (Hlast eq_refl) as [_ Hh].
  apply first_low_flat_map in Ef.
  rewrite Hh, Ef in Hb. discriminate.
Qed.

(** *** toUpperCase *)

Lemma toUpperCase_idempotent s : toUpperCase (toUpperCase s) = toUpperCase s.
Proof.
  unfold toUpperCase.
  rewrite StringToCodePoints_encode
    by (apply flat_map_toUppercase_no_split, StringToCodePoints_no_split).
  rewrite flat_map_toUppercase_idempotent. reflexivity.
Qed.

Lemma In_StringToCodePoints x s :
  In x (StringToCodePoints s) -> In x s \/ 0x10000 <= x.
Proof.
  induction s as [| c | c d rest E IH | c d rest E IH] using code_points_ind.
  - auto.
  - auto.
  - rewrite StringToCodePoints_pair by exact E. intros [<-|H].
    + right. apply andb_prop in E as [E1 E2].
      apply (pair_code_point_range _ _ E1 E2).
    + destruct (IH H) as [?|?]; [left; right; right; assumption | right; assumption].
  - rewrite StringToCodePoints_single by exact E. intros [<-|H].
    + left. left. reflexivity.
    + destruct (IH H) as [?|?]; [left; right; assumption | right; assumption].
Qed.

Lemma hyphen_toUppercase cp : In HYPHEN (toUppercase cp) -> cp = HYPHEN.
Proof.
  destruct (toUppercase_cases cp) as [H|[_ H]].
  - rewrite H. intros [->|[]]. reflexivity.
  - intros Hin. rewrite List.Forall_forall in H.
    destruct (settled_not_hyphen _ (H _ Hin) eq_refl).
Qed.

Lemma hyphen_encode cp : In HYPHEN (UTF16EncodeCodePoint cp) -> cp = HYPHEN.
Proof.
  destruct ((0x10000 <=? cp) && (cp <=? 0x10FFFF)) eqn:E.
  - apply andb_prop in E as [E1 E2]. apply Z.leb_le in E1, E2.
    destruct (encode_astral cp (conj E1 E2)) as (h & l & -> & Hh & Hl & _).
    unfold is_high_surrogate, is_low_surrogate, HYPHEN in *.
    apply andb_prop in Hh as [Hh _], Hl as [Hl _].
    apply Z.leb_le in Hh, Hl.
    intros [H|[H|[]]]; lia.
  - rewrite encode_other by exact E. intros [->|[]]. reflexivity.
Qed.

(** Upper-casing introduces no hyphen. *)
Lemma hyphen_toUpperCase s : In HYPHEN (toUpperCase s) -> In HYPHEN s.
Proof.
  unfold toUpperCase, CodePointsToString. intros H.
  apply in_flat_map in H as (u & Hu & H). apply hyphen_encode in H. subst u.
  apply in_flat_map in Hu as (t & Ht & H). apply hyphen_toUppercase in H. subst t.
  apply In_StringToCodePoints in Ht as [Ht|Ht]; [exact Ht|].
  unfold HYPHEN in Ht. lia.
Qed.

Lemma replace_hyphens_no_hyphen s : ~ In HYPHEN (replace_hyphens s).
Proof.
  unfold replace_hyphens. intros H. apply filter_In in H as [_ H].
  rewrite Z.eqb_refl in H. discriminate.
Qed.

Lemma replace_hyphens_id s : ~ In HYPHEN s -> replace_hyphens s = s.
Proof.
  unfold replace_hyphens. induction s as [|c s IH]; [reflexivity|].
  intros H. simpl. destruct (c =? HYPHEN) eqn:E.
  - apply Z.eqb_eq in E. subst. destruct H. left. reflexivity.
  - simpl. rewrite IH; [reflexivity|]. intros Hin. apply H. right. exact Hin.
Qed.

(** [includes] with a one-unit needle is membership. *)
Lemma includes_single hay c : includes hay [c] = true <-> In c hay.
Proof.
  induction hay as [|b hay IH]; simpl.
  - split; [discriminate | intros []].
  - rewrite orb_true_iff, IH, andb_true_iff, Z.eqb_eq.
    destruct hay; simpl; split; intros [H|H]; auto; try (left; symmetry; tauto);
      try (left; split; [symmetry; exact H | reflexivity]).
Qed.

End JsStringFacts.

(** ** The code scheme *)

Module CodeGeneratorFacts.
Import JsString Js CodeGenerator JsStringAux CodeGeneratorAux JsStringFacts.

Lemma ToUint8_range v : 0 <= ToUint8 v < 256.
Proof. unfold ToUint8. apply Z.mod_pos_bound. lia. Qed.

Lemma imap_const_seq {A B} (f : nat -> B) (l : list A) :
  imap (fun i _ => f i) l = List.map f (seq 0 (List.length l)).
Proof.
  revert f. induction l as [|a l IH]; intros f; [reflexivity|].
  simpl. f_equal. rewrite <- seq_shift, List.map_map.
  exact (IH (fun i => f (S i))).
Qed.

Lemma drawn_bytes_length entropy n : List.length (drawn_bytes entropy n) = n.
Proof. unfold drawn_bytes. rewrite List.length_map, length_seq. reflexivity. Qed.

Lemma drawn_bytes_lookup entropy n i :
  (i < n)%nat -> drawn_bytes entropy n !! i = Some (ToUint8 (entropy i)).
Proof.
  intros H. unfold drawn_bytes. rewrite list_lookup_fmap.
  rewrite lookup_seq_lt by exact H. reflexivity.
Qed.

(** Comparisons of a loop index with an integral number. *)
Lemma Qle_bool_inject n m : Qle_bool (inject_Z n) (inject_Z m) = (n <=? m).
Proof.
  destruct (Z.leb_spec n m) as [H|H].
  - apply Qle_bool_iff. rewrite <- Zle_Qle. exact H.
  - destruct (Qle_bool (inject_Z n) (inject_Z m)) eqn:E; [|reflexivity].
    apply Qle_bool_iff in E. rewrite <- Zle_Qle in E. lia.
Qed.

Lemma int_lt_of_int i (n : Z) : int_lt i n = (i <? n).
Proof.
  unfold int_lt, of_int. rewrite Qle_bool_inject. symmetry. apply Z.ltb_antisym.
Qed.

Lemma minus_one_of_int (n : Z) : minus_one n = DNum (inject_Z n - 1)%Q.
Proof. reflexivity. Qed.

Lemma int_lt_minus_one i (n : Z) : int_lt i (minus_one n) = (i <? n - 1).
Proof.
  unfold int_lt, minus_one, of_int.
  rewrite (Qleb_comp (inject_Z n - 1)%Q (inject_Z (n - 1))
             ltac:(unfold Z.sub; rewrite inject_Z_plus, inject_Z_opp; reflexivity)
             (inject_Z i) (inject_Z i) ltac:(reflexivity)).
  rewrite Qle_bool_inject. symmetry. apply Z.ltb_antisym.
Qed.

Lemma int_eq_minus_one i (n : Z) : int_eq i (minus_one n) = (i =? n - 1).
Proof.
  unfold int_eq, minus_one, of_int.
  rewrite (Qeqb_comp (inject_Z i) (inject_Z i) ltac:(reflexivity)
             (inject_Z n - 1)%Q (inject_Z (n - 1))
             ltac:(unfold Z.sub; rewrite inject_Z_plus, inject_Z_opp; reflexivity)).
  destruct (Z.eqb_spec i (n - 1)) as [->|Hne].
  - apply Qeq_bool_refl.
  - destruct (Qeq_bool (inject_Z i) (inject_Z (n - 1))) eqn:E; [|reflexivity].
    apply Qeq_bool_eq in E. rewrite inject_Z_injective in E. contradiction.
Qed.

Lemma ToIntegerOrInfinity_of_int (n : Z) : ToIntegerOrInfinity n = Some n.
Proof.
  unfold ToIntegerOrInfinity, of_int.
  destruct (Qle_bool 0 (inject_Z n)); [rewrite Qfloor_Z | rewrite Qceiling_Z];
    reflexivity.
Qed.

Lemma new_Uint8Array_of_int (n : Z) :
  new_Uint8Array n
  = if (n <? 0) || (9007199254740991 <? n) then Throw RangeError
    else Ok (List.repeat 0 (Z.to_nat n)).
Proof. unfold new_Uint8Array. rewrite ToIntegerOrInfinity_of_int. reflexivity. Qed.

Lemma randomBytes_of_int entropy (n : Z) :
  randomBytes entropy n
  = if (n <? 0) || (2147483647 <? n) then Throw RangeError
    else Ok (drawn_bytes entropy (Z.to_nat n)).
Proof.
  unfold randomBytes, of_int. change 0%Q with (inject_Z 0).
  rewrite !Qle_bool_inject, Qfloor_Z, <- !Z.ltb_antisym. reflexivity.
Qed.

(** The copying loop of the fallback branch leaves the drawn bytes. *)
Lemma copy_bytes_spec entropy n fuel i bytes :
  (n - i <= fuel)%nat -> (i <= n)%nat -> List.length bytes = n ->
  copy_bytes (drawn_bytes entropy n) (Z.of_nat n) fuel (Z.of_nat i) bytes
  = take i bytes ++ drop i (drawn_bytes entropy n).
Proof.
  assert (Hend : forall bytes, List.length bytes = n ->
            bytes = take n bytes ++ drop n (drawn_bytes entropy n)).
  { intros b Hlen. rewrite <- Hlen at 1. rewrite firstn_all.
    rewrite drop_ge by (rewrite drawn_bytes_length; lia).
    rewrite app_nil_r. reflexivity. }
  revert i bytes. induction fuel as [|fuel IH]; intros i bytes Hn Hi Hlen.
  - simpl. replace i with n by lia. apply Hend, Hlen.
  - cbn [copy_bytes]. rewrite int_lt_of_int.
    destruct (Z.ltb_spec (Z.of_nat i) (Z.of_nat n)) as [Hlt|Hge];
      [|replace i with n by lia; apply Hend, Hlen].
    rewrite Nat2Z.id, drawn_bytes_lookup by lia.
    replace (Z.of_nat i + 1) with (Z.of_nat (S i)) by lia.
    rewrite IH by (rewrite ?length_insert; lia).
    rewrite (take_S_r _ _ (ToUint8 (ToUint8 (entropy i))))
      by (apply list_lookup_insert_eq; lia).
    rewrite take_insert_ge by lia.
    rewrite (drop_S (drawn_bytes entropy n) (ToUint8 (entropy i)) i)
      by (apply drawn_bytes_lookup; lia).
    rewrite <- app_assoc. simpl.
    replace (ToUint8 (ToUint8 (entropy i))) with (ToUint8 (entropy i))
      by (unfold ToUint8; rewrite Z.mod_mod by lia; reflexivity).
    reflexivity.
Qed.

(** Whatever the branch, a successful draw fills the array with
    [drawn_bytes]. *)
Lemma generateCode_unfold p entropy (length : Z) separator separatorPosition code :
  generateCode p entropy length separator separatorPosition = Ok code ->
  0 <= length /\
  code = generate_loop (drawn_bytes entropy (Z.to_nat length)) length separator
           separatorPosition (S (Z.to_nat length)) 0 [].
Proof.
  unfold generateCode. rewrite new_Uint8Array_of_int.
  destruct (length <? 0) eqn:Hneg; [discriminate|].
  destruct (9007199254740991 <? length); [discriminate|]. cbn [orb].
  apply Z.ltb_ge in Hneg. cbv zeta. rewrite repeat_length.
  remember (S (Z.to_nat length)) as turns eqn:Hturns.
  destruct (has_web_crypto p).
  - unfold getRandomValues. destruct (65536 <? _); [discriminate|].
    intros [= <-]. split; [exact Hneg|].
    rewrite (imap_const_seq (fun i => ToUint8 (entropy i))), repeat_length.
    reflexivity.
  - rewrite randomBytes_of_int. rewrite (proj2 (Z.ltb_ge _ _) Hneg).
    destruct (2147483647 <? length); [discriminate|].
    cbn [orb]. intros [= <-]. split; [exact Hneg|].
    pose proof (copy_bytes_spec entropy (Z.to_nat length) turns 0
                  (List.repeat 0 (Z.to_nat length)) ltac:(lia)
                  ltac:(lia) (repeat_length _ _)) as H.
    rewrite Z2Nat.id in H by exact Hneg.
    change (Z.of_nat 0) with 0 in H.
    rewrite H. reflexivity.
Qed.

Lemma CROCKFORD_ALPHABET_length : List.length CROCKFORD_ALPHABET = 32%nat.
Proof. reflexivity. Qed.

Lemma symbol_text_drawn entropy i :
  symbol_text (symbol_index (Some (ToUint8 (entropy i)))) = [drawn_symbol entropy i].
Proof.
  unfold symbol_index, symbol_text, drawn_symbol.
  rewrite CROCKFORD_ALPHABET_length.
  pose proof (ToUint8_range (entropy i)) as Hb.
  rewrite Z.rem_mod_nonneg by lia.
  change (Z.of_nat 32) with 32.
  pose proof (Z.mod_pos_bound (ToUint8 (entropy i)) 32 ltac:(lia)) as Hm.
  replace (_ <? 0) with false by (symmetry; apply Z.ltb_ge; lia).
  destruct (CROCKFORD_ALPHABET !! _) as [c|] eqn:E.
  - rewrite (nth_lookup_Some _ _ 0 _ E). reflexivity.
  - apply lookup_ge_None in E. rewrite CROCKFORD_ALPHABET_length in E. lia.
Qed.

Lemma generate_loop_spec entropy (length : Z) separator (separatorPosition : Z)
    fuel i code :
  (Z.to_nat length - i <= fuel)%nat -> (i <= Z.to_nat length)%nat -> 0 <= length ->
  generate_loop (drawn_bytes entropy (Z.to_nat length)) length separator
    separatorPosition fuel (Z.of_nat i) code
  = code ++ flat_map (loop_piece entropy length separator separatorPosition)
              (seq i (Z.to_nat length - i)).
Proof.
  revert i code. induction fuel as [|fuel IH]; intros i code Hn Hi Hlen.
  - simpl. replace (Z.to_nat length - i)%nat with O by lia.
    simpl. rewrite app_nil_r. reflexivity.
  - cbn [generate_loop]. rewrite int_lt_of_int, int_eq_minus_one, int_lt_minus_one.
    destruct (Z.ltb_spec (Z.of_nat i) length) as [Hlt|Hge].
    + unfold byte_at.
      replace (Z.of_nat i <? 0) with false by (symmetry; apply Z.ltb_ge; lia).
      rewrite Nat2Z.id, drawn_bytes_lookup by lia.
      rewrite symbol_text_drawn.
      replace (Z.of_nat i + 1) with (Z.of_nat (S i)) by lia.
      rewrite IH by lia.
      replace (Z.to_nat length - i)%nat with (S (Z.to_nat length - S i)) by lia.
      cbn [seq flat_map]. unfold loop_piece at 2.
      destruct ((Z.of_nat i =? separatorPosition - 1) && (Z.of_nat i <? length - 1));
        rewrite <- ?app_assoc; reflexivity.
    + replace (Z.to_nat length - i)%nat with O by lia.
      simpl. rewrite app_nil_r. reflexivity.
Qed.

Lemma flat_map_loop_piece_plain entropy length separator separatorPosition l :
  (forall i, In i l ->
     (Z.of_nat i =? separatorPosition - 1) && (Z.of_nat i <? length - 1) = false) ->
  flat_map (loop_piece entropy length separator separatorPosition) l
  = List.map (drawn_symbol entropy) l.
Proof.
  induction l as [|i l IH]; intros H; [reflexivity|].
  cbn [flat_map List.map].
  rewrite IH by (intros j Hj; apply H; right; exact Hj).
  unfold loop_piece. rewrite (H i) by (left; reflexivity). reflexivity.
Qed.

(** The code is the drawn symbols, with the separator after the symbol
    at [separatorPosition] exactly when 1 <= separatorPosition < length. *)
Lemma generateCode_shape p entropy (length : Z) separator (separatorPosition : Z)
    code :
  generateCode p entropy length separator separatorPosition = Ok code ->
  code = if (1 <=? separatorPosition) && (separatorPosition <? length)
         then with_separator_after (drawn_symbols entropy length) separator
                separatorPosition
         else drawn_symbols entropy length.
Proof.
  intros H. apply generateCode_unfold in H as [Hlen ->].
  pose proof (generate_loop_spec entropy length separator separatorPosition
                (S (Z.to_nat length)) 0 [] ltac:(lia) ltac:(lia) Hlen) as Hloop.
  change (Z.of_nat 0) with 0 in Hloop. rewrite Hloop, Nat.sub_0_r. clear Hloop.
  simpl app.
  destruct ((1 <=? separatorPosition) && (separatorPosition <? length)) eqn:E.
  - apply andb_prop in E as [E1 E2]. apply Z.leb_le in E1. apply Z.ltb_lt in E2.
    unfold with_separator_after, drawn_symbols.
    set (k := Z.to_nat separatorPosition).
    set (n := Z.to_nat length).
    assert (Hk : (1 <= k < n)%nat) by (subst k n; lia).
    replace n with ((k - 1) + (1 + (n - k)))%nat at 1 by lia.
    rewrite seq_app, flat_map_app. simpl seq. simpl flat_map.
    rewrite !flat_map_loop_piece_plain.
    + unfold loop_piece.
      replace ((Z.of_nat (k - 1) =? separatorPosition - 1)
               && (Z.of_nat (k - 1) <? length - 1)) with true
        by (symmetry; apply andb_true_iff; split;
            [apply Z.eqb_eq | apply Z.ltb_lt]; subst k; lia).
      rewrite List.firstn_map, List.skipn_map, take_seq, drop_seq.
      replace (Nat.min k n) with ((k - 1) + 1)%nat by lia.
      rewrite seq_app, List.map_app, <- app_assoc.
      replace (S (k - 1)) with (0 + k)%nat by lia. reflexivity.
    + intros i Hi. apply in_seq in Hi.
      apply andb_false_iff. left. apply Z.eqb_neq. subst k. lia.
    + intros i Hi. apply in_seq in Hi.
      apply andb_false_iff. left. apply Z.eqb_neq. subst k. lia.
  - unfold drawn_symbols. apply flat_map_loop_piece_plain.
    intros i Hi. apply in_seq in Hi. apply andb_false_iff.
    apply andb_false_iff in E as [E|E].
    + left. apply Z.eqb_neq. apply Z.leb_gt in E. lia.
    + apply Z.ltb_ge in E.
      destruct (Z.of_nat i =? separatorPosition - 1) eqn:Ei; [|left; reflexivity].
      right. apply Z.eqb_eq in Ei. apply Z.ltb_ge. lia.
Qed.

(** The alphabet is the 32 symbols the specification names. *)
Lemma CROCKFORD_ALPHABET_spec c :
  In c CROCKFORD_ALPHABET <-> is_crockford_symbol c = true.
Proof.
  split.
  - intros H. vm_compute in H.
    repeat (destruct H as [<-|H]; [reflexivity|]). destruct H.
  - intros H.
    assert (Hr : 0x30 <= c <= 0x5A).
    { unfold is_crockford_symbol in H. apply orb_prop in H as [H|H].
      - apply andb_prop in H as [H1 H2]. apply Z.leb_le in H1, H2. lia.
      - apply andb_prop in H as [H _]. apply andb_prop in H as [H1 H2].
        apply Z.leb_le in H1, H2. lia. }
    assert (Hin : In (Z.to_nat (c - 0x30)) (seq 0 43)) by (apply in_seq; lia).
    assert (Hc : 0x30 + Z.of_nat (Z.to_nat (c - 0x30)) = c)
      by (rewrite Z2Nat.id; lia).
    clear Hr.
    assert (Hall : forallb (fun k => implb (is_crockford_symbol (0x30 + Z.of_nat k))
                      (existsb (Z.eqb (0x30 + Z.of_nat k)) CROCKFORD_ALPHABET))
                     (seq 0 43) = true) by (vm_compute; reflexivity).
    rewrite forallb_forall in Hall.
    specialize (Hall _ Hin). rewrite Hc, H in Hall. cbn [implb] in Hall.
    apply existsb_exists in Hall as (x & Hx & Heq).
    apply Z.eqb_eq in Heq. subst x. exact Hx.
Qed.

Lemma distinct_NoDup l : distinct l = true -> List.NoDup l.
Proof.
  induction l as [|x l IH]; simpl; intros H; constructor.
  - apply andb_prop in H as [H _]. apply negb_true_iff in H.
    intros Hin. assert (existsb (Z.eqb x) l = true); [|congruence].
    apply existsb_exists. exists x. split; [exact Hin | apply Z.eqb_refl].
  - apply andb_prop in H as [_ H]. auto.
Qed.

Lemma CROCKFORD_ALPHABET_NoDup : List.NoDup CROCKFORD_ALPHABET.
Proof. apply distinct_NoDup. vm_compute. reflexivity. Qed.

Lemma drawn_symbol_in_alphabet entropy i :
  In (drawn_symbol entropy i) CROCKFORD_ALPHABET.
Proof.
  unfold drawn_symbol. apply nth_In. rewrite CROCKFORD_ALPHABET_length.
  pose proof (Z.mod_pos_bound (ToUint8 (entropy i)) 32 ltac:(lia)). lia.
Qed.

Lemma drawn_symbols_in_alphabet entropy length :
  Forall (fun c => In c CROCKFORD_ALPHABET) (drawn_symbols entropy length).
Proof.
  unfold drawn_symbols. apply List.Forall_forall. intros c Hc.
  apply in_map_iff in Hc as (i & <- & _). apply drawn_symbol_in_alphabet.
Qed.

Lemma drawn_symbols_length entropy length :
  List.length (drawn_symbols entropy length) = Z.to_nat length.
Proof. unfold drawn_symbols. rewrite List.length_map, length_seq. reflexivity. Qed.

Lemma In_take_inv {A} (x : A) n l : In x (take n l) -> In x l.
Proof.
  intros H. rewrite <- (firstn_skipn n l). apply in_or_app. left. exact H.
Qed.

Lemma In_drop_inv {A} (x : A) n l : In x (drop n l) -> In x l.
Proof.
  intros H. rewrite <- (firstn_skipn n l). apply in_or_app. right. exact H.
Qed.

(** [generateCode] returns for every length from 0 to 65536. *)
Lemma generateCode_returns p entropy (length : Z) separator separatorPosition :
  0 <= length <= 65536 ->
  exists code, generateCode p entropy length separator separatorPosition = Ok code.
Proof.
  intros [H1 H2]. unfold generateCode.
  rewrite new_Uint8Array_of_int, randomBytes_of_int. unfold getRandomValues.
  replace (length <? 0) with false by (symmetry; apply Z.ltb_ge; lia).
  replace (9007199254740991 <? length) with false
    by (symmetry; apply Z.ltb_ge; lia).
  cbn [orb]. rewrite repeat_length, Z2Nat.id by lia.
  replace (65536 <? length) with false by (symmetry; apply Z.ltb_ge; lia).
  replace (2147483647 <? length) with false by (symmetry; apply Z.ltb_ge; lia).
  destruct (has_web_crypto p); eexists; reflexivity.
Qed.







Lemma hyphen_not_in_alphabet : ~ In HYPHEN CROCKFORD_ALPHABET.
Proof. intros H. apply CROCKFORD_ALPHABET_spec in H. discriminate. Qed.




(** *** Normalization and validation *)

Lemma normalizeCode_fixed x : normalizeCode (normalizeCode x) = normalizeCode x.
Proof.
  unfold normalizeCode.
  rewrite (replace_hyphens_id (toUpperCase (replace_hyphens x))).
  - apply toUpperCase_idempotent.
  - intros H. apply hyphen_toUpperCase in H.
    exact (replace_hyphens_no_hyphen x H).
Qed.

Lemma validateCode_normalized x :
  validateCode x
  = forallb (fun char => includes CROCKFORD_ALPHABET char)
      (split_empty (normalizeCode x)).
Proof. reflexivity. Qed.

Lemma validateCode_Forall x :
  validateCode x = true <->
  Forall (fun c => In c CROCKFORD_ALPHABET) (toUpperCase (replace_hyphens x)).
Proof.
  unfold validateCode, split_empty.
  rewrite forallb_forall, List.Forall_forall. split.
  - intros H c Hc. apply includes_single, H, in_map_iff. exists c. auto.
  - intros H char Hchar. apply in_map_iff in Hchar as (c & <- & Hc).
    apply includes_single, H, Hc.
Qed.

(** C3: validating a normalized code gives the same answer as validating
    the code itself. *)
Theorem validateCode_normalizeCode x :
  validateCode (normalizeCode x) = validateCode x.
Proof. rewrite !validateCode_normalized, normalizeCode_fixed. reflexivity. Qed.

(** C4: [normalizeCode] is idempotent. *)
Theorem normalizeCode_idempotent x :
  normalizeCode (normalizeCode x) = normalizeCode x.
Proof. apply normalizeCode_fixed. Qed.



(** The examples of the specification and of the test suite. *)
Example validateCode_examples :
  validateCode (js "AB3D-X7K2") = true /\
  validateCode (js "ILOU-1234") = false /\
  validateCode (js "AB3DX7K2") = true /\
  validateCode (js "ab3d-x7k2") = true /\
  normalizeCode (js "ab3d-x7k2") = js "AB3DX7K2".
Proof. vm_compute. repeat split. Qed.

End CodeGeneratorFacts.

(** ** The effect monad *)

Module EffectsFacts.
Import JsString Js JsValue Effects EffectsAux.
Local Open Scope M_scope.

Lemma bind_Return_inv {A B} (m : M A) (k : A -> M B) w b w' :
  bind m k w = (Return b, w') ->
  exists a w1, m w = (Return a, w1) /\ k a w1 = (Return b, w').
Proof.
  unfold bind. destruct (m w) as [[a|e|c] w1]; intros H; try discriminate.
  exists a, w1. auto.
Qed.

Lemma bind_Return {A B} (m : M A) (k : A -> M B) w a w1 :
  m w = (Return a, w1) -> bind m k w = k a w1.
Proof. unfold bind. intros ->. reflexivity. Qed.

Lemma bind_Raise {A B} (m : M A) (k : A -> M B) w e w1 :
  m w = (Raise e, w1) -> bind m k w = (Raise e, w1).
Proof. unfold bind. intros ->. reflexivity. Qed.

Lemma lift_run {A} (r : result A) w :
  lift r w = (match r with Ok a => Return a | Throw e => Raise e end, w).
Proof. destruct r; reflexivity. Qed.

(** *** Runs that never exit *)

Lemma never_exits_ret {A} (a : A) : never_exits (ret a).
Proof. intros w c. discriminate. Qed.

Lemma never_exits_throw {A} e : never_exits (@throw A e).
Proof. intros w c. discriminate. Qed.

Lemma never_exits_lift {A} (r : result A) : never_exits (lift r).
Proof. intros w c. rewrite lift_run. destruct r; discriminate. Qed.

Lemma never_exits_emit e : never_exits (emit e).
Proof. intros w c. discriminate. Qed.

Lemma never_exits_bind {A B} (m : M A) (k : A -> M B) :
  never_exits m -> (forall a, never_exits (k a)) -> never_exits (bind m k).
Proof.
  intros Hm Hk w c. unfold bind. specialize (Hm w).
  destruct (m w) as [[a|e|c'] w1]; simpl in *.
  - apply Hk.
  - discriminate.
  - destruct (Hm c' eq_refl).
Qed.

Lemma never_exits_try_catch {A} (m : M A) (h : exn -> M A) :
  never_exits m -> (forall e, never_exits (h e)) -> never_exits (try_catch m h).
Proof.
  intros Hm Hh w c. unfold try_catch. specialize (Hm w).
  destruct (m w) as [[a|e|c'] w1]; simpl in *.
  - discriminate.
  - apply Hh.
  - destruct (Hm c' eq_refl).
Qed.

Lemma never_exits_Date_now env : never_exits (Date_now env).
Proof. intros w c. discriminate. Qed.

Lemma never_exits_draw env : never_exits (draw env).
Proof. intros w c. discriminate. Qed.

Lemma never_exits_axios_get env : never_exits (axios_get env).
Proof. intros w c. unfold axios_get. simpl. destruct (responses env _); discriminate. Qed.

Lemma never_exits_fs_mkdir : never_exits fs_mkdir.
Proof. intros w c. unfold fs_mkdir. destruct (mkdir_fault _); discriminate. Qed.

Lemma never_exits_fs_writeFile name data : never_exits (fs_writeFile name data).
Proof.
  intros w c. unfold fs_writeFile.
  destruct (write_fault _); [discriminate|]. destruct (sessions_dir _); discriminate.
Qed.

Lemma never_exits_fs_readFile name : never_exits (fs_readFile name).
Proof.
  intros w c. unfold fs_readFile. destruct (sessions_dir _); [|discriminate].
  destruct (_ !! _) as [[|]|]; discriminate.
Qed.

Lemma never_exits_fs_readdir : never_exits fs_readdir.
Proof.
  intros w c. unfold fs_readdir.
  destruct (readdir_fault _); [discriminate|]. destruct (sessions_dir _); discriminate.
Qed.

Lemma never_exits_logger_error text detail : never_exits (logger_error text detail).
Proof. apply never_exits_emit. Qed.

Lemma never_exits_logger_debug text : never_exits (logger_debug text).
Proof. apply never_exits_emit. Qed.

Lemma never_exits_console_log text values : never_exits (console_log text values).
Proof. apply never_exits_emit. Qed.

Lemma never_exits_spinner method text : never_exits (spinner method text).
Proof. apply never_exits_emit. Qed.

Create HintDb never_exits.
#[export] Hint Resolve never_exits_logger_error never_exits_logger_debug
  never_exits_console_log never_exits_spinner : never_exits.
#[export] Hint Resolve never_exits_ret never_exits_throw never_exits_lift
  never_exits_emit never_exits_Date_now never_exits_draw never_exits_axios_get
  never_exits_fs_mkdir never_exits_fs_writeFile never_exits_fs_readFile
  never_exits_fs_readdir : never_exits.

(** Goes through a monadic term, leaving what the hints do not close. *)
Ltac never_exits_step :=
  match goal with
  | |- never_exits (bind _ _) => apply never_exits_bind; [|intros]
  | |- never_exits (try_catch _ _) => apply never_exits_try_catch; [|intros]
  | |- never_exits (match ?x with _ => _ end) => destruct x
  | |- never_exits (if ?b then _ else _) => destruct b
  | |- never_exits _ => solve [auto with never_exits]
  end.

(** *** Runs that leave the stored files alone *)

Lemma same_store_refl f : same_store f f.
Proof. repeat split. Qed.

Lemma same_store_trans f g h : same_store f g -> same_store g h -> same_store f h.
Proof.
  intros (?&?&?&?&?) (?&?&?&?&?). repeat split; congruence.
Qed.

Lemma with_sessions_dir_same f : same_store (with_sessions_dir f) f.
Proof. repeat split. Qed.

Lemma with_sessions_dir_id f : sessions_dir f = true -> with_sessions_dir f = f.
Proof. destruct f. simpl. intros ->. reflexivity. Qed.

Lemma keeps_store_pure {A} (m : M A) :
  (forall w, fs (snd (m w)) = fs w) -> keeps_store m.
Proof. intros H w. rewrite H. split; [apply same_store_refl | reflexivity]. Qed.

Lemma keeps_store_ret {A} (a : A) : keeps_store (ret a).
Proof. apply keeps_store_pure. reflexivity. Qed.

Lemma keeps_store_throw {A} e : keeps_store (@throw A e).
Proof. apply keeps_store_pure. reflexivity. Qed.

Lemma keeps_store_lift {A} (r : result A) : keeps_store (lift r).
Proof. apply keeps_store_pure. intros w. rewrite lift_run. reflexivity. Qed.

Lemma keeps_store_exit {A} c : keeps_store (@process_exit A c).
Proof. apply keeps_store_pure. reflexivity. Qed.

Lemma keeps_store_emit e : keeps_store (emit e).
Proof. apply keeps_store_pure. reflexivity. Qed.

Lemma keeps_store_logger_error text detail : keeps_store (logger_error text detail).
Proof. apply keeps_store_emit. Qed.

Lemma keeps_store_logger_debug text : keeps_store (logger_debug text).
Proof. apply keeps_store_emit. Qed.

Lemma keeps_store_console_log text values : keeps_store (console_log text values).
Proof. apply keeps_store_emit. Qed.

Lemma keeps_store_Date_now env : keeps_store (Date_now env).
Proof. apply keeps_store_pure. reflexivity. Qed.

Lemma keeps_store_fs_readFile name : keeps_store (fs_readFile name).
Proof.
  apply keeps_store_pure. intros w. unfold fs_readFile.
  destruct (sessions_dir _); [|reflexivity].
  destruct (_ !! _) as [[|]|]; reflexivity.
Qed.

Lemma keeps_store_fs_readdir : keeps_store fs_readdir.
Proof.
  apply keeps_store_pure. intros w. unfold fs_readdir.
  destruct (readdir_fault _); [reflexivity|]. destruct (sessions_dir _); reflexivity.
Qed.

Lemma keeps_store_fs_mkdir : keeps_store fs_mkdir.
Proof.
  intros w. unfold fs_mkdir. destruct (mkdir_fault (fs w)) eqn:E; simpl.
  - split; [apply same_store_refl | reflexivity].
  - split.
    + unfold same_store. simpl. rewrite E. repeat split.
    + intros Hd. destruct (fs w). simpl in *. subst. reflexivity.
Qed.

Lemma keeps_store_bind {A B} (m : M A) (k : A -> M B) :
  keeps_store m -> (forall a, keeps_store (k a)) -> keeps_store (bind m k).
Proof.
  intros Hm Hk w. unfold bind. destruct (Hm w) as [H1 H2].
  destruct (m w) as [[a|e|c] w1]; simpl in *; try (split; assumption).
  destruct (Hk a w1) as [H3 H4]. split.
  - eapply same_store_trans; eassumption.
  - intros Hd. rewrite H4; [apply H2; exact Hd|]. rewrite H2; exact Hd.
Qed.

Lemma keeps_store_try_catch {A} (m : M A) (h : exn -> M A) :
  keeps_store m -> (forall e, keeps_store (h e)) -> keeps_store (try_catch m h).
Proof.
  intros Hm Hh w. unfold try_catch. destruct (Hm w) as [H1 H2].
  destruct (m w) as [[a|e|c] w1]; simpl in *; try (split; assumption).
  destruct (Hh e w1) as [H3 H4]. split.
  - eapply same_store_trans; eassumption.
  - intros Hd. rewrite H4; [apply H2; exact Hd|]. rewrite H2; exact Hd.
Qed.

Create HintDb keeps_store.
#[export] Hint Resolve keeps_store_ret keeps_store_throw keeps_store_lift
  keeps_store_exit keeps_store_emit keeps_store_logger_error
  keeps_store_logger_debug keeps_store_console_log keeps_store_Date_now
  keeps_store_fs_readFile keeps_store_fs_readdir keeps_store_fs_mkdir
  : keeps_store.

Ltac keeps_store_step :=
  match goal with
  | |- keeps_store (bind _ _) => apply keeps_store_bind; [|intros]
  | |- keeps_store (try_catch _ _) => apply keeps_store_try_catch; [|intros]
  | |- keeps_store (match ?x with _ => _ end) => destruct x
  | |- keeps_store (if ?b then _ else _) => destruct b
  | |- keeps_store _ => solve [auto with keeps_store]
  end.

(** *** What a run prints and how it exits *)

Lemma reports_weaken {A} (b : bool) (m : M A) : reports false m -> reports b m.
Proof.
  intros H w. destruct (H w) as (evs & Hout & Hexit). exists evs.
  split; [exact Hout|]. intros c Hc. destruct (Hexit c Hc) as [H1 H2].
  split; [exact H1 | intros _; apply H2; reflexivity].
Qed.

Lemma reports_quiet {A} (b : bool) (m : M A) :
  (forall w, out (snd (m w)) = out w) -> never_exits m -> reports b m.
Proof.
  intros Hout Hex w. exists []. rewrite app_nil_r. split; [apply Hout|].
  intros c Hc. destruct (Hex w c Hc).
Qed.

Lemma reports_ret {A} b (a : A) : reports b (ret a).
Proof. apply reports_quiet; [reflexivity | apply never_exits_ret]. Qed.

Lemma reports_throw {A} b e : reports b (@throw A e).
Proof. apply reports_quiet; [reflexivity | apply never_exits_throw]. Qed.

Lemma reports_lift {A} b (r : result A) : reports b (lift r).
Proof.
  apply reports_quiet; [|apply never_exits_lift].
  intros w. rewrite lift_run. reflexivity.
Qed.

Lemma reports_Date_now b env : reports b (Date_now env).
Proof. apply reports_quiet; [reflexivity | apply never_exits_Date_now]. Qed.

Lemma reports_draw b env : reports b (draw env).
Proof. apply reports_quiet; [reflexivity | apply never_exits_draw]. Qed.

Lemma reports_axios_get b env : reports b (axios_get env).
Proof. apply reports_quiet; [reflexivity | apply never_exits_axios_get]. Qed.

Lemma reports_fs_mkdir b : reports b fs_mkdir.
Proof.
  apply reports_quiet; [|apply never_exits_fs_mkdir].
  intros w. unfold fs_mkdir. destruct (mkdir_fault _); reflexivity.
Qed.

Lemma reports_fs_writeFile b name data : reports b (fs_writeFile name data).
Proof.
  apply reports_quiet; [|apply never_exits_fs_writeFile].
  intros w. unfold fs_writeFile. destruct (write_fault _); [reflexivity|].
  destruct (sessions_dir _); reflexivity.
Qed.

Lemma reports_fs_readFile b name : reports b (fs_readFile name).
Proof.
  apply reports_quiet; [|apply never_exits_fs_readFile].
  intros w. apply (f_equal out). change (snd (fs_readFile name w) = w).
  unfold fs_readFile. destruct (sessions_dir _); [|reflexivity].
  destruct (_ !! _) as [[|]|]; reflexivity.
Qed.

Lemma reports_fs_readdir b : reports b fs_readdir.
Proof.
  apply reports_quiet; [|apply never_exits_fs_readdir].
  intros w. unfold fs_readdir. destruct (readdir_fault _); [reflexivity|].
  destruct (sessions_dir _); reflexivity.
Qed.

Lemma reports_emit b e : reports b (emit e).
Proof.
  intros w. exists [e]. split; [reflexivity|]. intros c Hc. discriminate Hc.
Qed.

Lemma reports_exit {A} : reports true (@process_exit A 1).
Proof.
  intros w. exists []. rewrite app_nil_r. split; [reflexivity|].
  intros c [= <-]. split; [reflexivity | discriminate].
Qed.

Lemma reports_bind {A B} b (m : M A) (k : A -> M B) :
  reports b m -> (forall a, reports b (k a)) -> reports b (bind m k).
Proof.
  intros Hm Hk w. unfold bind. destruct (Hm w) as (evs1 & Hout1 & Hexit1).
  destruct (m w) as [[a|e|c] w1]; simpl in *.
  - destruct (Hk a w1) as (evs2 & Hout2 & Hexit2).
    exists (evs1 ++ evs2). rewrite Hout2, Hout1, app_assoc.
    split; [reflexivity|]. intros c Hc. destruct (Hexit2 c Hc) as [H1 H2].
    split; [exact H1|]. intros Hb Hnil. apply app_eq_nil in Hnil as [_ Hnil].
    exact (H2 Hb Hnil).
  - exists evs1. split; [exact Hout1 | discriminate].
  - exists evs1. split; [exact Hout1|].
    intros c0 [= <-]. apply Hexit1. reflexivity.
Qed.

(** After a message the run may exit without printing more. *)
Lemma reports_emit_bind {B} b e (k : unit -> M B) :
  reports true (k tt) -> reports b (bind (emit e) k).
Proof.
  intros Hk w. unfold bind, emit.
  match goal with |- context [k tt ?w1] => destruct (Hk w1) as (evs & Hout & Hexit) end.
  exists (e :: evs). simpl in *. rewrite Hout, <- app_assoc.
  split; [reflexivity|]. intros c Hc. destruct (Hexit c Hc) as [H1 _].
  split; [exact H1 | discriminate].
Qed.

Lemma reports_try_catch {A} b (m : M A) (h : exn -> M A) :
  reports b m -> (forall e, reports b (h e)) -> reports b (try_catch m h).
Proof.
  intros Hm Hh w. unfold try_catch. destruct (Hm w) as (evs1 & Hout1 & Hexit1).
  destruct (m w) as [[a|e|c] w1]; simpl in *.
  - exists evs1. split; [exact Hout1 | discriminate].
  - destruct (Hh e w1) as (evs2 & Hout2 & Hexit2).
    exists (evs1 ++ evs2). rewrite Hout2, Hout1, app_assoc.
    split; [reflexivity|]. intros c Hc. destruct (Hexit2 c Hc) as [H1 H2].
    split; [exact H1|]. intros Hb Hnil. apply app_eq_nil in Hnil as [_ Hnil].
    exact (H2 Hb Hnil).
  - exists evs1. split; [exact Hout1 | exact Hexit1].
Qed.

Create HintDb reports.
#[export] Hint Resolve reports_ret reports_throw reports_lift reports_Date_now
  reports_draw reports_axios_get reports_fs_mkdir reports_fs_writeFile
  reports_fs_readFile reports_fs_readdir reports_emit reports_exit : reports.

Ltac reports_step :=
  match goal with
  | |- reports _ (bind (emit _) _) => apply reports_emit_bind
  | |- reports _ (bind _ _) => apply reports_bind; [|intros]
  | |- reports _ (try_catch _ _) => apply reports_try_catch; [|intros]
  | |- reports _ (match ?x with _ => _ end) => destruct x
  | |- reports _ (if ?b then _ else _) => destruct b
  | |- reports _ _ => solve [auto with reports]
  end.

Ltac reports_unfold :=
  unfold spinner, console_log, logger_error, logger_debug.

(** *** Runs that never leave an exception uncaught *)

(** A [catch] whose handler logs and exits lets no exception through. *)
Lemma never_raises_try_catch {A} (m : M A) (h : exn -> M A) :
  (forall e, never_raises (h e)) -> never_raises (try_catch m h).
Proof.
  intros Hh w e. unfold try_catch.
  destruct (m w) as [[a|e'|c] w1]; simpl; try discriminate. apply Hh.
Qed.

Lemma never_raises_emit_bind {B} e (k : unit -> M B) :
  never_raises (k tt) -> never_raises (bind (emit e) k).
Proof. intros Hk w e'. unfold bind, emit. apply Hk. Qed.

Lemma never_raises_exit {A} c : never_raises (@process_exit A c).
Proof. intros w e. discriminate. Qed.

End EffectsFacts.

(** ** The services *)

Module ServiceFacts.
Import JsString Js JsNumber JsDate JsValue Effects EffectsAux EffectsFacts.
Import StorageService UnsplashService.
Local Open Scope M_scope.

Lemma never_exits_ensureDataDirectory : never_exits ensureDataDirectory.
Proof. unfold ensureDataDirectory. repeat never_exits_step. Qed.

Lemma never_exits_saveSession env session : never_exits (saveSession env session).
Proof.
  unfold saveSession, write_session, stringify_text.
  pose proof never_exits_ensureDataDirectory.
  repeat never_exits_step; auto.
Qed.

Lemma ensureDataDirectory_ok w :
  mkdir_fault (fs w) = None ->
  ensureDataDirectory w = (Return tt, with_fs w (with_sessions_dir (fs w))).
Proof.
  intros H. unfold ensureDataDirectory, try_catch, fs_mkdir, with_sessions_dir.
  rewrite H. reflexivity.
Qed.

Lemma ensureDataDirectory_fault w code :
  mkdir_fault (fs w) = Some code ->
  ensureDataDirectory w
  = (Raise (ErrnoException code),
     printing w [LogError "Failed to create data directory:"
                   (Some (ErrnoException code))]).
Proof.
  intros H. unfold ensureDataDirectory, try_catch, fs_mkdir. rewrite H. reflexivity.
Qed.

(** Saving an object succeeds when neither mkdir nor writeFile fails. *)
Lemma saveSession_object env props w j :
  mkdir_fault (fs w) = None -> write_fault (fs w) = None ->
  JSON_stringify (VObject props) = Some j ->
  saveSession env (VObject props) w
  = (Return tt,
     printing
       (with_fs w
          (with_file
             (getSessionPath
                (ToString env (default VUndefined (lookup_prop (js "id") props))))
             (JsonText j) (fs w)))
       [LogDebug "Session ${session.id} saved to ${filePath}"]).
Proof.
  intros Hmk Hwr Hj. destruct w as [[d f mk rd wr ul] o c r q].
  simpl in Hmk, Hwr. subst mk wr.
  unfold saveSession, write_session, bind, ensureDataDirectory, try_catch, fs_mkdir, lift, get,
    ret, stringify_text.
  cbn [fs mkdir_fault]. rewrite Hj. reflexivity.
Qed.

Lemma never_exits_fetchRandomImage env : never_exits (fetchRandomImage env).
Proof. unfold fetchRandomImage, request_image. repeat never_exits_step. Qed.

Lemma never_exits_getSession id : never_exits (getSession id).
Proof. unfold getSession, read_session, parse_text. repeat never_exits_step. Qed.

(** *** What the services print *)

Lemma reports_ensureDataDirectory b : reports b ensureDataDirectory.
Proof. unfold ensureDataDirectory. reports_unfold. repeat reports_step. Qed.

Lemma reports_saveSession b env session : reports b (saveSession env session).
Proof.
  unfold saveSession, write_session, stringify_text. reports_unfold.
  pose proof (reports_ensureDataDirectory b).
  repeat reports_step; auto.
Qed.

Lemma reports_getSession b id : reports b (getSession id).
Proof. unfold getSession, read_session, parse_text. reports_unfold. repeat reports_step. Qed.

Lemma reports_read_sessions b entries sessions :
  reports b (read_sessions entries sessions).
Proof.
  revert sessions. induction entries as [|file entries IH]; intros sessions; simpl.
  - auto with reports.
  - pose proof (reports_getSession b). repeat reports_step; auto.
Qed.

Lemma reports_getAllSessions b : reports b getAllSessions.
Proof.
  unfold getAllSessions, list_sessions. reports_unfold.
  pose proof (reports_ensureDataDirectory b).
  pose proof (reports_read_sessions b).
  repeat reports_step; auto.
Qed.

Lemma reports_fetchRandomImage b env : reports b (fetchRandomImage env).
Proof. unfold fetchRandomImage, request_image. reports_unfold. repeat reports_step. Qed.

Lemma never_exits_read_sessions entries sessions :
  never_exits (read_sessions entries sessions).
Proof.
  revert sessions. induction entries as [|file entries IH]; intros sessions; simpl.
  - auto with never_exits.
  - pose proof never_exits_getSession. repeat never_exits_step; auto.
Qed.

(** Once the directory exists, [getAllSessions] returns: what fails
    inside it is logged and answered with the empty list. *)
Lemma getAllSessions_returns w :
  mkdir_fault (fs w) = None ->
  exists l w', getAllSessions w = (Return l, w').
Proof.
  intros Hmk. unfold getAllSessions, list_sessions.
  erewrite bind_Return by (apply ensureDataDirectory_ok; exact Hmk).
  unfold try_catch.
  match goal with
  | |- context [bind ?m ?k ?w1] =>
      pose proof (never_exits_bind m k) as Hne;
      destruct (bind m k w1) as [[l|e|c] w2] eqn:Hb
  end.
  - eauto.
  - eexists _, _. reflexivity.
  - exfalso. eapply (Hne never_exits_fs_readdir); [|rewrite Hb; reflexivity].
    intros entries. apply never_exits_bind; [apply never_exits_read_sessions|].
    intros l. apply never_exits_lift.
Qed.

Lemma getAllSessions_readdir_fault w code :
  mkdir_fault (fs w) = None -> readdir_fault (fs w) = Some code ->
  getAllSessions w
  = (Return [],
     printing (with_fs w (with_sessions_dir (fs w)))
       [LogError "Failed to list sessions:" (Some (ErrnoException code))]).
Proof.
  intros Hmk Hrd. unfold getAllSessions, list_sessions.
  erewrite bind_Return by (apply ensureDataDirectory_ok; exact Hmk).
  unfold try_catch, bind at 1, fs_readdir.
  cbn [fs with_fs with_sessions_dir readdir_fault]. rewrite Hrd. reflexivity.
Qed.

Lemma getAllSessions_mkdir_fault w code :
  mkdir_fault (fs w) = Some code ->
  getAllSessions w
  = (Raise (ErrnoException code),
     printing w [LogError "Failed to create data directory:"
                   (Some (ErrnoException code))]).
Proof.
  intros Hmk. unfold getAllSessions, list_sessions.
  erewrite bind_Raise by (apply ensureDataDirectory_fault; exact Hmk).
  reflexivity.
Qed.

(** What [getSession] throws was logged first and is not ENOENT. *)
Lemma getSession_Raise id w e w' :
  getSession id w = (Raise e, w') ->
  is_ENOENT e = false /\
  exists evs, out w' = out w ++ evs ++ [LogError "Failed to read session:" (Some e)].
Proof.
  unfold getSession, read_session, try_catch.
  match goal with
  | |- context [bind ?m ?k w] =>
      assert (Hr : reports true (bind m k))
        by (unfold parse_text; repeat reports_step);
      destruct (bind m k w) as [[a|e0|c] w1] eqn:Hb
  end; try discriminate.
  destruct (is_ENOENT e0) eqn:En; [discriminate|].
  cbv [bind logger_error emit throw]. intros [= <- <-]. split; [exact En|].
  simpl. destruct (Hr w) as (evs & Hout & _). rewrite Hb in Hout. simpl in Hout.
  exists evs. rewrite Hout, app_assoc. reflexivity.
Qed.

(** What [saveSession] throws: the logged mkdir error, the logged and
    wrapped error of the write, or the TypeError of reading [session.id]. *)
Lemma saveSession_Raise env session w e w' :
  saveSession env session w = (Raise e, w') ->
  (exists code, e = ErrnoException code /\ mkdir_fault (fs w) = Some code /\
     out w' = out w ++ [LogError "Failed to create data directory:" (Some e)]) \/
  (e = TypeError /\ get session "id" = Throw TypeError /\ out w' = out w) \/
  (exists cause, e = ErrorFrom "Failed to save session" cause /\
     out w' = out w ++ [LogError "Failed to save session:" (Some cause)]).
Proof.
  unfold saveSession, write_session.
  destruct (mkdir_fault (fs w)) as [code|] eqn:Hmk.
  - erewrite bind_Raise by (apply ensureDataDirectory_fault; exact Hmk).
    intros [= <- <-]. left. exists code. auto.
  - erewrite bind_Return by (apply ensureDataDirectory_ok; exact Hmk).
    unfold bind at 1. rewrite lift_run.
    destruct (get session "id") as [id|e0] eqn:Hid.
    + unfold try_catch.
      match goal with
      | |- context [bind ?m ?k ?w1] =>
          assert (Hq : out (snd (bind m k w1)) = out w \/
                       exists x, fst (bind m k w1) = Return x);
          [|destruct (bind m k w1) as [[a|e1|c] w2] eqn:Hb]
      end.
      * unfold bind, stringify_text, fs_writeFile.
        destruct (JSON_stringify session); [|left; reflexivity].
        cbn [ret fs with_fs]. destruct (write_fault _); [left; reflexivity|].
        destruct (sessions_dir _); [right; eexists; reflexivity | left; reflexivity].
      * discriminate.
      * cbv [bind logger_error emit throw]. intros [= <- <-]. right. right.
        exists e1. split; [reflexivity|]. simpl.
        destruct Hq as [Hq|[x Hq]]; [|discriminate Hq].
        simpl in Hq. rewrite Hq. reflexivity.
      * discriminate.
    + intros [= <- <-]. right. left.
      destruct session; simpl in Hid; try discriminate Hid;
        injection Hid as <-; auto.
Qed.

Lemma testConnection_run env w :
  exists w',
    testConnection env w
    = (Return (match responses env (requests_sent w) with
               | Ok _ => true
               | Throw _ => false
               end), w') /\
    out w' = out w /\ fs w' = fs w.
Proof.
  unfold testConnection, try_catch, bind, axios_get.
  destruct (responses env (requests_sent w)); eexists; repeat split.
Qed.

(** *** Reading leaves the store as it is *)

Lemma keeps_store_ensureDataDirectory : keeps_store ensureDataDirectory.
Proof. unfold ensureDataDirectory. repeat keeps_store_step. Qed.

Lemma keeps_store_getSession id : keeps_store (getSession id).
Proof. unfold getSession, read_session, parse_text. repeat keeps_store_step. Qed.

Lemma keeps_store_read_sessions entries sessions :
  keeps_store (read_sessions entries sessions).
Proof.
  revert sessions. induction entries as [|file entries IH]; intros sessions; simpl.
  - auto with keeps_store.
  - pose proof keeps_store_getSession. repeat keeps_store_step; auto.
Qed.

Lemma keeps_store_getAllSessions : keeps_store getAllSessions.
Proof.
  unfold getAllSessions, list_sessions.
  pose proof keeps_store_ensureDataDirectory.
  pose proof keeps_store_read_sessions.
  repeat keeps_store_step; auto.
Qed.

(** *** Sessions that were read have their two dates *)

Lemma lookup_assign_eq {A} k (v : A) props :
  lookup_prop k (assign_prop k v props) = Some v.
Proof.
  induction props as [|[k' v'] props IH]; simpl.
  - rewrite decide_True by reflexivity. reflexivity.
  - destruct (decide (k' = k)) as [->|Hne]; simpl.
    + rewrite decide_True by reflexivity. reflexivity.
    + rewrite decide_False by exact Hne. exact IH.
Qed.

Lemma lookup_assign_ne {A} k k' (v : A) props :
  k <> k' -> lookup_prop k' (assign_prop k v props) = lookup_prop k' props.
Proof.
  intros Hne. induction props as [|[k0 v0] props IH]; simpl.
  - rewrite decide_False by exact Hne. reflexivity.
  - destruct (decide (k0 = k)) as [->|Hk]; simpl.
    + rewrite !decide_False by exact Hne. reflexivity.
    + destruct (decide (k0 = k')); [reflexivity | exact IH].
Qed.






Lemma sort_insert_In compare x sorted l :
  sort_insert compare x sorted = Ok l ->
  forall y, In y l -> y = x \/ In y sorted.
Proof.
  revert l. induction sorted as [|z sorted IH]; cbn [sort_insert]; intros l.
  - intros [= <-] y [<-|[]]. left. reflexivity.
  - unfold mbind, result_bind, mret, result_ret.
    destruct (compare z x) as [v|]; [|discriminate].
    destruct (number_gt v (Num 0)).
    + intros [= <-] y [<-|[<-|H]]; simpl; auto.
    + destruct (sort_insert compare x sorted) as [rest|] eqn:E; [|discriminate].
      intros [= <-] y [<-|H]; simpl; [auto|].
      destruct (IH rest eq_refl y H); auto.
Qed.



(** *** What each catch does with what its block throws *)

Lemma ensureDataDirectory_catch :
  throws_on_failure fs_mkdir ensureDataDirectory
    (fun error => [LogError "Failed to create data directory:" (Some error)])
    (fun error => error).
Proof.
  intros w. unfold ensureDataDirectory, try_catch.
  destruct (fs_mkdir w) as [[u|e|c] w1]; reflexivity.
Qed.

Lemma getSession_catch id w :
  getSession id w
  = match read_session (getSessionPath id) w with
    | (Raise e, w1) =>
        if is_ENOENT e then (Return VNull, w1)
        else (Raise e, printing w1 [LogError "Failed to read session:" (Some e)])
    | r => r
    end.
Proof.
  unfold getSession, try_catch.
  destruct (read_session (getSessionPath id) w) as [[v|e|c] w1]; try reflexivity.
  destruct (is_ENOENT e); reflexivity.
Qed.

Lemma saveSession_catch env session id w :
  mkdir_fault (fs w) = None -> get session "id" = Ok id ->
  saveSession env session w
  = match write_session (getSessionPath (ToString env id)) session
            (with_fs w (with_sessions_dir (fs w))) with
    | (Raise e, w1) =>
        (Raise (ErrorFrom "Failed to save session" e),
         printing w1 [LogError "Failed to save session:" (Some e)])
    | r => r
    end.
Proof.
  intros Hmk Hid. unfold saveSession.
  erewrite bind_Return by (apply ensureDataDirectory_ok; exact Hmk).
  erewrite bind_Return by (rewrite lift_run, Hid; reflexivity).
  unfold try_catch.
  destruct (write_session _ _ _) as [[u|e|c] w1]; reflexivity.
Qed.

Lemma saveSession_mkdir_fault env session w code :
  mkdir_fault (fs w) = Some code ->
  saveSession env session w
  = (Raise (ErrnoException code),
     printing w [LogError "Failed to create data directory:"
                   (Some (ErrnoException code))]).
Proof.
  intros Hmk. unfold saveSession.
  erewrite bind_Raise by (apply ensureDataDirectory_fault; exact Hmk).
  reflexivity.
Qed.

Lemma getAllSessions_catch w :
  mkdir_fault (fs w) = None ->
  getAllSessions w
  = match list_sessions (with_fs w (with_sessions_dir (fs w))) with
    | (Raise e, w1) =>
        (Return [], printing w1 [LogError "Failed to list sessions:" (Some e)])
    | r => r
    end.
Proof.
  intros Hmk. unfold getAllSessions.
  erewrite bind_Return by (apply ensureDataDirectory_ok; exact Hmk).
  unfold try_catch.
  destruct (list_sessions _) as [[u|e|c] w1]; reflexivity.
Qed.

Lemma deleteSession_catch id :
  throws_on_failure (unlink_session (getSessionPath id)) (deleteSession id)
    (fun error => [LogError "Failed to delete session:" (Some error)])
    (ErrorFrom "Failed to delete session").
Proof.
  intros w. unfold deleteSession, try_catch.
  destruct (unlink_session _ w) as [[u|e|c] w1]; reflexivity.
Qed.

Lemma fetchRandomImage_catch env w :
  fetchRandomImage env w
  = match request_image env w with
    | (Raise e, w1) =>
        if isAxiosError e
        then (Raise (ErrorFrom "Failed to fetch image from Unsplash" e),
              printing w1 [LogError "Unsplash API error:" (Some e)])
        else (Raise e, w1)
    | r => r
    end.
Proof.
  unfold fetchRandomImage, try_catch.
  destruct (request_image env w) as [[u|e|c] w1]; try reflexivity.
  destruct (isAxiosError e); reflexivity.
Qed.

Lemma updateSession_missing env id updates w v w1 :
  getSession id w = (Return v, w1) -> truthy v = false ->
  updateSession env id updates w = (Raise (Error "Session ${id} not found"), w1).
Proof.
  intros Hget Hv. unfold updateSession.
  erewrite bind_Return by exact Hget. cbv beta. rewrite Hv. reflexivity.
Qed.

(** The primitives of the blocks fail as the data directory says. *)
Lemma read_session_unreadable id w code :
  sessions_dir (fs w) = true ->
  files (fs w) !! getSessionPath id = Some (Unreadable code) ->
  read_session (getSessionPath id) w = (Raise (ErrnoException code), w).
Proof.
  intros Hd Hf. unfold read_session. unfold bind at 1. unfold fs_readFile.
  rewrite Hd, Hf. reflexivity.
Qed.

Lemma read_session_malformed id w :
  sessions_dir (fs w) = true ->
  files (fs w) !! getSessionPath id = Some (File Malformed) ->
  read_session (getSessionPath id) w = (Raise SyntaxError, w).
Proof.
  intros Hd Hf. unfold read_session. unfold bind at 1. unfold fs_readFile.
  rewrite Hd, Hf. reflexivity.
Qed.


End ServiceFacts.

(** ** The commands *)

Module CommandFacts.
Import JsString Js JsNumber JsDate JsValue CodeGenerator Effects Types.
Import StorageService UnsplashService Commands.
Import EffectsAux CodeGeneratorFacts EffectsFacts ServiceFacts Examples.
Local Open Scope M_scope.

Lemma never_exits_create_targets env targetCount fuel i targets :
  never_exits (create_targets env targetCount fuel i targets).
Proof.
  revert i targets. induction fuel as [|fuel IH]; intros i targets; simpl.
  - auto with never_exits.
  - pose proof (never_exits_fetchRandomImage env).
    repeat never_exits_step; auto.
Qed.

(** With the access key present, the action starts with the count check. *)
Lemma create_session_with_key env options c key :
  UNSPLASH_ACCESS_KEY env = Some (c :: key) ->
  create_session env options
  = let targetCount := parseInt10 (options_targets options) in
    let duration := parseInt10 (options_duration options) in
    if number_lt targetCount (Num 1) || number_gt targetCount (Num 10) then
      spinner "fail" "Invalid target count";;
      console_log "Target count must be between 1 and 10" [];;
      process_exit 1
    else
      let* bytes := draw env in
      let* idBytes := lift (randomBytes bytes 8) in
      let sessionId := to_hex idBytes in
      let* createdAt := Date_now env in
      let revealAt :=
        Date_of_number
          (number_add (getTime createdAt)
             (number_mul (number_mul duration (Num 60)) (Num 1000))) in
      let* targets := create_targets env targetCount (loop_fuel targetCount) 0 [] in
      let session :=
        {| id := sessionId;
           name := options_name options;
           targets := targets;
           createdAt := createdAt;
           revealAt := revealAt;
           notes := None |} in
      spinner "text" "Saving session...";;
      saveSession env (RVSession_value session);;
      ret session.
Proof. intros H. unfold create_session. rewrite H. reflexivity. Qed.

Lemma count_rejected_iff targetCount :
  number_lt targetCount (Num 1) || number_gt targetCount (Num 10) = true <->
  exists n, targetCount = Num n /\ (n < 1 \/ 10 < n).
Proof.
  destruct targetCount as [|n]; simpl.
  - split; [discriminate | intros (n & H & _); discriminate].
  - rewrite orb_true_iff, !Z.ltb_lt. split.
    + intros H. exists n. auto.
    + intros (m & [= ->] & H). exact H.
Qed.

Lemma create_session_rejected env options c key w :
  UNSPLASH_ACCESS_KEY env = Some (c :: key) ->
  number_lt (parseInt10 (options_targets options)) (Num 1)
  || number_gt (parseInt10 (options_targets options)) (Num 10) = true ->
  create_session env options w
  = (Exit 1,
     printing w [Spinner "fail" "Invalid target count";
                 Print "Target count must be between 1 and 10" []]).
Proof.
  intros Hk Hc. rewrite (create_session_with_key _ _ _ _ Hk). cbv zeta.
  rewrite Hc. unfold bind, spinner, console_log, emit, process_exit, printing.
  simpl. rewrite <- app_assoc. reflexivity.
Qed.

Lemma create_session_accepted env options c key w :
  UNSPLASH_ACCESS_KEY env = Some (c :: key) ->
  number_lt (parseInt10 (options_targets options)) (Num 1)
  || number_gt (parseInt10 (options_targets options)) (Num 10) = false ->
  forall code, fst (create_session env options w) <> Exit code.
Proof.
  intros Hk Hc. rewrite (create_session_with_key _ _ _ _ Hk). cbv zeta.
  rewrite Hc. revert w.
  pose proof (never_exits_create_targets env) as Ht.
  pose proof (never_exits_saveSession env) as Hs.
  change (never_exits
    (let* bytes := draw env in
     let* idBytes := lift (randomBytes bytes 8) in
     let* createdAt := Date_now env in
     let* targets :=
       create_targets env (parseInt10 (options_targets options))
         (loop_fuel (parseInt10 (options_targets options))) 0 [] in
     spinner "text" "Saving session...";;
     saveSession env
       (RVSession_value
          {| id := to_hex idBytes; name := options_name options;
             targets := targets; createdAt := createdAt;
             revealAt :=
               Date_of_number
                 (number_add (getTime createdAt)
                    (number_mul
                       (number_mul (parseInt10 (options_duration options)) (Num 60))
                       (Num 1000)));
             notes := None |});;
     ret {| id := to_hex idBytes; name := options_name options;
            targets := targets; createdAt := createdAt;
            revealAt :=
              Date_of_number
                (number_add (getTime createdAt)
                   (number_mul
                      (number_mul (parseInt10 (options_duration options)) (Num 60))
                      (Num 1000)));
            notes := None |})).
  repeat never_exits_step; auto.
Qed.

(** What a session returned by [create_session] is made of. *)
Lemma create_session_Return env options w s w' :
  create_session env options w = (Return s, w') ->
  number_lt (parseInt10 (options_targets options)) (Num 1)
  || number_gt (parseInt10 (options_targets options)) (Num 10) = false /\
  (exists t, createdAt s = Date_of_number (Num t)) /\
  revealAt s
  = Date_of_number
      (number_add (getTime (createdAt s))
         (number_mul (number_mul (parseInt10 (options_duration options)) (Num 60))
            (Num 1000))) /\
  name s = options_name options /\
  exists w1 w2,
    create_targets env (parseInt10 (options_targets options))
      (loop_fuel (parseInt10 (options_targets options))) 0 [] w1
    = (Return (targets s), w2).
Proof.
  intros H.
  destruct (UNSPLASH_ACCESS_KEY env) as [[|c key]|] eqn:Hk;
    try (unfold create_session in H; rewrite Hk in H; discriminate H).
  rewrite (create_session_with_key _ _ _ _ Hk) in H. cbv zeta in H.
  destruct (number_lt _ _ || number_gt _ _) eqn:Hc; [discriminate H|].
  split; [reflexivity|].
  apply bind_Return_inv in H as (bytes & w1 & _ & H).
  apply bind_Return_inv in H as (idBytes & w2 & _ & H).
  apply bind_Return_inv in H as (created & w3 & Hnow & H).
  apply bind_Return_inv in H as (ts & w4 & Hts & H).
  apply bind_Return_inv in H as (_ & w5 & _ & H).
  apply bind_Return_inv in H as (_ & w6 & _ & H).
  injection H as <- <-. simpl.
  split; [|split; [reflexivity|split; [reflexivity|eauto]]].
  unfold Date_now in Hnow. injection Hnow as <- _. eauto.
Qed.

(** With a [NaN] count the loop makes no target and the session is saved. *)
Lemma create_session_NaN env options c key w :
  UNSPLASH_ACCESS_KEY env = Some (c :: key) ->
  parseInt10 (options_targets options) = NaN ->
  mkdir_fault (fs w) = None -> write_fault (fs w) = None ->
  exists s w',
    create_session env options w = (Return s, w') /\ targets s = [] /\
    is_Some (files (fs w') !! getSessionPath (id s)).
Proof.
  intros Hk Hnan Hmk Hwr.
  rewrite (create_session_with_key _ _ _ _ Hk). cbv zeta. rewrite Hnan.
  cbn [number_lt number_gt orb loop_fuel create_targets].
  erewrite bind_Return by reflexivity. cbv beta.
  erewrite bind_Return by reflexivity. cbv beta.
  erewrite bind_Return by reflexivity. cbv beta.
  erewrite bind_Return by reflexivity. cbv beta.
  erewrite bind_Return by reflexivity. cbv beta.
  erewrite bind_Return
    by (apply saveSession_object; [exact Hmk | exact Hwr | reflexivity]).
  cbv beta. eexists _, _. split; [reflexivity|]. split; [reflexivity|].
  eexists. apply lookup_insert_eq.
Qed.

(** C10: with the access key present, the count check of the create
    command ends the run with exit code 1 exactly for the parsed counts
    below 1 or above 10.  When the parse of [--targets] gives [NaN] both
    comparisons are false: that exit is not taken and the creation goes
    on with the [NaN] count, whose loop makes no target; unless saving
    fails, a session without targets is stored and reported. *)
Theorem create_target_count_check env options c key w :
  UNSPLASH_ACCESS_KEY env = Some (c :: key) ->
  let targetCount := parseInt10 (options_targets options) in
  ((exists n, targetCount = Num n /\ (n < 1 \/ 10 < n)) <->
   create_session env options w
   = (Exit 1,
      printing w [Spinner "fail" "Invalid target count";
                  Print "Target count must be between 1 and 10" []])) /\
  ((exists n, targetCount = Num n /\ (n < 1 \/ 10 < n)) <->
   exists code, fst (create_session env options w) = Exit code) /\
  (targetCount = NaN ->
   number_lt targetCount (Num 1) = false /\
   number_gt targetCount (Num 10) = false /\
   (forall code, fst (create_session env options w) <> Exit code) /\
   (forall s w', create_session env options w = (Return s, w') -> targets s = []) /\
   (mkdir_fault (fs w) = None -> write_fault (fs w) = None ->
    (exists s w',
       create_session env options w = (Return s, w') /\ targets s = [] /\
       is_Some (files (fs w') !! getSessionPath (id s))) /\
    fst (createCommand env options w) = Return tt)).
Proof.
  intros Hk targetCount.
  pose proof (count_rejected_iff targetCount) as Hiff.
  destruct (number_lt targetCount (Num 1) || number_gt targetCount (Num 10)) eqn:Hc.
  - pose proof (create_session_rejected env options c key w Hk Hc) as Hrun.
    split; [|split].
    + split; [intros _; exact Hrun | intros _; apply Hiff; reflexivity].
    + split; [intros _; exists 1; rewrite Hrun; reflexivity
             | intros _; apply Hiff; reflexivity].
    + intros Hnan. subst targetCount. rewrite Hnan in Hc. discriminate Hc.
  - pose proof (create_session_accepted env options c key w Hk Hc) as Hrun.
    split; [|split].
    + split; [intros H; apply Hiff in H; discriminate H|].
      intros H. rewrite H in Hrun. destruct (Hrun 1 eq_refl).
    + split; [intros H; apply Hiff in H; discriminate H|].
      intros (code & H). destruct (Hrun code H).
    + intros Hnan. subst targetCount.
      split; [rewrite Hnan; reflexivity|].
      split; [rewrite Hnan; reflexivity|].
      split; [exact Hrun|].
      split.
      * intros s w' H. apply create_session_Return in H as (_ & _ & _ & _ & H).
        destruct H as (w1 & w2 & H). rewrite Hnan in H. simpl in H.
        injection H as <- _. reflexivity.
      * intros Hmk Hwr.
        split; [exact (create_session_NaN env options c key w Hk Hnan Hmk Hwr)|].
        unfold createCommand, create_action, bind at 1, spinner, emit at 1. cbn iota beta.
        unfold try_catch, bind at 1.
        match goal with
        | |- context [create_session env options ?w0] =>
            destruct (create_session_NaN env options c key w0 Hk Hnan Hmk Hwr)
              as (s & w' & -> & _ & _)
        end.
        reflexivity.
Qed.

Lemma create_target_count_check_witness :
  let w := empty_world in
  let options := example_options "60" "many" in
  let targetCount := parseInt10 (options_targets options) in
  ((exists n, targetCount = Num n /\ (n < 1 \/ 10 < n)) <->
   create_session example_env options w
   = (Exit 1,
      printing w [Spinner "fail" "Invalid target count";
                  Print "Target count must be between 1 and 10" []])) /\
  ((exists n, targetCount = Num n /\ (n < 1 \/ 10 < n)) <->
   exists code, fst (create_session example_env options w) = Exit code) /\
  (targetCount = NaN ->
   number_lt targetCount (Num 1) = false /\
   number_gt targetCount (Num 10) = false /\
   (forall code, fst (create_session example_env options w) <> Exit code) /\
   (forall s w', create_session example_env options w = (Return s, w') ->
                 targets s = []) /\
   (mkdir_fault (fs w) = None -> write_fault (fs w) = None ->
    (exists s w',
       create_session example_env options w = (Return s, w') /\ targets s = [] /\
       is_Some (files (fs w') !! getSessionPath (id s))) /\
    fst (createCommand example_env options w) = Return tt)).
Proof.
  exact (create_target_count_check example_env (example_options "60" "many")
           107 (js "ey") empty_world eq_refl).
Defined.

Example parseInt10_examples :
  parseInt10 (js "many") = NaN /\ parseInt10 (js "") = NaN /\
  parseInt10 (js "0") = Num 0 /\ parseInt10 (js "11") = Num 11 /\
  parseInt10 (js " 7 targets") = Num 7 /\ parseInt10 (js "-3") = Num (-3).
Proof. vm_compute. repeat split. Qed.




(** *** reveal *)

Lemma get_prop v k x k' : get v k = Ok x -> get v k' = Ok (prop v k').
Proof.
  unfold prop. destruct v; simpl; intros H; try discriminate H; reflexivity.
Qed.





(** *** Saving and reading back *)

(** C8, at a session with a revealed target: after [saveSession] and
    [getSession] the two dates of the session are Date objects again
    (parsed from their ISO-8601 texts), but the [revealedAt] of the target
    is the ISO-8601 text itself, not a Date: the session read back is not
    the session saved. *)
Theorem saved_target_revealedAt_read_as_text created reveal t :
  let s := revealed_session created reveal t in
  let w1 := snd (saveSession example_env (RVSession_value s) empty_world) in
  let back := returned VUndefined (getSession (id s) w1) in
  fst (saveSession example_env (RVSession_value s) empty_world) = Return tt /\
  fst (getSession (id s) w1) = Return back /\
  get back "createdAt" = Ok (VDate (mkDate (Date_parse (toISOString created)))) /\
  get back "revealAt" = Ok (VDate (mkDate (Date_parse (toISOString reveal)))) /\
  (target_at (RVSession_value s) 0 ≫= fun target => get target "revealedAt")
  = Ok (VDate (mkDate (Num t))) /\
  (target_at back 0 ≫= fun target => get target "revealedAt")
  = Ok (VString (toISOString t)) /\
  back <> RVSession_value s.
Proof.
  intros s w1 back.
  assert (Hback : (target_at back 0 ≫= fun target => get target "revealedAt")
                  = Ok (VString (toISOString t))) by reflexivity.
  repeat split; try reflexivity.
  intros Heq. rewrite Heq in Hback. discriminate Hback.
Qed.

Example saved_session_round_trip_example :
  let s := revealed_session 1700000000000 1700003600000 1700003700000 in
  let back := returned VUndefined (getSession (id s) revealed_world) in
  get back "createdAt" = Ok (VDate (createdAt s)) /\
  get back "revealAt" = Ok (VDate (revealAt s)) /\
  (target_at back 0 ≫= fun target => get target "revealedAt")
  = Ok (VString (js "2023-11-14T23:15:00.000Z")).
Proof. vm_compute. repeat split. Qed.

(** *** Failures *)

Lemma reports_create_targets b env targetCount fuel i targets :
  reports b (create_targets env targetCount fuel i targets).
Proof.
  revert b i targets. induction fuel as [|fuel IH]; intros b i targets; simpl.
  - auto with reports.
  - pose proof reports_fetchRandomImage.
    reports_unfold. repeat reports_step; auto.
Qed.

Lemma reports_create_session b env options :
  reports b (create_session env options).
Proof.
  unfold create_session, new_UnsplashService. reports_unfold.
  pose proof reports_create_targets. pose proof reports_saveSession.
  repeat reports_step; auto.
Qed.

Lemma reports_createCommand env options :
  reports false (createCommand env options).
Proof.
  unfold createCommand, create_action. reports_unfold.
  pose proof reports_create_session.
  repeat reports_step; auto.
Qed.

Lemma reports_showTarget b target session : reports b (showTarget target session).
Proof. unfold showTarget. reports_unfold. repeat reports_step. Qed.

Lemma reports_revealCommand env code force :
  reports false (revealCommand env code force).
Proof.
  unfold revealCommand, reveal_action. reports_unfold.
  pose proof reports_getAllSessions. pose proof reports_showTarget.
  pose proof reports_saveSession.
  repeat reports_step; auto.
Qed.

Lemma reports_show_target_lines b l index : reports b (show_target_lines l index).
Proof.
  revert b index. induction l as [|target l IH]; intros b index; simpl.
  - auto with reports.
  - reports_unfold. repeat reports_step; auto.
Qed.

Lemma reports_show_session b env session : reports b (show_session env session).
Proof.
  unfold show_session. reports_unfold.
  pose proof reports_show_target_lines.
  repeat reports_step; auto.
Qed.

Lemma reports_forEach b (f : jsval -> M unit) l :
  (forall b x, reports b (f x)) -> reports b (forEach f l).
Proof.
  intros Hf. induction l as [|x l IH]; simpl.
  - auto with reports.
  - apply reports_bind; [apply Hf | intros _; exact IH].
Qed.

Lemma reports_listCommand env options :
  reports false (listCommand env options).
Proof.
  unfold listCommand, list_action. reports_unfold.
  pose proof reports_getAllSessions.
  pose proof (fun b l => reports_forEach b (show_session env) l
                           (fun b x => reports_show_session b env x)).
  repeat reports_step; auto.
Qed.

Lemma never_raises_createCommand env options :
  never_raises (createCommand env options).
Proof.
  unfold createCommand, create_action. reports_unfold.
  apply never_raises_emit_bind, never_raises_try_catch. intros e.
  do 2 apply never_raises_emit_bind. apply never_raises_exit.
Qed.

Lemma never_raises_revealCommand env code force :
  never_raises (revealCommand env code force).
Proof.
  unfold revealCommand, reveal_action. reports_unfold.
  apply never_raises_try_catch. intros e.
  do 2 apply never_raises_emit_bind. apply never_raises_exit.
Qed.

Lemma never_raises_listCommand env options :
  never_raises (listCommand env options).
Proof.
  unfold listCommand, list_action. reports_unfold.
  apply never_raises_try_catch. intros e.
  do 2 apply never_raises_emit_bind. apply never_raises_exit.
Qed.

Lemma never_raises_statusCommand env code : never_raises (statusCommand env code).
Proof.
  unfold statusCommand, status_action. reports_unfold.
  apply never_raises_try_catch. intros e.
  do 2 apply never_raises_emit_bind. apply never_raises_exit.
Qed.

Lemma reports_show_status_lines b canReveal l index :
  reports b (show_status_lines canReveal l index).
Proof.
  revert b index. induction l as [|target l IH]; intros b index; simpl.
  - apply reports_ret.
  - reports_unfold. repeat reports_step; auto.
Qed.

Lemma reports_showSessionStatus b env session :
  reports b (showSessionStatus env session).
Proof.
  unfold showSessionStatus. reports_unfold.
  pose proof reports_show_status_lines. repeat reports_step; auto.
Qed.

Lemma reports_showTargetStatus b env target session :
  reports b (showTargetStatus env target session).
Proof. unfold showTargetStatus. reports_unfold. repeat reports_step. Qed.

Lemma reports_status_search b env l normalizedCode code :
  reports b (status_search env l normalizedCode code).
Proof.
  revert b. induction l as [|s l IH]; intros b; simpl.
  - reports_unfold. repeat reports_step.
  - pose proof (fun b => reports_showTargetStatus b env). repeat reports_step; auto.
Qed.

Lemma reports_statusCommand env code : reports false (statusCommand env code).
Proof.
  unfold statusCommand, status_action. reports_unfold.
  pose proof reports_getAllSessions. pose proof reports_getSession.
  pose proof (fun b => reports_status_search b env).
  pose proof (fun b => reports_showSessionStatus b env).
  repeat reports_step; auto.
Qed.

(** *** What the catch of each command does *)

Lemma createCommand_catch env options :
  exits_on_failure
    (spinner "start" "Creating RV session...";; create_action env options)
    (createCommand env options)
    (fun error => [Spinner "fail" "Failed to create session";
                   LogError "error.message" (Some error)]).
Proof.
  intros w.
  change ((spinner "start" "Creating RV session...";; create_action env options) w)
    with (create_action env options
            (printing w [Spinner "start" "Creating RV session..."])).
  change (createCommand env options w)
    with (try_catch (create_action env options)
            (fun error =>
               spinner "fail" "Failed to create session";;
               logger_error "error.message" (Some error);;
               process_exit 1)
            (printing w [Spinner "start" "Creating RV session..."])).
  unfold try_catch.
  destruct (create_action env options _) as [[u|e|c] w1]; try reflexivity.
  unfold bind, spinner, logger_error, emit, process_exit, printing. simpl.
  rewrite <- app_assoc. reflexivity.
Qed.

Lemma revealCommand_catch env code force :
  exits_on_failure (reveal_action env code force) (revealCommand env code force)
    (fun error => [LogError "Failed to reveal target" None;
                   LogError "error.message" (Some error)]).
Proof.
  intros w. unfold revealCommand, try_catch.
  destruct (reveal_action env code force w) as [[u|e|c] w1]; try reflexivity.
  unfold bind, logger_error, emit, process_exit, printing. simpl.
  rewrite <- app_assoc. reflexivity.
Qed.

Lemma listCommand_catch env options :
  exits_on_failure (list_action env options) (listCommand env options)
    (fun error => [LogError "Failed to list sessions" None;
                   LogError "error.message" (Some error)]).
Proof.
  intros w. unfold listCommand, try_catch.
  destruct (list_action env options w) as [[u|e|c] w1]; try reflexivity.
  unfold bind, logger_error, emit, process_exit, printing. simpl.
  rewrite <- app_assoc. reflexivity.
Qed.

Lemma statusCommand_catch env code :
  exits_on_failure (status_action env code) (statusCommand env code)
    (fun error => [LogError "Failed to check status" None;
                   LogError "error.message" (Some error)]).
Proof.
  intros w. unfold statusCommand, try_catch.
  destruct (status_action env code w) as [[u|e|c] w1]; try reflexivity.
  unfold bind, logger_error, emit, process_exit, printing. simpl.
  rewrite <- app_assoc. reflexivity.
Qed.

Lemma reports_create_action env options :
  reports false (create_action env options).
Proof.
  unfold create_action. reports_unfold.
  pose proof reports_create_session.
  repeat reports_step; auto.
Qed.

(** *** Failures of the data directory and of the provider, end to end *)

Lemma list_action_mkdir_fault env options w code :
  mkdir_fault (fs w) = Some code ->
  list_action env options w
  = (Raise (ErrnoException code),
     printing w [LogError "Failed to create data directory:"
                   (Some (ErrnoException code))]).
Proof.
  intros Hmk. unfold list_action.
  erewrite bind_Raise by (apply getAllSessions_mkdir_fault; exact Hmk).
  reflexivity.
Qed.

Lemma reveal_action_mkdir_fault env code force w c :
  mkdir_fault (fs w) = Some c ->
  reveal_action env code force w
  = (Raise (ErrnoException c),
     printing w [LogError "Failed to create data directory:"
                   (Some (ErrnoException c))]).
Proof.
  intros Hmk. unfold reveal_action.
  erewrite bind_Raise by (apply getAllSessions_mkdir_fault; exact Hmk).
  reflexivity.
Qed.

Lemma status_action_unread env code w e w1 :
  read_session (getSessionPath code) w = (Raise e, w1) -> is_ENOENT e = false ->
  status_action env code w
  = (Raise e, printing w1 [LogError "Failed to read session:" (Some e)]).
Proof.
  intros Hr He. unfold status_action.
  erewrite bind_Raise; [reflexivity|].
  rewrite getSession_catch, Hr, He. reflexivity.
Qed.

Lemma fetchRandomImage_request_failure env x w :
  responses env (requests_sent w) = Throw (AxiosError x) ->
  fetchRandomImage env w
  = (Raise (ErrorFrom "Failed to fetch image from Unsplash" (AxiosError x)),
     printing (after_request w)
       [LogError "Unsplash API error:" (Some (AxiosError x))]).
Proof.
  intros H. rewrite fetchRandomImage_catch.
  assert (Hr : request_image env w = (Raise (AxiosError x), after_request w)).
  { unfold request_image, bind, logger_debug, emit, axios_get.
    cbn [requests_sent]. rewrite H. reflexivity. }
  rewrite Hr. reflexivity.
Qed.

Lemma create_session_request_failure env options key n x w :
  UNSPLASH_ACCESS_KEY env = Some key -> key <> [] ->
  parseInt10 (options_targets options) = Num n -> 1 <= n <= 10 ->
  responses env (requests_sent w) = Throw (AxiosError x) ->
  exists w1,
    create_session env options w
    = (Raise (ErrorFrom "Failed to fetch image from Unsplash" (AxiosError x)), w1) /\
    out w1 = out w ++ [Spinner "text" "Creating target ${i + 1}/${targetCount}...";
                       LogDebug "Fetching random image from Unsplash...";
                       LogError "Unsplash API error:" (Some (AxiosError x))] /\
    fs w1 = fs w.
Proof.
  intros Hkey Hne Hn Hrange Hresp. unfold create_session. rewrite Hkey.
  destruct key as [|c key]; [contradiction|].
  erewrite bind_Return by reflexivity. cbv beta zeta. rewrite Hn.
  cbn [number_lt number_gt].
  replace (n <? 1) with false by (symmetry; apply Z.ltb_ge; lia).
  replace (10 <? n) with false by (symmetry; apply Z.ltb_ge; lia).
  cbn [orb].
  erewrite bind_Return by reflexivity. cbv beta.
  rewrite randomBytes_of_int. change ((8 <? 0) || (2147483647 <? 8)) with false.
  cbv iota.
  erewrite bind_Return by reflexivity. cbv beta.
  erewrite bind_Return by reflexivity. cbv beta.
  eexists. erewrite bind_Raise; [split; [reflexivity|]|].
  2:{ unfold loop_fuel. destruct (Z.to_nat n) as [|fuel] eqn:E; [lia|].
      cbn [create_targets number_lt].
      replace (0 <? n) with true by (symmetry; apply Z.ltb_lt; lia).
      erewrite bind_Return by reflexivity. cbv beta.
      erewrite bind_Return by reflexivity. cbv beta.
      destruct (generateCode_returns (plat env) (entropy env (S (random_draws w)))
                  8 (js "-") 4 ltac:(lia)) as [code Hcode].
      erewrite bind_Return.
      2:{ rewrite lift_run. unfold generateCode_default. cbn [random_draws].
          rewrite Hcode. reflexivity. }
      cbv beta.
      erewrite bind_Raise; [reflexivity|].
      apply fetchRandomImage_request_failure. exact Hresp. }
  split; [|reflexivity].
  unfold printing, after_request. cbn [out]. rewrite <- !app_assoc. reflexivity.
Qed.

Lemma createCommand_request_failure env options key n x w :
  UNSPLASH_ACCESS_KEY env = Some key -> key <> [] ->
  parseInt10 (options_targets options) = Num n -> 1 <= n <= 10 ->
  responses env (requests_sent w) = Throw (AxiosError x) ->
  exists w1,
    createCommand env options w = (Exit 1, w1) /\
    out w1 = out w ++ [Spinner "start" "Creating RV session...";
                       Spinner "text" "Creating target ${i + 1}/${targetCount}...";
                       LogDebug "Fetching random image from Unsplash...";
                       LogError "Unsplash API error:" (Some (AxiosError x));
                       Spinner "fail" "Failed to create session";
                       LogError "error.message"
                         (Some (ErrorFrom "Failed to fetch image from Unsplash"
                                  (AxiosError x)))] /\
    fs w1 = fs w.
Proof.
  intros Hkey Hne Hn Hrange Hresp.
  destruct (create_session_request_failure env options key n x
              (printing w [Spinner "start" "Creating RV session..."])
              Hkey Hne Hn Hrange Hresp) as (w1 & Hrun & Hout & Hfs).
  eexists. rewrite createCommand_catch.
  unfold bind at 1. unfold spinner at 1. unfold emit at 1.
  fold (printing w [Spinner "start" "Creating RV session..."]).
  unfold create_action. erewrite bind_Raise by exact Hrun.
  split; [reflexivity|]. split; [|exact Hfs].
  unfold printing at 1. cbn [out]. rewrite Hout. unfold printing. cbn [out].
  rewrite <- !app_assoc. reflexivity.
Qed.

Lemma statusCommand_unread env code w e w1 :
  read_session (getSessionPath code) w = (Raise e, w1) -> is_ENOENT e = false ->
  statusCommand env code w
  = (Exit 1,
     printing w1 [LogError "Failed to read session:" (Some e);
                  LogError "Failed to check status" None;
                  LogError "error.message" (Some e)]).
Proof.
  intros Hr He. rewrite statusCommand_catch.
  rewrite (status_action_unread _ _ _ _ _ Hr He).
  unfold printing. cbn. rewrite <- app_assoc. reflexivity.
Qed.

Lemma listCommand_mkdir_fault env options w code :
  mkdir_fault (fs w) = Some code ->
  listCommand env options w
  = (Exit 1,
     printing w [LogError "Failed to create data directory:"
                   (Some (ErrnoException code));
                 LogError "Failed to list sessions" None;
                 LogError "error.message" (Some (ErrnoException code))]).
Proof.
  intros Hmk. rewrite listCommand_catch.
  rewrite (list_action_mkdir_fault _ _ _ _ Hmk).
  unfold printing. cbn. rewrite <- app_assoc. reflexivity.
Qed.

Lemma revealCommand_mkdir_fault env code force w c :
  mkdir_fault (fs w) = Some c ->
  revealCommand env code force w
  = (Exit 1,
     printing w [LogError "Failed to create data directory:"
                   (Some (ErrnoException c));
                 LogError "Failed to reveal target" None;
                 LogError "error.message" (Some (ErrnoException c))]).
Proof.
  intros Hmk. rewrite revealCommand_catch.
  rewrite (reveal_action_mkdir_fault _ _ _ _ _ Hmk).
  unfold printing. cbn. rewrite <- app_assoc. reflexivity.
Qed.

Lemma statusCommand_unreadable env code w c :
  sessions_dir (fs w) = true ->
  files (fs w) !! getSessionPath code = Some (Unreadable c) ->
  c <> "ENOENT"%string ->
  statusCommand env code w
  = (Exit 1,
     printing w [LogError "Failed to read session:" (Some (ErrnoException c));
                 LogError "Failed to check status" None;
                 LogError "error.message" (Some (ErrnoException c))]).
Proof.
  intros Hd Hf Hc. apply statusCommand_unread.
  - apply read_session_unreadable; assumption.
  - apply bool_decide_eq_false. exact Hc.
Qed.

Lemma statusCommand_malformed env code w :
  sessions_dir (fs w) = true ->
  files (fs w) !! getSessionPath code = Some (File Malformed) ->
  statusCommand env code w
  = (Exit 1,
     printing w [LogError "Failed to read session:" (Some SyntaxError);
                 LogError "Failed to check status" None;
                 LogError "error.message" (Some SyntaxError)]).
Proof.
  intros Hd Hf. apply statusCommand_unread.
  - apply read_session_malformed; assumption.
  - reflexivity.
Qed.

Lemma getSession_absent id w :
  sessions_dir (fs w) = false \/ files (fs w) !! getSessionPath id = None ->
  getSession id w = (Return VNull, w).
Proof.
  intros H. rewrite getSession_catch.
  assert (Hr : read_session (getSessionPath id) w
               = (Raise (ErrnoException "ENOENT"), w)).
  { unfold read_session. unfold bind at 1. unfold fs_readFile.
    destruct (sessions_dir (fs w)); [|reflexivity].
    destruct H as [H|H]; [discriminate H|]. rewrite H. reflexivity. }
  rewrite Hr. reflexivity.
Qed.

Lemma statusCommand_mkdir_fault env code w c :
  sessions_dir (fs w) = false \/ files (fs w) !! getSessionPath code = None ->
  mkdir_fault (fs w) = Some c ->
  statusCommand env code w
  = (Exit 1,
     printing w [LogError "Failed to create data directory:"
                   (Some (ErrnoException c));
                 LogError "Failed to check status" None;
                 LogError "error.message" (Some (ErrnoException c))]).
Proof.
  intros Hf Hmk. rewrite statusCommand_catch.
  assert (Hr : status_action env code w
               = (Raise (ErrnoException c),
                  printing w [LogError "Failed to create data directory:"
                                (Some (ErrnoException c))])).
  { unfold status_action.
    erewrite bind_Return by (apply getSession_absent; exact Hf).
    cbn [truthy negb].
    erewrite bind_Raise by (apply getAllSessions_mkdir_fault; exact Hmk).
    reflexivity. }
  rewrite Hr. unfold printing. cbn. rewrite <- app_assoc. reflexivity.
Qed.

(** C9 (amended): a failure is surfaced through a printed message and
    exit code 1 or is thrown on, with two exceptions.  Each command is
    its action inside a [try] whose [catch] prints the failure line and
    the error and exits with code 1, so no command lets an exception
    escape and a command that exits does so with code 1 after printing.
    Each [catch] of the services logs the error and throws it or an
    error made from it: [ensureDataDirectory], [saveSession],
    [deleteSession], [getSession] for what is not ENOENT (ENOENT is
    answered with [null]) and [fetchRandomImage] for an Axios error (any
    other error is thrown on as it is); [updateSession] throws when the
    session is missing.  The exceptions: what [getAllSessions] catches
    while the directory or a session file is read is logged and answered
    with the empty list, neither rethrown nor turned into an exit; and
    [testConnection] answers a failure with [false] and prints nothing.
    So a directory that cannot be created, a session file that cannot be
    read or parsed, and a request that fails end the command with the
    logged error and exit code 1. *)
Theorem failures_surfaced env :
  (forall options,
     exits_on_failure
       (spinner "start" "Creating RV session...";; create_action env options)
       (createCommand env options)
       (fun error => [Spinner "fail" "Failed to create session";
                      LogError "error.message" (Some error)]) /\
     never_raises (createCommand env options) /\
     reports false (create_action env options) /\
     reports false (createCommand env options)) /\
  (forall code force,
     exits_on_failure (reveal_action env code force) (revealCommand env code force)
       (fun error => [LogError "Failed to reveal target" None;
                      LogError "error.message" (Some error)]) /\
     never_raises (revealCommand env code force) /\
     reports false (revealCommand env code force)) /\
  (forall options,
     exits_on_failure (list_action env options) (listCommand env options)
       (fun error => [LogError "Failed to list sessions" None;
                      LogError "error.message" (Some error)]) /\
     never_raises (listCommand env options) /\
     reports false (listCommand env options)) /\
  (forall code,
     exits_on_failure (status_action env code) (statusCommand env code)
       (fun error => [LogError "Failed to check status" None;
                      LogError "error.message" (Some error)]) /\
     never_raises (statusCommand env code) /\
     reports false (statusCommand env code)) /\
  throws_on_failure fs_mkdir ensureDataDirectory
    (fun error => [LogError "Failed to create data directory:" (Some error)])
    (fun error => error) /\
  (forall id w,
     getSession id w
     = match read_session (getSessionPath id) w with
       | (Raise e, w1) =>
           if is_ENOENT e then (Return VNull, w1)
           else (Raise e, printing w1 [LogError "Failed to read session:" (Some e)])
       | r => r
       end) /\
  (forall id w e w',
     getSession id w = (Raise e, w') ->
     is_ENOENT e = false /\
     exists evs,
       out w' = out w ++ evs ++ [LogError "Failed to read session:" (Some e)]) /\
  (forall session id w,
     mkdir_fault (fs w) = None -> get session "id" = Ok id ->
     saveSession env session w
     = match write_session (getSessionPath (ToString env id)) session
               (with_fs w (with_sessions_dir (fs w))) with
       | (Raise e, w1) =>
           (Raise (ErrorFrom "Failed to save session" e),
            printing w1 [LogError "Failed to save session:" (Some e)])
       | r => r
       end) /\
  (forall session w code,
     mkdir_fault (fs w) = Some code ->
     saveSession env session w
     = (Raise (ErrnoException code),
        printing w [LogError "Failed to create data directory:"
                      (Some (ErrnoException code))])) /\
  (forall session w e w',
     saveSession env session w = (Raise e, w') ->
     (exists code, e = ErrnoException code /\ mkdir_fault (fs w) = Some code /\
        out w' = out w ++ [LogError "Failed to create data directory:" (Some e)]) \/
     (e = TypeError /\ get session "id" = Throw TypeError /\ out w' = out w) \/
     (exists cause, e = ErrorFrom "Failed to save session" cause /\
        out w' = out w ++ [LogError "Failed to save session:" (Some cause)])) /\
  (forall id,
     throws_on_failure (unlink_session (getSessionPath id)) (deleteSession id)
       (fun error => [LogError "Failed to delete session:" (Some error)])
       (ErrorFrom "Failed to delete session")) /\
  (forall id updates w v w1,
     getSession id w = (Return v, w1) -> truthy v = false ->
     updateSession env id updates w
     = (Raise (Error "Session ${id} not found"), w1)) /\
  (forall w,
     fetchRandomImage env w
     = match request_image env w with
       | (Raise e, w1) =>
           if isAxiosError e
           then (Raise (ErrorFrom "Failed to fetch image from Unsplash" e),
                 printing w1 [LogError "Unsplash API error:" (Some e)])
           else (Raise e, w1)
       | r => r
       end) /\
  (forall w code,
     mkdir_fault (fs w) = Some code ->
     getAllSessions w
     = (Raise (ErrnoException code),
        printing w [LogError "Failed to create data directory:"
                      (Some (ErrnoException code))])) /\
  (forall w,
     mkdir_fault (fs w) = None ->
     exists l w', getAllSessions w = (Return l, w')) /\
  (forall w,
     mkdir_fault (fs w) = None ->
     getAllSessions w
     = match list_sessions (with_fs w (with_sessions_dir (fs w))) with
       | (Raise e, w1) =>
           (Return [], printing w1 [LogError "Failed to list sessions:" (Some e)])
       | r => r
       end) /\
  (forall w code,
     mkdir_fault (fs w) = None -> readdir_fault (fs w) = Some code ->
     getAllSessions w
     = (Return [],
        printing (with_fs w (with_sessions_dir (fs w)))
          [LogError "Failed to list sessions:" (Some (ErrnoException code))])) /\
  (forall w,
     exists w',
       testConnection env w
       = (Return (match responses env (requests_sent w) with
                  | Ok _ => true
                  | Throw _ => false
                  end), w') /\
       out w' = out w /\ fs w' = fs w) /\
  (forall options w code,
     mkdir_fault (fs w) = Some code ->
     listCommand env options w
     = (Exit 1,
        printing w [LogError "Failed to create data directory:"
                      (Some (ErrnoException code));
                    LogError "Failed to list sessions" None;
                    LogError "error.message" (Some (ErrnoException code))])) /\
  (forall code force w c,
     mkdir_fault (fs w) = Some c ->
     revealCommand env code force w
     = (Exit 1,
        printing w [LogError "Failed to create data directory:"
                      (Some (ErrnoException c));
                    LogError "Failed to reveal target" None;
                    LogError "error.message" (Some (ErrnoException c))])) /\
  (forall code w c,
     sessions_dir (fs w) = false \/ files (fs w) !! getSessionPath code = None ->
     mkdir_fault (fs w) = Some c ->
     statusCommand env code w
     = (Exit 1,
        printing w [LogError "Failed to create data directory:"
                      (Some (ErrnoException c));
                    LogError "Failed to check status" None;
                    LogError "error.message" (Some (ErrnoException c))])) /\
  (forall code w c,
     sessions_dir (fs w) = true ->
     files (fs w) !! getSessionPath code = Some (Unreadable c) ->
     c <> "ENOENT"%string ->
     statusCommand env code w
     = (Exit 1,
        printing w [LogError "Failed to read session:" (Some (ErrnoException c));
                    LogError "Failed to check status" None;
                    LogError "error.message" (Some (ErrnoException c))])) /\
  (forall code w,
     sessions_dir (fs w) = true ->
     files (fs w) !! getSessionPath code = Some (File Malformed) ->
     statusCommand env code w
     = (Exit 1,
        printing w [LogError "Failed to read session:" (Some SyntaxError);
                    LogError "Failed to check status" None;
                    LogError "error.message" (Some SyntaxError)])) /\
  (forall options key n x w,
     UNSPLASH_ACCESS_KEY env = Some key -> key <> [] ->
     parseInt10 (options_targets options) = Num n -> 1 <= n <= 10 ->
     responses env (requests_sent w) = Throw (AxiosError x) ->
     exists w1,
       createCommand env options w = (Exit 1, w1) /\
       out w1 = out w ++ [Spinner "start" "Creating RV session...";
                          Spinner "text" "Creating target ${i + 1}/${targetCount}...";
                          LogDebug "Fetching random image from Unsplash...";
                          LogError "Unsplash API error:" (Some (AxiosError x));
                          Spinner "fail" "Failed to create session";
                          LogError "error.message"
                            (Some (ErrorFrom "Failed to fetch image from Unsplash"
                                     (AxiosError x)))] /\
       fs w1 = fs w).
Proof.
  split.
  { intros options. split; [apply createCommand_catch|].
    split; [apply never_raises_createCommand|].
    split; [apply reports_create_action | apply reports_createCommand]. }
  split.
  { intros code force. split; [apply revealCommand_catch|].
    split; [apply never_raises_revealCommand | apply reports_revealCommand]. }
  split.
  { intros options. split; [apply listCommand_catch|].
    split; [apply never_raises_listCommand | apply reports_listCommand]. }
  split.
  { intros code. split; [apply statusCommand_catch|].
    split; [apply never_raises_statusCommand | apply reports_statusCommand]. }
  split; [exact ensureDataDirectory_catch|].
  split; [exact getSession_catch|].
  split; [exact getSession_Raise|].
  split; [exact (saveSession_catch env)|].
  split; [exact (saveSession_mkdir_fault env)|].
  split; [exact (saveSession_Raise env)|].
  split; [exact deleteSession_catch|].
  split; [exact (updateSession_missing env)|].
  split; [exact (fetchRandomImage_catch env)|].
  split; [exact getAllSessions_mkdir_fault|].
  split; [exact getAllSessions_returns|].
  split; [exact getAllSessions_catch|].
  split; [exact getAllSessions_readdir_fault|].
  split; [exact (testConnection_run env)|].
  split; [exact (listCommand_mkdir_fault env)|].
  split; [exact (revealCommand_mkdir_fault env)|].
  split; [exact (statusCommand_mkdir_fault env)|].
  split; [exact (statusCommand_unreadable env)|].
  split; [exact (statusCommand_malformed env)|].
  exact (createCommand_request_failure env).
Qed.

Lemma failures_surfaced_witness :
  let options := {| options_all := false; options_revealed := false |} in
  listCommand example_env options uncreatable_world
  = (Exit 1,
     printing uncreatable_world
       [LogError "Failed to create data directory:" (Some (ErrnoException "EACCES"));
        LogError "Failed to list sessions" None;
        LogError "error.message" (Some (ErrnoException "EACCES"))]) /\
  revealCommand example_env (js "QW9E-RT5Y") true uncreatable_world
  = (Exit 1,
     printing uncreatable_world
       [LogError "Failed to create data directory:" (Some (ErrnoException "EACCES"));
        LogError "Failed to reveal target" None;
        LogError "error.message" (Some (ErrnoException "EACCES"))]) /\
  statusCommand example_env (js "00d1a2734414e5b0") unreadable_world
  = (Exit 1,
     printing unreadable_world
       [LogError "Failed to read session:" (Some (ErrnoException "EACCES"));
        LogError "Failed to check status" None;
        LogError "error.message" (Some (ErrnoException "EACCES"))]) /\
  statusCommand example_env (js "draft") damaged_world
  = (Exit 1,
     printing damaged_world
       [LogError "Failed to read session:" (Some SyntaxError);
        LogError "Failed to check status" None;
        LogError "error.message" (Some SyntaxError)]) /\
  revealCommand example_env (js "QW9E-RT5Y") true read_only_world
  = (Exit 1,
     printing
       (after_clock (after_clock
          (printing read_only_world
             [LogError "Failed to save session:" (Some (ErrnoException "EROFS"))])))
       [LogError "Failed to reveal target" None;
        LogError "error.message"
          (Some (ErrorFrom "Failed to save session" (ErrnoException "EROFS")))]) /\
  (exists w1,
     createCommand offline_env (example_options "60" "3") empty_world = (Exit 1, w1) /\
     fs w1 = fs empty_world) /\
  getAllSessions unlistable_world
  = (Return [],
     printing (with_fs unlistable_world (with_sessions_dir (fs unlistable_world)))
       [LogError "Failed to list sessions:" (Some (ErrnoException "EACCES"))]).
Proof.
  intros options.
  destruct (failures_surfaced example_env)
    as (_ & Hreveal & _ & _ & _ & _ & _ & _ & _ & _ & _ & _ & _ & _ & _ & _
        & Hreaddir & _ & Hlist & Hrevealmk & _ & Hunreadable & Hmalformed & _).
  destruct (failures_surfaced offline_env)
    as (_ & _ & _ & _ & _ & _ & _ & _ & _ & _ & _ & _ & _ & _ & _ & _
        & _ & _ & _ & _ & _ & _ & _ & Hcreate).
  split; [apply Hlist; reflexivity|].
  split; [apply Hrevealmk; reflexivity|].
  split; [apply Hunreadable; [reflexivity | vm_compute; reflexivity | discriminate]|].
  split; [apply Hmalformed; [reflexivity | vm_compute; reflexivity]|].
  split.
  { destruct (Hreveal (js "QW9E-RT5Y") true) as (Hcatch & _).
    rewrite (Hcatch read_only_world).
    destruct (reveal_action example_env (js "QW9E-RT5Y") true read_only_world)
      as [[u|e|c] w1] eqn:E; vm_compute in E; try discriminate E.
    injection E as <- <-. vm_compute. reflexivity. }
  split.
  { destruct (Hcreate (example_options "60" "3") (js "key") 3 "Network Error"%string
                empty_world) as (w1 & Hrun & _ & Hfs);
      [reflexivity | discriminate | vm_compute; reflexivity | lia | reflexivity|].
    exists w1. split; assumption. }
  apply Hreaddir; reflexivity.
Defined.

(** C9 as stated fails: when the sessions directory cannot be listed, or
    holds one unparseable file, [getAllSessions] logs the error and
    returns the empty list.  The list command then reports that there are
    no sessions and returns: no exit code 1, nothing thrown, although a
    readable session is stored. *)
Lemma listCommand_degrades_listing_failure :
  let options := {| options_all := false; options_revealed := false |} in
  fst (getAllSessions unlistable_world) = Return [] /\
  fst (listCommand example_env options unlistable_world) = Return tt /\
  out (snd (listCommand example_env options unlistable_world))
  = [LogError "Failed to list sessions:" (Some (ErrnoException "EACCES"));
     Print "No sessions found." [];
     Print "Create one with: glimpse create" []] /\
  fst (getAllSessions damaged_world) = Return [] /\
  fst (listCommand example_env options damaged_world) = Return tt /\
  out (snd (listCommand example_env options damaged_world))
  = [LogError "Failed to read session:" (Some SyntaxError);
     LogError "Failed to list sessions:" (Some SyntaxError);
     Print "No sessions found." [];
     Print "Create one with: glimpse create" []] /\
  is_Some (files (fs damaged_world) !! js "00d1a2734414e5b0.json").
Proof. vm_compute. repeat split. eexists. reflexivity. Qed.

End CommandFacts.

(* ================================================================== *)
(** * Part III: further properties of the code                         *)
(* ================================================================== *)

(** ** Code generation, validation and lookup *)

Module CodeSchemeProperties.
Import JsString Js JsValue CodeGenerator JsStringAux CodeGeneratorAux.
Import JsStringFacts CodeGeneratorFacts Commands.





(** X3: for a length from 0 to 65536 the Node fallback branch (randomBytes
    and the copying loop) and the Web Crypto branch give the same code
    from the same drawn bytes. *)
Theorem generateCode_same_on_both_branches entropy (length : Z) separator
    (separatorPosition : Z) :
  0 <= length <= 65536 ->
  generateCode {| has_web_crypto := false |} entropy length separator
    separatorPosition
  = generateCode {| has_web_crypto := true |} entropy length separator
      separatorPosition.
Proof.
  intros H.
  destruct (generateCode_returns {| has_web_crypto := false |} entropy length
              separator separatorPosition H) as [c1 H1].
  destruct (generateCode_returns {| has_web_crypto := true |} entropy length
              separator separatorPosition H) as [c2 H2].
  rewrite H1, H2. f_equal.
  apply generateCode_shape in H1, H2. congruence.
Qed.

Lemma generateCode_same_on_both_branches_witness :
  generateCode {| has_web_crypto := false |} (fun i => Z.of_nat i * 37) 8 (js "-") 4
  = generateCode {| has_web_crypto := true |} (fun i => Z.of_nat i * 37) 8 (js "-") 4.
Proof.
  apply (generateCode_same_on_both_branches (fun i => Z.of_nat i * 37) 8 (js "-") 4).
  lia.
Defined.

Lemma plain_fixed c :
  plain c = true ->
  toUppercase c = [c] /\ is_high_surrogate c = false /\
  UTF16EncodeCodePoint c = [c].
Proof.
  unfold plain. intros H. apply andb_prop in H as [H1 H2]. apply Z.ltb_lt in H2.
  repeat split.
  - destruct (toUppercase c) as [|y [|]]; try discriminate.
    apply Z.eqb_eq in H1. subst. reflexivity.
  - unfold is_high_surrogate. apply andb_false_iff. left. apply Z.leb_gt. lia.
  - apply encode_other. apply andb_false_iff. left. apply Z.leb_gt. lia.
Qed.

(** Upper-casing leaves a string of plain code units as it is. *)
Lemma toUpperCase_plain s :
  Forall (fun c => plain c = true) s -> toUpperCase s = s.
Proof.
  intros H. unfold toUpperCase.
  assert (Hd : StringToCodePoints s = s).
  { induction H as [|c s Hc Hs IH]; [reflexivity|].
    destruct s as [|d s]; [reflexivity|].
    rewrite StringToCodePoints_single, IH; [reflexivity|].
    destruct (plain_fixed c Hc) as (_ & -> & _). reflexivity. }
  rewrite Hd. clear Hd.
  induction H as [|c s Hc Hs IH]; [reflexivity|].
  destruct (plain_fixed c Hc) as (Hu & _ & He).
  cbn [flat_map]. rewrite Hu. cbn [app].
  unfold CodePointsToString in *. cbn [flat_map]. rewrite He, IH. reflexivity.
Qed.

Lemma alphabet_plain c : In c CROCKFORD_ALPHABET -> plain c = true.
Proof.
  assert (H : forallb plain CROCKFORD_ALPHABET = true) by (vm_compute; reflexivity).
  rewrite forallb_forall in H. apply H.
Qed.

Lemma replace_hyphens_alphabet s :
  Forall (fun c => In c CROCKFORD_ALPHABET) s -> replace_hyphens s = s.
Proof.
  intros H. apply replace_hyphens_id. intros Hin.
  rewrite List.Forall_forall in H. exact (hyphen_not_in_alphabet (H _ Hin)).
Qed.

Lemma replace_hyphens_app s t :
  replace_hyphens (s ++ t) = replace_hyphens s ++ replace_hyphens t.
Proof. apply List.filter_app. Qed.

(** Normalising a code generated with the separator '-' gives back the
    drawn symbols. *)
Lemma generated_code_normalized p entropy (length separatorPosition : Z) code :
  generateCode p entropy length (js "-") separatorPosition = Ok code ->
  normalizeCode code = drawn_symbols entropy length.
Proof.
  intros H. apply generateCode_shape in H.
  pose proof (drawn_symbols_in_alphabet entropy length) as Hsym.
  assert (Hstrip : replace_hyphens code = drawn_symbols entropy length).
  { subst code. destruct (_ && _).
    - unfold with_separator_after. rewrite !replace_hyphens_app.
      rewrite (replace_hyphens_alphabet (take _ _)),
        (replace_hyphens_alphabet (drop _ _)).
      + change (replace_hyphens (js "-")) with (@nil Z). simpl.
        apply firstn_skipn.
      + apply List.Forall_forall. intros c Hc.
        rewrite List.Forall_forall in Hsym. eapply Hsym, In_drop_inv, Hc.
      + apply List.Forall_forall. intros c Hc.
        rewrite List.Forall_forall in Hsym. eapply Hsym, In_take_inv, Hc.
    - apply replace_hyphens_alphabet, Hsym. }
  unfold normalizeCode. rewrite Hstrip. apply toUpperCase_plain.
  eapply List.Forall_impl; [|exact Hsym]. apply alphabet_plain.
Qed.



(** X5: the result of [normalizeCode] contains no hyphen and is left as
    it is by a further [toUpperCase], and hyphens in the input make no
    difference to [normalizeCode] and [validateCode]. *)
Theorem normalizeCode_canonical x :
  ~ In HYPHEN (normalizeCode x) /\
  toUpperCase (normalizeCode x) = normalizeCode x /\
  normalizeCode (replace_hyphens x) = normalizeCode x /\
  validateCode (replace_hyphens x) = validateCode x /\
  (forall y z, normalizeCode (y ++ js "-" ++ z) = normalizeCode (y ++ z)).
Proof.
  assert (Hidem : replace_hyphens (replace_hyphens x) = replace_hyphens x)
    by (apply replace_hyphens_id, replace_hyphens_no_hyphen).
  repeat split.
  - unfold normalizeCode. intros H. apply hyphen_toUpperCase in H.
    exact (replace_hyphens_no_hyphen x H).
  - unfold normalizeCode. apply toUpperCase_idempotent.
  - unfold normalizeCode. rewrite Hidem. reflexivity.
  - unfold validateCode. rewrite Hidem. reflexivity.
  - intros y z. unfold normalizeCode. rewrite !replace_hyphens_app. reflexivity.
Qed.

(** X6: the predicate by which reveal and status look a target up,
    [normalizeCode(t.code).toUpperCase() === normalizeCode(code).toUpperCase()],
    holds exactly when the two codes have the same [normalizeCode]; a
    target whose code is not a string makes it throw a TypeError. *)
Theorem has_code_normalized code t :
  (forall c, get t "code" = Ok (VString c) ->
     has_code (toUpperCase (normalizeCode code)) t
     = Ok (bool_decide (normalizeCode c = normalizeCode code))) /\
  (forall v, get t "code" = Ok v -> (forall c, v <> VString c) ->
     has_code (toUpperCase (normalizeCode code)) t = Throw TypeError).
Proof.
  split.
  - intros c Hc. unfold has_code. rewrite Hc.
    cbn [mbind result_bind normalized_upper]. unfold normalizeCode.
    rewrite (toUpperCase_idempotent (replace_hyphens c)),
      (toUpperCase_idempotent (replace_hyphens code)). reflexivity.
  - intros v Hv Hne. unfold has_code. rewrite Hv.
    cbn [mbind result_bind normalized_upper].
    destruct v; try reflexivity. destruct (Hne s eq_refl).
Qed.

Lemma has_code_normalized_witness :
  has_code (toUpperCase (normalizeCode (js "ab3d-x7k2")))
    (VObject [(js "code", VString (js "AB3D-X7K2"))])
  = Ok (bool_decide (normalizeCode (js "AB3D-X7K2") = normalizeCode (js "ab3d-x7k2"))).
Proof.
  apply (has_code_normalized (js "ab3d-x7k2")
           (VObject [(js "code", VString (js "AB3D-X7K2"))])).
  reflexivity.
Defined.

(** *** What [validateCode] accepts *)

Lemma member_In c l : member c l = true <-> In c l.
Proof.
  unfold member. rewrite existsb_exists. split.
  - intros (x & Hx & Heq). apply Z.eqb_eq in Heq. subst. exact Hx.
  - intros H. exists c. split; [exact H | apply Z.eqb_refl].
Qed.

Lemma special_accepted :
  forallb (fun e => Bool.eqb (forallb (fun u => member u CROCKFORD_ALPHABET) (snd e))
                      (member (fst e) accepted_units))
    special_uppercase = true.
Proof. vm_compute. reflexivity. Qed.

Lemma ranges_accepted :
  forallb (fun r => let '(_, _, _, delta) := r in
                    forallb (fun m => Bool.eqb (member (m + delta) CROCKFORD_ALPHABET)
                                        (member m accepted_units))
                      (range_members r))
    simple_uppercase_ranges = true.
Proof. vm_compute. reflexivity. Qed.

Lemma accepted_mapped_or_symbol :
  forallb (fun a => member a CROCKFORD_ALPHABET
                    || match List.find (fun e => fst e =? a) special_uppercase with
                       | Some _ => true
                       | None =>
                           match List.find (in_uppercase_range a)
                                   simple_uppercase_ranges with
                           | Some _ => true
                           | None => false
                           end
                       end)
    accepted_units = true.
Proof. vm_compute. reflexivity. Qed.

Lemma accepted_below_surrogates :
  forallb (fun a => (0 <=? a) && (a <? 0xD800) || (0xE000 <=? a) && (a <? 0x10000))
    accepted_units = true.
Proof. vm_compute. reflexivity. Qed.

Lemma accepted_range a :
  In a accepted_units ->
  is_high_surrogate a = false /\ a < 0x10000.
Proof.
  intros H. pose proof accepted_below_surrogates as Hall.
  rewrite forallb_forall in Hall. specialize (Hall _ H). clear H.
  unfold is_high_surrogate.
  apply orb_prop in Hall as [Hall|Hall]; apply andb_prop in Hall as [H1 H2];
    apply Z.leb_le in H1; apply Z.ltb_lt in H2.
  - split; [|lia]. apply andb_false_iff. left. apply Z.leb_gt. lia.
  - split; [|lia]. apply andb_false_iff. right. apply Z.leb_gt. lia.
Qed.

(** The code points whose uppercase form lies in the alphabet. *)
Lemma uppercase_in_alphabet_iff cp :
  uppercase_in_alphabet cp = true <-> In cp accepted_units.
Proof.
  rewrite <- member_In. unfold uppercase_in_alphabet, toUppercase.
  destruct (List.find _ special_uppercase) as [[k l]|] eqn:Hsp.
  - apply find_some in Hsp as [Hin Hk]. simpl in Hk. apply Z.eqb_eq in Hk. subst k.
    pose proof special_accepted as H. rewrite forallb_forall in H.
    specialize (H _ Hin). cbn [fst snd] in H. apply eqb_prop in H.
    rewrite H. reflexivity.
  - destruct (List.find _ simple_uppercase_ranges) as [[[[lo hi] st] dl]|] eqn:Hr.
    + apply find_some in Hr as [Hin Hmem].
      pose proof simple_uppercase_settled as Hst. rewrite forallb_forall in Hst.
      specialize (Hst _ Hin). unfold range_settled in Hst.
      apply andb_prop in Hst as [Hst _]. apply Z.ltb_lt in Hst.
      pose proof ranges_accepted as H. rewrite forallb_forall in H.
      specialize (H _ Hin). cbv beta iota in H. rewrite forallb_forall in H.
      specialize (H cp (in_range_member _ _ _ _ _ Hst Hmem)).
      apply eqb_prop in H. cbn [forallb]. rewrite andb_true_r, H. reflexivity.
    + cbn [forallb]. rewrite andb_true_r. split.
      * rewrite !member_In. intros H. unfold accepted_units.
        apply in_or_app. left. exact H.
      * intros H. pose proof accepted_mapped_or_symbol as Hall.
        rewrite forallb_forall in Hall. apply member_In in H.
        specialize (Hall _ H). rewrite Hsp, Hr, orb_false_r in Hall. exact Hall.
Qed.

Lemma alphabet_small u : In u CROCKFORD_ALPHABET -> 0 <= u < 0x80.
Proof.
  intros H. assert (Hall : forallb (fun u => (0 <=? u) && (u <? 0x80))
                             CROCKFORD_ALPHABET = true) by (vm_compute; reflexivity).
  rewrite forallb_forall in Hall. specialize (Hall _ H).
  apply andb_prop in Hall as [H1 H2]. apply Z.leb_le in H1. apply Z.ltb_lt in H2.
  lia.
Qed.

Lemma encoded_in_alphabet u :
  Forall (fun c => In c CROCKFORD_ALPHABET) (UTF16EncodeCodePoint u) <->
  In u CROCKFORD_ALPHABET.
Proof.
  destruct ((0x10000 <=? u) && (u <=? 0x10FFFF)) eqn:E.
  - apply andb_prop in E as [E1 E2]. apply Z.leb_le in E1, E2.
    destruct (encode_astral u (conj E1 E2)) as (h & l & -> & Hh & _ & _).
    split.
    + intros H. apply Forall_cons in H as [H _]. apply alphabet_small in H.
      unfold is_high_surrogate in Hh. apply andb_prop in Hh as [Hh _].
      apply Z.leb_le in Hh. lia.
    + intros H. apply alphabet_small in H. lia.
  - rewrite encode_other by exact E. split.
    + intros H. apply Forall_cons in H as [H _]. exact H.
    + intros H. constructor; [exact H | constructor].
Qed.

Lemma upper_cased_in_alphabet cps :
  Forall (fun c => In c CROCKFORD_ALPHABET)
    (CodePointsToString (flat_map toUppercase cps)) <->
  Forall (fun cp => In cp accepted_units) cps.
Proof.
  unfold CodePointsToString. induction cps as [|cp cps IH].
  - simpl. split; constructor.
  - cbn [flat_map]. rewrite flat_map_app, Forall_app, IH, Forall_cons.
    apply and_iff_compat_r.
    rewrite <- uppercase_in_alphabet_iff. unfold uppercase_in_alphabet.
    rewrite forallb_forall. induction (toUppercase cp) as [|u us IHu].
    + simpl. split; [intros _ x [] | constructor].
    + cbn [flat_map]. rewrite Forall_app, encoded_in_alphabet, IHu. split.
      * intros [Hu Hus] x [<-|Hx]; [apply member_In; exact Hu | apply Hus; exact Hx].
      * intros H. split; [apply member_In, H; left; reflexivity|].
        intros x Hx. apply H. right. exact Hx.
Qed.

Lemma code_points_of_accepted s :
  Forall (fun c => In c accepted_units) s -> StringToCodePoints s = s.
Proof.
  induction 1 as [|c s Hc Hs IH]; [reflexivity|].
  destruct s as [|d s]; [reflexivity|].
  rewrite StringToCodePoints_single, IH; [reflexivity|].
  destruct (accepted_range c Hc) as [-> _]. reflexivity.
Qed.

Lemma accepted_code_points s :
  Forall (fun cp => In cp accepted_units) (StringToCodePoints s) ->
  StringToCodePoints s = s.
Proof.
  induction s as [| c | c d rest E IH | c d rest E IH] using code_points_ind.
  - reflexivity.
  - reflexivity.
  - rewrite StringToCodePoints_pair by exact E. intros H.
    apply Forall_cons in H as [H _]. apply accepted_range in H as [_ H].
    apply andb_prop in E as [E1 E2].
    pose proof (pair_code_point_range _ _ E1 E2). lia.
  - rewrite StringToCodePoints_single by exact E. intros H.
    apply Forall_cons in H as [_ H]. rewrite (IH H). reflexivity.
Qed.

(** X7: [validateCode] accepts exactly the strings whose code units are
    hyphens, alphabet symbols in either case, or one of the five letters
    whose uppercase form is spelled with alphabet symbols (sharp s, long
    s, and the ligatures ff, long-s-t and st); a surrogate, paired or
    not, makes a string invalid. *)
Theorem validateCode_accepts x :
  validateCode x = true <->
  Forall (fun c => c = HYPHEN \/ In c accepted_units) x.
Proof.
  rewrite validateCode_Forall. unfold toUpperCase.
  rewrite upper_cased_in_alphabet.
  assert (Hstrip : Forall (fun c => In c accepted_units) (replace_hyphens x) <->
                   Forall (fun c => c = HYPHEN \/ In c accepted_units) x).
  { unfold replace_hyphens. rewrite !List.Forall_forall. split.
    - intros H c Hc. destruct (Z.eq_dec c HYPHEN) as [->|Hne]; [left; reflexivity|].
      right. apply H, filter_In. split; [exact Hc|].
      apply negb_true_iff, Z.eqb_neq. exact Hne.
    - intros H c Hc. apply filter_In in Hc as [Hc Hne].
      apply negb_true_iff, Z.eqb_neq in Hne.
      destruct (H c Hc) as [->|Ha]; [destruct (Hne eq_refl) | exact Ha]. }
  rewrite <- Hstrip. split.
  - intros H. rewrite <- (accepted_code_points _ H). exact H.
  - intros H. rewrite (code_points_of_accepted _ H). exact H.
Qed.

Example validateCode_accepts_examples :
  validateCode [0xDF] = true /\ validateCode [0x17F; 0x2D; 0xFB00] = true /\
  validateCode [0x131] = false /\ validateCode [0x212A] = false /\
  validateCode [0xD801; 0xDC28] = false /\ validateCode (js "AB 3D") = false.
Proof. vm_compute. repeat split. Qed.

Lemma copy_bytes_length randomBytes length fuel i bytes :
  List.length (copy_bytes randomBytes length fuel i bytes) = List.length bytes.
Proof.
  revert i bytes. induction fuel as [|fuel IH]; intros i bytes; [reflexivity|].
  cbn [copy_bytes]. destruct (int_lt i length); [|reflexivity].
  rewrite IH. apply length_insert.
Qed.

Lemma int_lt_below_floor (q : Q) (i : Z) :
  ~ (inject_Z (Qfloor q) == q)%Q -> i <= Qfloor q -> int_lt i (DNum q) = true.
Proof.
  intros Hfrac Hi. unfold int_lt. apply negb_true_iff.
  destruct (Qle_bool q (inject_Z i)) eqn:E; [|reflexivity].
  apply Qle_bool_iff in E. exfalso. apply Hfrac.
  apply Qle_antisym; [apply Qfloor_le|].
  apply (Qle_trans _ (inject_Z i)); [exact E|].
  rewrite <- Zle_Qle. exact Hi.
Qed.

Lemma int_lt_above_floor (q : Q) (i : Z) :
  Qfloor q < i -> int_lt i (DNum q) = false.
Proof.
  intros Hi. unfold int_lt. apply negb_false_iff. apply Qle_bool_iff.
  apply Qlt_le_weak. apply (Qlt_le_trans _ (inject_Z (Qfloor q + 1))).
  - apply Qlt_floor.
  - rewrite <- Zle_Qle. lia.
Qed.

Lemma int_lt_minus_one_floor (q : Q) (i : Z) :
  Qfloor q <= i -> int_lt i (minus_one (DNum q)) = false.
Proof.
  intros Hi. unfold int_lt, minus_one. apply negb_false_iff. apply Qle_bool_iff.
  apply Qlt_le_weak.
  apply (Qplus_lt_l _ _ 1). ring_simplify.
  apply (Qlt_le_trans _ (inject_Z (Qfloor q + 1))).
  - apply Qlt_floor.
  - rewrite inject_Z_plus. apply Qplus_le_l. rewrite <- Zle_Qle. exact Hi.
Qed.

(** With a length that is not an integer the loop makes its last turn
    past the end of the array. *)
Lemma generate_loop_past_end (q : Q) bytes separator separatorPosition fuel i code :
  ~ (inject_Z (Qfloor q) == q)%Q ->
  Z.of_nat (List.length bytes) = Qfloor q ->
  (i <= List.length bytes)%nat -> (List.length bytes - i < fuel)%nat ->
  exists rest,
    generate_loop bytes (DNum q) separator separatorPosition fuel (Z.of_nat i) code
    = code ++ rest ++ js "undefined".
Proof.
  intros Hfrac Hlen. revert i code.
  induction fuel as [|fuel IH]; intros i code Hi Hfuel; [lia|].
  cbn [generate_loop]. rewrite (int_lt_below_floor q (Z.of_nat i) Hfrac) by lia.
  destruct (decide (i = List.length bytes)) as [->|Hne].
  - rewrite (int_lt_minus_one_floor q) by lia. rewrite andb_false_r.
    unfold byte_at.
    replace (Z.of_nat (List.length bytes) <? 0) with false
      by (symmetry; apply Z.ltb_ge; lia).
    rewrite Nat2Z.id, (proj2 (lookup_ge_None bytes _)) by lia.
    cbn [symbol_index symbol_text].
    exists []. cbn [app].
    destruct fuel as [|fuel]; [reflexivity|].
    cbn [generate_loop]. rewrite int_lt_above_floor by lia. reflexivity.
  - replace (Z.of_nat i + 1) with (Z.of_nat (S i)) by lia.
    set (s := symbol_text (symbol_index (byte_at bytes (Z.of_nat i)))).
    destruct (int_eq _ _ && int_lt _ _).
    + destruct (IH (S i) ((code ++ s) ++ separator) ltac:(lia) ltac:(lia))
        as [rest Hrest].
      exists (s ++ separator ++ rest). rewrite Hrest, <- !app_assoc. reflexivity.
    + destruct (IH (S i) (code ++ s) ltac:(lia) ltac:(lia)) as [rest Hrest].
      exists (s ++ rest). rewrite Hrest, <- !app_assoc. reflexivity.
Qed.

(** X28: for a length that is positive and not an integer, with at
    most 65536 as its whole part, [generateCode] returns on both
    branches, and the code it returns ends in the text 'undefined': the
    array has the whole part of the length as its size and the loop reads
    one element past its end. *)
Theorem generateCode_fractional_length p entropy (q : Q) separator
    separatorPosition :
  (0 < q)%Q -> ~ (inject_Z (Qfloor q) == q)%Q -> Qfloor q <= 65536 ->
  exists rest,
    generateCode p entropy (DNum q) separator separatorPosition
    = Ok (rest ++ js "undefined").
Proof.
  intros Hpos Hfrac Hmax.
  assert (H0 : 0 <= Qfloor q).
  { change 0 with (Qfloor 0). apply Qfloor_resp_le, Qlt_le_weak, Hpos. }
  unfold generateCode, new_Uint8Array, ToIntegerOrInfinity.
  replace (Qle_bool 0 q) with true
    by (symmetry; apply Qle_bool_iff, Qlt_le_weak, Hpos).
  replace (Qfloor q <? 0) with false by (symmetry; apply Z.ltb_ge; lia).
  replace (9007199254740991 <? Qfloor q) with false
    by (symmetry; apply Z.ltb_ge; lia).
  cbn [orb]. cbv zeta. rewrite repeat_length.
  remember (S (Z.to_nat (Qfloor q))) as turns eqn:Hturns.
  assert (Hloop : forall bytes, List.length bytes = Z.to_nat (Qfloor q) ->
            exists rest,
              generate_loop bytes (DNum q) separator separatorPosition turns 0 []
              = rest ++ js "undefined").
  { intros bytes Hlen.
    destruct (generate_loop_past_end q bytes separator separatorPosition turns
                0 [] Hfrac ltac:(lia) ltac:(lia) ltac:(lia)) as [rest Hrest].
    exists rest. exact Hrest. }
  destruct (has_web_crypto p).
  - unfold getRandomValues. rewrite repeat_length.
    replace (65536 <? _) with false by (symmetry; apply Z.ltb_ge; lia).
    destruct (Hloop (imap (fun i _ => ToUint8 (entropy i))
                       (List.repeat 0 (Z.to_nat (Qfloor q)))))
      as [rest Hrest]; [rewrite length_imap, repeat_length; reflexivity|].
    exists rest. rewrite Hrest. reflexivity.
  - unfold randomBytes.
    replace (Qle_bool 0 q) with true
      by (symmetry; apply Qle_bool_iff, Qlt_le_weak, Hpos).
    replace (Qle_bool q (inject_Z 2147483647)) with true.
    2:{ symmetry. apply Qle_bool_iff, Qlt_le_weak.
        apply (Qlt_le_trans _ (inject_Z (Qfloor q + 1))); [apply Qlt_floor|].
        rewrite <- Zle_Qle. lia. }
    cbn [negb orb].
    match goal with
    | |- context [copy_bytes ?rb ?l ?f ?i ?b] =>
        destruct (Hloop (copy_bytes rb l f i b)) as [rest Hrest];
        [rewrite copy_bytes_length, repeat_length; reflexivity|]
    end.
    exists rest. rewrite Hrest. reflexivity.
Qed.

Lemma generateCode_fractional_length_witness :
  exists rest,
    generateCode {| has_web_crypto := false |} (fun i => Z.of_nat i * 37)
      (DNum (5 # 2)) (js "-") 4
    = Ok (rest ++ js "undefined").
Proof.
  apply (generateCode_fractional_length {| has_web_crypto := false |}
           (fun i => Z.of_nat i * 37) (5 # 2) (js "-") 4).
  - reflexivity.
  - vm_compute. discriminate.
  - vm_compute. discriminate.
Defined.

(** No index beyond the size of the array is below the length. *)
Lemma int_lt_beyond_array length bytes i :
  new_Uint8Array length = Ok bytes ->
  Z.of_nat (List.length bytes) < i -> int_lt i length = false.
Proof.
  unfold new_Uint8Array, ToIntegerOrInfinity.
  destruct length as [|negative|q]; [reflexivity | discriminate |].
  destruct (Qle_bool 0 q) eqn:Hq.
  - destruct (_ || _) eqn:E; [discriminate|]. intros [= <-].
    apply orb_false_iff in E as [E _]. apply Z.ltb_ge in E.
    rewrite repeat_length, Z2Nat.id by exact E.
    apply int_lt_above_floor.
  - destruct (_ || _) eqn:E; [discriminate|]. intros [= <-].
    rewrite repeat_length. intros Hi.
    unfold int_lt. apply negb_false_iff, Qle_bool_iff.
    apply Qlt_le_weak. apply (Qlt_le_trans _ 0).
    + apply Qnot_le_lt. intros H. apply Qle_bool_iff in H. congruence.
    + change 0%Q with (inject_Z 0). rewrite <- Zle_Qle. lia.
Qed.

Lemma generate_loop_more_fuel bytes length separator separatorPosition n fuel k
    i code :
  (forall j, Z.of_nat n < j -> int_lt j length = false) ->
  (S n - i <= fuel)%nat ->
  generate_loop bytes length separator separatorPosition (fuel + k) (Z.of_nat i) code
  = generate_loop bytes length separator separatorPosition fuel (Z.of_nat i) code.
Proof.
  intros Hend. revert i code. induction fuel as [|fuel IH]; intros i code Hfuel.
  - destruct k as [|k]; [reflexivity|]. cbn [Nat.add generate_loop].
    rewrite Hend by lia. reflexivity.
  - cbn [Nat.add generate_loop].
    destruct (int_lt (Z.of_nat i) length); [|reflexivity].
    replace (Z.of_nat i + 1) with (Z.of_nat (S i)) by lia.
    apply IH. lia.
Qed.

Lemma copy_bytes_more_fuel randomBytes length n fuel k i bytes :
  (forall j, Z.of_nat n < j -> int_lt j length = false) ->
  (S n - i <= fuel)%nat ->
  copy_bytes randomBytes length (fuel + k) (Z.of_nat i) bytes
  = copy_bytes randomBytes length fuel (Z.of_nat i) bytes.
Proof.
  intros Hend. revert i bytes. induction fuel as [|fuel IH]; intros i bytes Hfuel.
  - destruct k as [|k]; [reflexivity|]. cbn [Nat.add copy_bytes].
    rewrite Hend by lia. reflexivity.
  - cbn [Nat.add copy_bytes].
    destruct (int_lt (Z.of_nat i) length); [|reflexivity].
    replace (Z.of_nat i + 1) with (Z.of_nat (S i)) by lia.
    apply IH. lia.
Qed.

(** X29: the two loops over [i < length] end within one turn more than
    the array has elements, whatever number the length is: once the
    array could be made, no index beyond its size is below the length,
    so that further turns of the copying loop and of the loop that
    builds the code change nothing. *)
Theorem generateCode_loops_end length made :
  new_Uint8Array length = Ok made ->
  (forall i, Z.of_nat (List.length made) < i -> int_lt i length = false) /\
  (forall bytes separator separatorPosition more,
     List.length bytes = List.length made ->
     generate_loop bytes length separator separatorPosition
       (S (List.length bytes) + more) 0 []
     = generate_loop bytes length separator separatorPosition
         (S (List.length bytes)) 0 []) /\
  (forall randomBytes bytes more,
     List.length bytes = List.length made ->
     copy_bytes randomBytes length (S (List.length bytes) + more) 0 bytes
     = copy_bytes randomBytes length (S (List.length bytes)) 0 bytes).
Proof.
  intros Hmade.
  pose proof (int_lt_beyond_array length made) as Hend.
  split; [intros i Hi; apply Hend; assumption|]. split.
  - intros bytes separator separatorPosition more Hlen.
    apply (generate_loop_more_fuel bytes length separator separatorPosition
             (List.length bytes) (S (List.length bytes)) more 0 []); [|lia].
    intros j Hj. apply Hend; [exact Hmade | lia].
  - intros randomBytes bytes more Hlen.
    apply (copy_bytes_more_fuel randomBytes length
             (List.length bytes) (S (List.length bytes)) more 0 bytes); [|lia].
    intros j Hj. apply Hend; [exact Hmade | lia].
Qed.

Lemma generateCode_loops_end_witness :
  generate_loop [7; 200] (DNum (5 # 2)) (js "-") 4 (3 + 5) 0 []
  = generate_loop [7; 200] (DNum (5 # 2)) (js "-") 4 3 0 [].
Proof.
  destruct (generateCode_loops_end (DNum (5 # 2)) [0; 0] eq_refl) as (_ & H & _).
  exact (H [7; 200] (js "-") (of_int 4) 5%nat eq_refl).
Defined.

End CodeSchemeProperties.

(** ** ISO-8601 dates written and read back *)

Module JsDateFacts.
Import JsString Js JsNumber JsDate JsDateAux EffectsAux.

Lemma holds_from_spec ok fuel i :
  holds_from ok fuel i = true ->
  forall k, i <= k < i + Z.of_nat fuel -> ok k = true.
Proof.
  revert i. induction fuel as [|fuel IH]; intros i H k Hk; [lia|].
  simpl in H. apply andb_true_iff in H as [H0 H1].
  destruct (Z.eq_dec k i) as [->|Hne]; [exact H0|].
  apply (IH (i + 1) H1). lia.
Qed.

Lemma cycle_days_ok : holds_from cycle_day_ok (Z.to_nat 146097) 0 = true.
Proof. vm_compute. reflexivity. Qed.

Lemma civil_from_days_cycle days :
  civil_from_days days
  = let '(y, m, d) := civil_from_days ((days + 719468) mod 146097 - 719468) in
    (y + 400 * ((days + 719468) / 146097), m, d).
Proof.
  unfold civil_from_days. cbv zeta.
  pose proof (Z.mod_pos_bound (days + 719468) 146097 ltac:(lia)) as Hb.
  replace ((days + 719468) mod 146097 - 719468 + 719468)
    with ((days + 719468) mod 146097) by lia.
  rewrite (Z.div_small ((days + 719468) mod 146097) 146097) by lia.
  replace ((days + 719468) mod 146097 - 0 * 146097)
    with ((days + 719468) mod 146097) by lia.
  replace (days + 719468 - (days + 719468) / 146097 * 146097)
    with ((days + 719468) mod 146097) by (rewrite Z.mod_eq; lia).
  set (doe := (days + 719468) mod 146097).
  set (yoe := (doe - doe / 1460 + doe / 36524 - doe / 146096) / 365).
  set (doy := doe - (365 * yoe + yoe / 4 - yoe / 100)).
  set (mp := (5 * doy + 2) / 153).
  destruct (_ <=? 2); f_equal; f_equal; lia.
Qed.

Lemma days_from_civil_cycle y m d k :
  days_from_civil (y + 400 * k) m d = days_from_civil y m d + 146097 * k.
Proof.
  unfold days_from_civil. cbv zeta.
  destruct (m <=? 2).
  - replace (y + 400 * k - 1) with (y - 1 + k * 400) by lia.
    rewrite Z.div_add by lia.
    replace (y - 1 + k * 400 - ((y - 1) / 400 + k) * 400)
      with (y - 1 - (y - 1) / 400 * 400) by lia.
    lia.
  - replace (y + 400 * k) with (y + k * 400) by lia.
    rewrite Z.div_add by lia.
    replace (y + k * 400 - (y / 400 + k) * 400) with (y - y / 400 * 400) by lia.
    lia.
Qed.

Lemma days_in_month_cycle y m k :
  days_in_month (y + 400 * k) m = days_in_month y m.
Proof.
  unfold days_in_month.
  rewrite (days_from_civil_cycle y m 1 k).
  destruct (m =? 12).
  - replace (y + 400 * k + 1) with (y + 1 + 400 * k) by lia.
    rewrite days_from_civil_cycle. lia.
  - rewrite days_from_civil_cycle. lia.
Qed.

Lemma civil_from_days_spec days :
  let '(y, m, d) := civil_from_days days in
  1 <= m <= 12 /\ 1 <= d <= days_in_month y m /\ d <= 31 /\
  days_from_civil y m d = days /\
  400 * ((days + 719468) / 146097) <= y <= 400 * ((days + 719468) / 146097) + 400.
Proof.
  rewrite civil_from_days_cycle.
  pose proof (Z.mod_pos_bound (days + 719468) 146097 ltac:(lia)) as Hb.
  pose proof (holds_from_spec _ _ _ cycle_days_ok ((days + 719468) mod 146097)
                ltac:(rewrite Z2Nat.id; lia)) as H.
  unfold cycle_day_ok in H.
  destruct (civil_from_days ((days + 719468) mod 146097 - 719468)) as [[y m] d].
  rewrite !andb_true_iff in H.
  destruct H as [[[[[[[H1 H2] H3] H4] H5] H6] H7] H8].
  rewrite days_in_month_cycle, days_from_civil_cycle.
  pose proof (Z.div_mod (days + 719468) 146097 ltac:(lia)).
  lia.
Qed.

Lemma read_digits_snoc w acc s :
  read_digits (S w) acc s
  = '(a, r) ← read_digits w acc s;
    match r with
    | c :: r' => if is_digit c then Some (a * 10 + (c - 0x30), r') else None
    | [] => None
    end.
Proof.
  revert acc s. induction w as [|w IH]; intros acc s.
  - simpl. destruct s as [|c s]; [reflexivity|]. destruct (is_digit c); reflexivity.
  - change (read_digits (S (S w)) acc s)
      with (match s with
            | c :: s' => if is_digit c then read_digits (S w) (acc * 10 + (c - 0x30)) s'
                         else None
            | [] => None
            end).
    destruct s as [|c s]; [reflexivity|].
    destruct (is_digit c) eqn:E; [|simpl; rewrite E; reflexivity].
    rewrite IH. simpl. rewrite E. reflexivity.
Qed.

Lemma read_digits_pad_digits w n acc rest :
  0 <= n < 10 ^ Z.of_nat w ->
  read_digits w acc (pad_digits w n ++ rest) = Some (acc * 10 ^ Z.of_nat w + n, rest).
Proof.
  revert n rest. induction w as [|w IH]; intros n rest Hn.
  - simpl. f_equal. f_equal. change (10 ^ Z.of_nat 0) with 1 in Hn. lia.
  - rewrite Nat2Z.inj_succ, Z.pow_succ_r in * by lia.
    rewrite read_digits_snoc.
    change (pad_digits (S w) n) with (pad_digits w (n / 10) ++ [0x30 + n mod 10]).
    rewrite <- app_assoc. rewrite IH.
    + simpl. unfold is_digit.
      pose proof (Z.mod_pos_bound n 10 ltac:(lia)).
      replace ((0x30 <=? 0x30 + n mod 10) && (0x30 + n mod 10 <=? 0x39)) with true
        by (symmetry; apply andb_true_iff; split; apply Z.leb_le; lia).
      f_equal. f_equal. pose proof (Z.div_mod n 10 ltac:(lia)). lia.
    + split; [apply Z.div_pos; lia|]. apply Z.div_lt_upper_bound; lia.
Qed.

Lemma pad_digits_head w n rest :
  exists c tl, pad_digits (S w) n ++ rest = c :: tl /\ 0x30 <= c <= 0x39.
Proof.
  revert n rest. induction w as [|w IH]; intros n rest.
  - exists (0x30 + n mod 10), rest. split; [reflexivity|].
    pose proof (Z.mod_pos_bound n 10 ltac:(lia)). lia.
  - change (pad_digits (S (S w)) n) with (pad_digits (S w) (n / 10) ++ [0x30 + n mod 10]).
    rewrite <- app_assoc. apply IH.
Qed.

Lemma year_parse y rest :
  -1000000 < y < 1000000 ->
  match year_text y ++ rest with
  | c :: s' =>
      if c =? 0x2B then '(y, r) ← read_digits 6 0 s'; Some (y, r)
      else if c =? 0x2D then
        '(y, r) ← read_digits 6 0 s'; if y =? 0 then None else Some (- y, r)
      else read_digits 4 0 (year_text y ++ rest)
  | [] => None
  end = Some (y, rest).
Proof.
  intros Hy. unfold year_text.
  destruct ((0 <=? y) && (y <=? 9999)) eqn:E.
  - apply andb_true_iff in E as [E1 E2]. apply Z.leb_le in E1, E2.
    destruct (pad_digits_head 3 y rest) as (c & tl & Heq & Hc).
    pose proof (read_digits_pad_digits 4 y 0 rest
                  ltac:(change (10 ^ Z.of_nat 4) with 10000; lia)) as Hr.
    rewrite Heq in *.
    replace (c =? 0x2B) with false by (symmetry; apply Z.eqb_neq; lia).
    replace (c =? 0x2D) with false by (symmetry; apply Z.eqb_neq; lia).
    rewrite Hr. f_equal.
  - destruct (y <? 0) eqn:Eneg.
    + apply Z.ltb_lt in Eneg.
      change ((js "-" ++ pad_digits 6 (Z.abs y)) ++ rest)
        with (0x2D :: (pad_digits 6 (Z.abs y) ++ rest)).
      cbv iota. change (0x2D =? 0x2B) with false. change (0x2D =? 0x2D) with true.
      cbv iota.
      rewrite read_digits_pad_digits by (change (10 ^ Z.of_nat 6) with 1000000; lia).
      unfold mbind, option_bind. cbv beta iota.
      replace (0 * 10 ^ Z.of_nat 6 + Z.abs y) with (- y) by lia.
      replace (- y =? 0) with false by (symmetry; apply Z.eqb_neq; lia).
      f_equal. f_equal. lia.
    + apply Z.ltb_ge in Eneg.
      change ((js "+" ++ pad_digits 6 (Z.abs y)) ++ rest)
        with (0x2B :: (pad_digits 6 (Z.abs y) ++ rest)).
      cbv iota. change (0x2B =? 0x2B) with true. cbv iota.
      rewrite read_digits_pad_digits by (change (10 ^ Z.of_nat 6) with 1000000; lia).
      unfold mbind, option_bind. cbv beta iota.
      f_equal. f_equal. lia.
Qed.

Lemma read_char_head c rest : read_char c (c :: rest) = Some rest.
Proof. unfold read_char. rewrite Z.eqb_refl. reflexivity. Qed.

Lemma Date_parse_toISOString t :
  Z.abs t <= 8640000000000000 -> Date_parse (toISOString t) = Num t.
Proof.
  intros Ht. unfold toISOString. cbv zeta.
  pose proof (civil_from_days_spec (t / msPerDay)) as Hc.
  destruct (civil_from_days (t / msPerDay)) as [[y m] d].
  destruct Hc as (Hm & Hd & Hd31 & Hdays & Hy).
  unfold msPerDay in *.
  assert (Hday : -100000000 <= t / 86400000 <= 100000000).
  { split; [apply Z.div_le_lower_bound | apply Z.div_le_upper_bound]; lia. }
  assert (Hera : -1000 <= (t / 86400000 + 719468) / 146097 <= 1000).
  { split; [apply Z.div_le_lower_bound | apply Z.div_le_upper_bound]; lia. }
  assert (Hyear : -1000000 < y < 1000000) by lia.
  pose proof (Z.mod_pos_bound t 86400000 ltac:(lia)) as Hms.
  set (ms := t mod 86400000) in *.
  unfold Date_parse. cbv zeta.
  change (if (0 <=? y) && (y <=? 9999) then pad_digits 4 y
          else (if y <? 0 then js "-" else js "+") ++ pad_digits 6 (Z.abs y))
    with (year_text y).
  rewrite (year_parse y _ Hyear).
  unfold mbind at 1. unfold option_bind at 1. cbv beta iota.
  assert (Hhh : 0 <= ms / 3600000 < 24).
  { split; [apply Z.div_pos; lia | apply Z.div_lt_upper_bound; lia]. }
  pose proof (Z.mod_pos_bound (ms / 60000) 60 ltac:(lia)) as Hmm.
  pose proof (Z.mod_pos_bound (ms / 1000) 60 ltac:(lia)) as Hss.
  pose proof (Z.mod_pos_bound ms 1000 ltac:(lia)) as Hmss.
  change (js "Z") with [0x5A].
  repeat first
    [ progress change (js "-" ++ ?x) with (0x2D :: x)
    | progress change (js "T" ++ ?x) with (0x54 :: x)
    | progress change (js ":" ++ ?x) with (0x3A :: x)
    | progress change (js "." ++ ?x) with (0x2E :: x)
    | rewrite read_char_head
    | rewrite read_digits_pad_digits
        by (first [change (10 ^ Z.of_nat 2) with 100
                  | change (10 ^ Z.of_nat 3) with 1000]; lia)
    | progress (unfold mbind at 1; unfold option_bind at 1; cbv beta iota) ].
  change (0 * 10 ^ Z.of_nat 2 + ?x) with x.
  change (0 * 10 ^ Z.of_nat 3 + ?x) with x.
  assert (Hsum : ms / 3600000 * 3600000 + (ms / 60000) mod 60 * 60000
                 + (ms / 1000) mod 60 * 1000 + ms mod 1000 = ms).
  { clear - Hms. Z.div_mod_to_equations. lia. }
  replace ((1 <=? m) && (m <=? 12) && (1 <=? d) && (d <=? days_in_month y m) &&
           ((ms / 3600000 <=? 23) && ((ms / 60000) mod 60 <=? 59) &&
            ((ms / 1000) mod 60 <=? 59)
            || (ms / 3600000 =? 24) && ((ms / 60000) mod 60 =? 0) &&
               ((ms / 1000) mod 60 =? 0) && (ms mod 1000 =? 0))) with true.
  - unfold TimeClip, msPerDay. rewrite Hdays.
    replace (t / 86400000 * 86400000 + ms / 3600000 * 3600000
             + (ms / 60000) mod 60 * 60000 + (ms / 1000) mod 60 * 1000
             + ms mod 1000) with t.
    + replace (Z.abs t <=? 8640000000000000) with true
        by (symmetry; apply Z.leb_le; exact Ht).
      reflexivity.
    + pose proof (Z.div_mod t 86400000 ltac:(lia)). fold ms in H. lia.
  - symmetry. apply andb_true_iff. split.
    + repeat (apply andb_true_iff; split); apply Z.leb_le; lia.
    + apply orb_true_iff. left.
      repeat (apply andb_true_iff; split); apply Z.leb_le; lia.
Qed.

Lemma reread_date_in_range d : in_time_range d = true -> reread_date d = d.
Proof.
  destruct d as [[|t]]; unfold in_time_range, reread_date; simpl; [discriminate|].
  intros H. apply Z.leb_le in H. rewrite Date_parse_toISOString by exact H.
  reflexivity.
Qed.

Lemma reread_date_invalid d : getTime d = NaN -> reread_date d = mkDate (Num 0).
Proof. unfold reread_date. intros ->. reflexivity. Qed.

End JsDateFacts.

(** ** Runs and the data directory *)

Module StoreFacts.
Import JsString Js JsNumber JsDate JsValue CodeGenerator Effects Types StorageService.
Import EffectsAux CommandsAux EffectsFacts ServiceFacts.
Local Open Scope M_scope.

Lemma leaves_files_ret {A} (a : A) : leaves_files (ret a).
Proof. intros w. reflexivity. Qed.

Lemma leaves_files_throw {A} e : leaves_files (@throw A e).
Proof. intros w. reflexivity. Qed.

Lemma leaves_files_exit {A} c : leaves_files (@process_exit A c).
Proof. intros w. reflexivity. Qed.

Lemma leaves_files_lift {A} (r : result A) : leaves_files (lift r).
Proof. intros w. rewrite lift_run. reflexivity. Qed.

Lemma leaves_files_emit e : leaves_files (emit e).
Proof. intros w. reflexivity. Qed.

Lemma leaves_files_Date_now env : leaves_files (Date_now env).
Proof. intros w. reflexivity. Qed.

Lemma leaves_files_draw env : leaves_files (draw env).
Proof. intros w. reflexivity. Qed.

Lemma leaves_files_axios_get env : leaves_files (axios_get env).
Proof. intros w. reflexivity. Qed.

Lemma leaves_files_bind {A B} (m : M A) (k : A -> M B) :
  leaves_files m -> (forall a, leaves_files (k a)) -> leaves_files (bind m k).
Proof.
  intros Hm Hk w. unfold bind. specialize (Hm w).
  destruct (m w) as [[a|e|c] w1]; simpl in *; [|assumption|assumption].
  rewrite Hk. exact Hm.
Qed.

Lemma leaves_files_try_catch {A} (m : M A) (h : exn -> M A) :
  leaves_files m -> (forall e, leaves_files (h e)) -> leaves_files (try_catch m h).
Proof.
  intros Hm Hh w. unfold try_catch. specialize (Hm w).
  destruct (m w) as [[a|e|c] w1]; simpl in *; [assumption| |assumption].
  rewrite Hh. exact Hm.
Qed.

Create HintDb leaves_files.
#[export] Hint Resolve leaves_files_ret leaves_files_throw leaves_files_exit
  leaves_files_lift leaves_files_emit leaves_files_Date_now leaves_files_draw
  leaves_files_axios_get : leaves_files.

Ltac leaves_files_step :=
  match goal with
  | |- leaves_files (bind _ _) => apply leaves_files_bind; [|intros]
  | |- leaves_files (try_catch _ _) => apply leaves_files_try_catch; [|intros]
  | |- leaves_files (if ?b then _ else _) => destruct b
  | |- leaves_files (match ?x with _ => _ end) => destruct x
  | |- leaves_files (logger_error _ _) => apply leaves_files_emit
  | |- leaves_files (logger_debug _) => apply leaves_files_emit
  | |- leaves_files (console_log _ _) => apply leaves_files_emit
  | |- leaves_files (spinner _ _) => apply leaves_files_emit
  | |- leaves_files _ => solve [auto with leaves_files]
  end.

Lemma leaves_files_Return {A} (m : M A) w a w' :
  leaves_files m -> m w = (Return a, w') -> fs w' = fs w.
Proof. intros H E. specialize (H w). rewrite E in H. exact H. Qed.

Lemma leaves_files_fs_readFile name : leaves_files (fs_readFile name).
Proof.
  intros w. unfold fs_readFile. destruct (sessions_dir _); [|reflexivity].
  destruct (_ !! _) as [[]|]; reflexivity.
Qed.

Lemma leaves_files_getSession id : leaves_files (getSession id).
Proof.
  unfold getSession, read_session, parse_text. pose proof leaves_files_fs_readFile.
  repeat leaves_files_step; auto.
Qed.

Lemma fails_safely_leaves {A} (m : M A) : leaves_files m -> fails_safely m.
Proof. intros H w _. rewrite H. apply same_store_refl. Qed.

Lemma fails_safely_bind {A B} (m : M A) (k : A -> M B) :
  leaves_files m -> (forall a, fails_safely (k a)) -> fails_safely (bind m k).
Proof.
  intros Hm Hk w. unfold bind. specialize (Hm w).
  destruct (m w) as [[a|e|c] w1]; simpl in *.
  - intros H. rewrite <- Hm. apply Hk. exact H.
  - intros _. rewrite Hm. apply same_store_refl.
  - intros _. rewrite Hm. apply same_store_refl.
Qed.

Lemma get_Throw v k e : get v k = Throw e -> e = TypeError.
Proof. destruct v; simpl; intros [=]; congruence. Qed.

Lemma bind_lift {A B} (r : result A) (k : A -> M B) w :
  bind (lift r) k w
  = match r with
    | Ok a => k a w
    | Throw e => (Raise e, w)
    end.
Proof. unfold bind. rewrite lift_run. destruct r; reflexivity. Qed.




(** What [saveSession] leaves in the store: the file, when it returns,
    and the entries as they were otherwise. *)
Lemma saveSession_Return env session w u w' :
  saveSession env session w = (Return u, w') ->
  exists idv j,
    get session "id" = Ok idv /\ JSON_stringify session = Some j /\
    mkdir_fault (fs w) = None /\ write_fault (fs w) = None /\
    fs w' = with_file (getSessionPath (ToString env idv)) (JsonText j) (fs w).
Proof.
  unfold saveSession, write_session.
  destruct (mkdir_fault (fs w)) as [code|] eqn:Hmk.
  - erewrite bind_Raise by (apply ensureDataDirectory_fault; exact Hmk).
    discriminate.
  - erewrite bind_Return by (apply ensureDataDirectory_ok; exact Hmk).
    unfold bind at 1. rewrite lift_run.
    destruct (get session "id") as [idv|e0] eqn:Hid; [|discriminate].
    unfold try_catch, bind, stringify_text, fs_writeFile.
    destruct (JSON_stringify session) as [j|] eqn:Hj; [|discriminate].
    cbn [ret fs with_fs with_sessions_dir write_fault sessions_dir].
    destruct (write_fault (fs w)) eqn:Hwr; [discriminate|].
    cbv [logger_debug emit]. intros [= _ <-].
    exists idv, j. repeat split; try reflexivity.
    unfold with_file. cbn [fs]. rewrite Hwr. reflexivity.
Qed.

Lemma saveSession_failed env session w :
  (forall u, fst (saveSession env session w) <> Return u) ->
  same_store (fs (snd (saveSession env session w))) (fs w).
Proof.
  unfold saveSession, write_session.
  destruct (mkdir_fault (fs w)) as [code|] eqn:Hmk.
  - erewrite bind_Raise by (apply ensureDataDirectory_fault; exact Hmk).
    intros _. apply same_store_refl.
  - erewrite bind_Return by (apply ensureDataDirectory_ok; exact Hmk).
    unfold bind at 1. rewrite lift_run.
    destruct (get session "id") as [idv|e0] eqn:Hid;
      [|intros _; apply with_sessions_dir_same].
    unfold try_catch, bind, stringify_text, fs_writeFile.
    destruct (JSON_stringify session) as [j|] eqn:Hj;
      [|intros _; apply with_sessions_dir_same].
    cbn [ret fs with_fs with_sessions_dir write_fault sessions_dir].
    destruct (write_fault (fs w)) eqn:Hwr.
    + intros _. unfold same_store. simpl. rewrite Hwr. auto 6.
    + cbv [logger_debug emit]. intros H. exfalso. apply (H tt). reflexivity.
Qed.

Lemma saveSession_ok env session w idv j :
  mkdir_fault (fs w) = None -> write_fault (fs w) = None ->
  get session "id" = Ok idv -> JSON_stringify session = Some j ->
  saveSession env session w
  = (Return tt,
     printing
       (with_fs w (with_file (getSessionPath (ToString env idv)) (JsonText j) (fs w)))
       [LogDebug "Session ${session.id} saved to ${filePath}"]).
Proof.
  intros Hmk Hwr Hid Hj. destruct w as [[d f mk rd wr ul] o c r q].
  simpl in Hmk, Hwr. subst mk wr.
  unfold saveSession, write_session, bind, ensureDataDirectory, try_catch, fs_mkdir, stringify_text.
  cbn [fs mkdir_fault]. rewrite lift_run, Hid, Hj. reflexivity.
Qed.

Lemma fails_safely_saveSession env session {A} (a : A) :
  fails_safely (saveSession env session;; ret a).
Proof.
  intros w H. pose proof (saveSession_failed env session w) as Hs.
  unfold bind in *.
  destruct (saveSession env session w) as [[u|e|c] w1]; simpl in *.
  - exfalso. exact (H a eq_refl).
  - apply Hs. discriminate.
  - apply Hs. discriminate.
Qed.

Lemma getSession_missing id w :
  files (fs w) !! getSessionPath id = None \/ sessions_dir (fs w) = false ->
  getSession id w = (Return VNull, w).
Proof.
  intros H. unfold getSession, read_session, try_catch, bind, fs_readFile.
  destruct (sessions_dir (fs w)); [|reflexivity].
  destruct H as [H|H]; [rewrite H; reflexivity | discriminate H].
Qed.


Lemma getSession_malformed id w :
  sessions_dir (fs w) = true ->
  files (fs w) !! getSessionPath id = Some (File Malformed) ->
  getSession id w
  = (Raise SyntaxError,
     printing w [LogError "Failed to read session:" (Some SyntaxError)]).
Proof.
  intros Hdir Hf. unfold getSession, read_session, try_catch, bind, fs_readFile.
  rewrite Hdir, Hf. reflexivity.
Qed.

Lemma read_sessions_malformed name entries sessions w :
  sessions_dir (fs w) = true ->
  files (fs w) !! name = Some (File Malformed) ->
  ends_with name (js ".json") = true ->
  getSessionPath (remove_first (js ".json") name) = name ->
  In name entries ->
  exists e w', read_sessions entries sessions w = (Raise e, w') /\
               exists evs, out w' = out w ++ evs.
Proof.
  intros Hdir Hf Hends Hpath. revert sessions w Hdir Hf.
  induction entries as [|file entries IH]; intros sessions w Hdir Hf Hin; [destruct Hin|].
  cbn [read_sessions].
  destruct (decide (file = name)) as [->|Hne].
  - rewrite Hends.
    erewrite bind_Raise
      by (apply getSession_malformed; [exact Hdir | rewrite Hpath; exact Hf]).
    eexists _, _. split; [reflexivity|]. eexists. reflexivity.
  - destruct Hin as [Heq|Hin]; [contradiction|].
    assert (Hrest : forall sessions w1, fs w1 = fs w -> (exists evs, out w1 = out w ++ evs) ->
              exists e w', read_sessions entries sessions w1 = (Raise e, w') /\
                           exists evs, out w' = out w ++ evs).
    { intros s1 w1 Hfs [evs1 Hout1].
      destruct (IH s1 w1) as (e & w' & Hr & evs & Hout); try (rewrite Hfs; assumption).
      - exact Hin.
      - exists e, w'. split; [exact Hr|]. exists (evs1 ++ evs).
        rewrite Hout, Hout1, app_assoc. reflexivity. }
    destruct (ends_with file (js ".json"));
      [|apply Hrest; [reflexivity | exists []; rewrite app_nil_r; reflexivity]].
    unfold bind.
    pose proof (leaves_files_getSession (remove_first (js ".json") file) w) as Hfs.
    pose proof (reports_getSession true (remove_first (js ".json") file) w)
      as (evs & Hout & _).
    pose proof (never_exits_getSession (remove_first (js ".json") file) w) as Hne'.
    destruct (getSession _ w) as [[v|e|c] w1]; cbn [fst snd] in *.
    + destruct (truthy v); apply Hrest; eauto.
    + eexists _, _. split; [reflexivity|]. eauto.
    + exfalso. exact (Hne' c eq_refl).
Qed.

Lemma newest_first_valid a b ta tb :
  created_time a = Num ta -> created_time b = Num tb ->
  newest_first a b = Ok (Num (tb - ta)).
Proof.
  unfold created_time, prop, newest_first. intros Ha Hb.
  destruct (get a "createdAt") as [[]|]; try discriminate Ha.
  destruct (get b "createdAt") as [[]|]; try discriminate Hb.
  cbn [mbind result_bind call_getTime mret result_ret].
  rewrite Ha, Hb. reflexivity.
Qed.

Lemma sort_insert_members compare x sorted l :
  sort_insert compare x sorted = Ok l ->
  In x l /\ forall y, In y sorted -> In y l.
Proof.
  revert l. induction sorted as [|z sorted IH]; cbn [sort_insert]; intros l.
  - intros [= <-]. split; [left; reflexivity | intros y []].
  - unfold mbind, result_bind, mret, result_ret.
    destruct (compare z x) as [v|]; [|discriminate].
    destruct (number_gt v (Num 0)).
    + intros [= <-]. split; [left; reflexivity | intros y Hy; right; exact Hy].
    + destruct (sort_insert compare x sorted) as [rest|] eqn:E; [|discriminate].
      intros [= <-]. destruct (IH rest eq_refl) as [Hx Hs].
      split; [right; exact Hx|]. intros y [<-|Hy]; [left; reflexivity|].
      right. apply Hs, Hy.
Qed.

Lemma fold_sort_Throw compare l e sorted :
  fold_left (fun acc x => sorted ← acc; sort_insert compare x sorted) l (Throw e)
  <> Ok sorted.
Proof. induction l as [|z l IHl]; simpl; [discriminate | exact IHl]. Qed.

Lemma fold_sort_members compare l acc sorted :
  fold_left (fun acc x => sorted ← acc; sort_insert compare x sorted) l (Ok acc)
  = Ok sorted ->
  forall y, In y acc \/ In y l -> In y sorted.
Proof.
  revert acc. induction l as [|x l IH]; simpl; intros acc.
  - intros [= <-] y [H|[]]. exact H.
  - destruct (sort_insert compare x acc) as [acc'|] eqn:E;
      [|intros H; exfalso; exact (fold_sort_Throw _ _ _ _ H)].
    intros Hf y Hy. apply (IH acc' Hf).
    destruct (sort_insert_members _ _ _ _ E) as [Hx Hs].
    destruct Hy as [Hy|[<-|Hy]]; auto.
Qed.

Lemma sort_insert_order x sorted l :
  sort_insert newest_first x sorted = Ok l ->
  created_time x <> NaN -> Forall (fun v => created_time v <> NaN) sorted ->
  newest_first_order sorted -> newest_first_order l.
Proof.
  intros H Hx. revert l H.
  induction sorted as [|z sorted IH]; cbn [sort_insert]; intros l H Hv Ho.
  - injection H as <-. split; [constructor | exact I].
  - apply Forall_cons in Hv as [Hz Hv]. destruct Ho as [Hzs Ho].
    destruct (created_time x) as [|tx] eqn:Ex; [congruence|].
    destruct (created_time z) as [|tz] eqn:Ez; [congruence|].
    rewrite (newest_first_valid z x tz tx Ez Ex) in H.
    cbn [mbind result_bind number_gt number_lt] in H.
    destruct (0 <? tx - tz) eqn:E.
    + apply Z.ltb_lt in E. injection H as <-.
      split; [|split; assumption].
      constructor; [exists tx, tz; repeat split; try assumption; lia|].
      eapply List.Forall_impl; [|exact Hzs].
      intros v (tz' & tv & Hz' & Htv & Hle). exists tx, tv.
      repeat split; try assumption. rewrite Ez in Hz'. injection Hz' as <-. lia.
    + apply Z.ltb_ge in E.
      destruct (sort_insert newest_first x sorted) as [rest|] eqn:Er;
        [|discriminate H].
      injection H as <-. split; [|exact (IH rest eq_refl Hv Ho)].
      apply List.Forall_forall. intros v Hin.
      destruct (sort_insert_In _ _ _ _ Er v Hin) as [->|Hin'].
      * exists tz, tx. repeat split; try assumption. lia.
      * rewrite List.Forall_forall in Hzs. apply Hzs, Hin'.
Qed.

Lemma Array_sort_order l sorted :
  Array_sort newest_first l = Ok sorted ->
  Forall (fun v => created_time v <> NaN) sorted ->
  newest_first_order sorted.
Proof.
  unfold Array_sort. intros Hs Hv.
  assert (H : forall l acc,
             fold_left (fun acc x => sorted ← acc; sort_insert newest_first x sorted)
               l (Ok acc) = Ok sorted ->
             newest_first_order acc -> newest_first_order sorted).
  { clear l Hs. induction l as [|x l IH]; simpl; intros acc Hf Ho.
    - injection Hf as <-. exact Ho.
    - destruct (sort_insert newest_first x acc) as [acc'|] eqn:E;
        [|exfalso; exact (fold_sort_Throw _ _ _ _ Hf)].
      apply (IH acc' Hf).
      pose proof (fold_sort_members _ _ _ _ Hf) as Hm.
      destruct (sort_insert_members _ _ _ _ E) as [Hx Hacc].
      rewrite List.Forall_forall in Hv.
      apply (sort_insert_order _ _ _ E); [apply Hv, Hm; auto | | exact Ho].
      apply List.Forall_forall. intros v Hin. apply Hv, Hm. auto. }
  exact (H l [] Hs I).
Qed.

Lemma getAllSessions_sorted w l w' :
  getAllSessions w = (Return l, w') ->
  l = [] \/ exists sessions, Array_sort newest_first sessions = Ok l.
Proof.
  unfold getAllSessions, list_sessions. intros H.
  apply bind_Return_inv in H as (_ & w1 & _ & H).
  unfold try_catch in H.
  match type of H with
  | context [bind ?m ?k w1] => destruct (bind m k w1) as [[a|e|c] w2] eqn:Hb
  end.
  - injection H as <- _.
    apply bind_Return_inv in Hb as (entries & w3 & _ & Hb).
    apply bind_Return_inv in Hb as (sessions & w4 & Hr & Hb).
    rewrite lift_run in Hb.
    destruct (Array_sort newest_first sessions) as [sorted|] eqn:Es; [|discriminate Hb].
    injection Hb as <- _. right. exists sessions. exact Es.
  - cbv [bind logger_error emit ret] in H. injection H as <- _. left. reflexivity.
  - discriminate H.
Qed.

Lemma lookup_prop_None {A} k (props : list (jsstring * A)) :
  lookup_prop k props = None <-> ~ In k (List.map fst props).
Proof.
  induction props as [|[k' v] props IH]; simpl; [tauto|].
  destruct (decide (k' = k)) as [->|Hne].
  - split; [discriminate | intros H; exfalso; apply H; left; reflexivity].
  - rewrite IH. split; [intros H [E|Hin]; [congruence | exact (H Hin)] | tauto].
Qed.

(** [{ ...session, ...updates }]: a property of [updates] wins. *)
Lemma spread_merge (updates session : list (jsstring * jsval)) k :
  List.NoDup (List.map fst updates) ->
  lookup_prop k
    (fold_left (fun acc kv => assign_prop (fst kv) (snd kv) acc) updates session)
  = match lookup_prop k updates with
    | Some x => Some x
    | None => lookup_prop k session
    end.
Proof.
  revert session. induction updates as [|[k' v] updates IH]; intros session Hnd.
  - reflexivity.
  - apply List.NoDup_cons_iff in Hnd as [Hnotin Hnd]. cbn [fold_left fst snd List.map] in *.
    rewrite (IH _ Hnd). cbn [lookup_prop].
    destruct (decide (k' = k)) as [->|Hne].
    + apply lookup_prop_None in Hnotin. rewrite Hnotin.
      apply lookup_assign_eq.
    + destruct (lookup_prop k updates); [reflexivity|].
      apply lookup_assign_ne. exact Hne.
Qed.

Lemma saveSession_then_getSession env s w :
  mkdir_fault (fs w) = None -> write_fault (fs w) = None ->
  fst (saveSession env (RVSession_value s) w) = Return tt /\
  exists v,
    getSession (id s) (snd (saveSession env (RVSession_value s) w))
    = (Return v, snd (saveSession env (RVSession_value s) w)) /\
    get v "id" = Ok (VString (id s)) /\
    get v "name" = Ok (from_option VString VUndefined (name s)) /\
    get v "createdAt" = Ok (VDate (reread_date (createdAt s))) /\
    get v "revealAt" = Ok (VDate (reread_date (revealAt s))) /\
    get v "targets" = Ok (VArray (List.map reread_target (targets s)) []).
Proof.
  intros Hmk Hwr.
  destruct s as [sid nm ts [cd] [rd] nt].
  pose proof (saveSession_object env
                (match RVSession_value
                         {| id := sid; name := nm; targets := ts;
                            createdAt := {| getTime := cd |};
                            revealAt := {| getTime := rd |}; notes := nt |}
                 with VObject props => props | _ => [] end)
                w _ Hmk Hwr eq_refl) as Hsave.
  cbv beta iota delta [RVSession_value] in Hsave.
  unfold RVSession_value. rewrite Hsave. split; [reflexivity|].
  unfold getSession, read_session, try_catch. unfold bind at 1. unfold fs_readFile.
  cbn [snd fs printing with_fs with_file sessions_dir files id].
  match goal with
  | |- context [<[?k := _]> _ !! ?k'] => change k with k'
  end.
  rewrite lookup_insert_eq.
  unfold reread_date. cbn [createdAt revealAt getTime name targets].
  destruct nm, nt, cd, rd; eexists; (split; [reflexivity|]);
    repeat split; try reflexivity.
  all: clear Hsave; simpl; rewrite !List.map_map; reflexivity.
Qed.

Lemma reread_target_fields t :
  prop (reread_target t) "code" = VString (code t) /\
  prop (reread_target t) "revealed" = VBool (revealed t).
Proof.
  destruct t as [c u d src r ra]. unfold reread_target, RVTarget_value, prop.
  cbn [code targetUrl targetDescription targetSource revealed revealedAt].
  cbn [JSON_stringify app default].
  destruct (JSON_stringify u), (JSON_stringify d), ra as [[[|]]|];
    split; reflexivity.
Qed.

End StoreFacts.

(** ** The session store *)

Module StorageProperties.
Import JsString Js JsNumber JsDate JsValue Effects Types StorageService.
Import EffectsAux CommandsAux JsDateAux EffectsFacts ServiceFacts Examples.
Import JsDateFacts StoreFacts.
Local Open Scope M_scope.

(** X8: for an id without a session file the three operations differ.
    [getSession] answers [null], logs nothing and leaves the world as it
    is; [updateSession] throws 'Session ${id} not found', also without
    logging; [deleteSession] does not treat the missing file as done: it
    logs the ENOENT error and throws 'Failed to delete session'. *)
Theorem absent_session env id updates w :
  files (fs w) !! getSessionPath id = None ->
  getSession id w = (Return VNull, w) /\
  updateSession env id updates w = (Raise (Error "Session ${id} not found"), w) /\
  (unlink_fault (fs w) = None ->
   deleteSession id w
   = (Raise (ErrorFrom "Failed to delete session" (ErrnoException "ENOENT")),
      printing w [LogError "Failed to delete session:"
                    (Some (ErrnoException "ENOENT"))])).
Proof.
  intros H. pose proof (getSession_missing id w (or_introl H)) as Hget.
  split; [exact Hget|]. split.
  - unfold updateSession. erewrite bind_Return by exact Hget. reflexivity.
  - intros Hul. unfold deleteSession, unlink_session, try_catch, bind, fs_unlink.
    rewrite Hul, H. destruct (sessions_dir (fs w)); reflexivity.
Qed.

Lemma absent_session_witness :
  getSession (js "0123456789abcdef") revealed_world = (Return VNull, revealed_world) /\
  fst (deleteSession (js "0123456789abcdef") revealed_world)
  = Raise (ErrorFrom "Failed to delete session" (ErrnoException "ENOENT")).
Proof.
  destruct (absent_session example_env (js "0123456789abcdef") VUndefined
              revealed_world) as (H1 & _ & H3).
  - vm_compute. reflexivity.
  - split; [exact H1|]. rewrite H3; reflexivity.
Defined.

(** X9: a session whose two dates are valid is found again by
    [getSession] after [saveSession]: the id, the name, [createdAt] and
    [revealAt] come back as they were saved (the dates as Date objects
    with the same time value, through their ISO-8601 text), and the
    targets come back in the same order with their codes and revealed
    flags. *)
Theorem saveSession_getSession env s w :
  mkdir_fault (fs w) = None -> write_fault (fs w) = None ->
  in_time_range (createdAt s) = true -> in_time_range (revealAt s) = true ->
  let w1 := snd (saveSession env (RVSession_value s) w) in
  fst (saveSession env (RVSession_value s) w) = Return tt /\
  exists v items,
    getSession (id s) w1 = (Return v, w1) /\
    get v "id" = Ok (VString (id s)) /\
    get v "name" = Ok (from_option VString VUndefined (name s)) /\
    get v "createdAt" = Ok (VDate (createdAt s)) /\
    get v "revealAt" = Ok (VDate (revealAt s)) /\
    get v "targets" = Ok (VArray items []) /\
    List.map (fun x => prop x "code") items
    = List.map (fun t => VString (code t)) (targets s) /\
    List.map (fun x => prop x "revealed") items
    = List.map (fun t => VBool (revealed t)) (targets s).
Proof.
  intros Hmk Hwr Hc Hr w1.
  destruct (saveSession_then_getSession env s w Hmk Hwr)
    as (Hsave & v & Hget & Hid & Hname & Hcreated & Hreveal & Htargets).
  split; [exact Hsave|].
  exists v, (List.map reread_target (targets s)).
  rewrite (reread_date_in_range _ Hc) in Hcreated.
  rewrite (reread_date_in_range _ Hr) in Hreveal.
  repeat (split; [assumption|]).
  rewrite !List.map_map.
  split; apply List.map_ext; intros t; apply reread_target_fields.
Qed.

Lemma saveSession_getSession_witness :
  let s := revealed_session 1700000000000 1700003600000 1700003700000 in
  let w1 := snd (saveSession example_env (RVSession_value s) empty_world) in
  exists v items,
    getSession (id s) w1 = (Return v, w1) /\
    get v "createdAt" = Ok (VDate (createdAt s)) /\
    get v "revealAt" = Ok (VDate (revealAt s)) /\
    get v "targets" = Ok (VArray items []) /\
    List.map (fun x => prop x "code") items = [VString (js "AB3D-X7K2")].
Proof.
  destruct (saveSession_getSession example_env
              (revealed_session 1700000000000 1700003600000 1700003700000)
              empty_world eq_refl eq_refl eq_refl eq_refl)
    as (_ & v & items & H1 & _ & _ & H2 & H3 & H4 & H5 & _).
  exists v, items. repeat (split; [assumption|]). exact H5.
Defined.

(** X10: the sessions that [getAllSessions] returns are ordered by
    creation time, newest first, whenever every returned session has a
    valid [createdAt]; with an Invalid Date among them the comparator
    yields [NaN] and no order is promised. *)
Theorem getAllSessions_newest_first w l w' :
  getAllSessions w = (Return l, w') ->
  Forall (fun v => created_time v <> NaN) l ->
  newest_first_order l.
Proof.
  intros H Hv. destruct (getAllSessions_sorted _ _ _ H) as [->|[sessions Hs]].
  - exact I.
  - exact (Array_sort_order _ _ Hs Hv).
Qed.

Lemma getAllSessions_newest_first_witness :
  exists l w',
    getAllSessions two_sessions_world = (Return l, w') /\
    List.map (fun v => prop v "id") l
    = [VString (js "8f3c5a7e9b1d2f40"); VString (js "00d1a2734414e5b0")] /\
    newest_first_order l.
Proof.
  destruct (getAllSessions two_sessions_world) as [[l|e|c] w'] eqn:E;
    try (vm_compute in E; discriminate E).
  exists l, w'. split; [reflexivity|].
  pose proof E as E'. vm_compute in E'. injection E' as Hl _.
  split; [rewrite <- Hl; reflexivity|].
  apply (getAllSessions_newest_first two_sessions_world l w' E).
  rewrite <- Hl. repeat constructor; vm_compute; discriminate.
Defined.

(** X11: one unparseable session file makes every session invisible.
    When the directory can be made and listed but holds a file
    <id>.json whose text is not JSON, [getAllSessions] returns the empty
    list, whatever else is stored, and the last thing it logs is
    'Failed to list sessions:'. *)
Theorem getAllSessions_all_or_nothing w name :
  mkdir_fault (fs w) = None -> readdir_fault (fs w) = None ->
  files (fs w) !! name = Some (File Malformed) ->
  ends_with name (js ".json") = true ->
  getSessionPath (remove_first (js ".json") name) = name ->
  fst (getAllSessions w) = Return [] /\
  exists evs e,
    out (snd (getAllSessions w))
    = out w ++ evs ++ [LogError "Failed to list sessions:" (Some e)].
Proof.
  intros Hmk Hrd Hf Hends Hpath. unfold getAllSessions, list_sessions.
  erewrite bind_Return by (apply ensureDataDirectory_ok; exact Hmk).
  unfold try_catch.
  set (w0 := with_fs w (with_sessions_dir (fs w))).
  assert (Hbody : exists e w', 
            (let* entries := fs_readdir in
             let* sessions := read_sessions entries [] in
             lift (Array_sort newest_first sessions)) w0 = (Raise e, w') /\
            exists evs, out w' = out w ++ evs).
  { unfold bind at 1. unfold fs_readdir. cbn [fs w0 with_fs with_sessions_dir readdir_fault sessions_dir files].
    rewrite Hrd.
    destruct (read_sessions_malformed name (List.map fst (map_to_list (files (fs w)))) [] w0)
      as (e & w' & Hr & Hout); try assumption; try reflexivity.
    - apply in_map_iff. exists (name, File Malformed). split; [reflexivity|].
      apply list_elem_of_In, elem_of_map_to_list. exact Hf.
    - erewrite bind_Raise by exact Hr. eauto. }
  destruct Hbody as (e & w' & -> & evs & Hout).
  cbv [bind logger_error emit ret]. cbn [fst snd out].
  split; [reflexivity|]. exists evs, e. rewrite Hout, app_assoc. reflexivity.
Qed.

Lemma getAllSessions_all_or_nothing_witness :
  fst (getAllSessions damaged_world) = Return [] /\
  is_Some (files (fs damaged_world) !! js "00d1a2734414e5b0.json").
Proof.
  destruct (getAllSessions_all_or_nothing damaged_world (js "draft.json"))
    as (H & _); try reflexivity.
  split; [exact H|]. vm_compute. eexists. reflexivity.
Defined.



(** X13: [updateSession] on a stored session (an object) saves the
    spread [{ ...session, ...updates }]: a property named in [updates]
    has the value given there, every other property the value that
    [getSession] read.  The file written is the one of the merged
    object's own [id], not of the [id] argument. *)
Theorem updateSession_merges env id updates props w w1 :
  getSession id w = (Return (VObject props), w1) ->
  List.NoDup (List.map fst updates) ->
  mkdir_fault (fs w1) = None -> write_fault (fs w1) = None ->
  exists merged j,
    JSON_stringify merged = Some j /\
    (forall k, get merged k
               = match lookup_prop (js k) updates with
                 | Some x => Ok x
                 | None => get (VObject props) k
                 end) /\
    updateSession env id (VObject updates) w
    = (Return tt,
       printing
         (with_fs w1
            (with_file (getSessionPath (ToString env (prop merged "id")))
               (JsonText j) (fs w1)))
         [LogDebug "Session ${session.id} saved to ${filePath}"]).
Proof.
  intros Hget Hnd Hmk Hwr.
  set (merged := VObject (fold_left (fun acc kv => assign_prop (fst kv) (snd kv) acc)
                            updates props)).
  assert (Hj : exists j, JSON_stringify merged = Some j) by (simpl; eauto).
  destruct Hj as [j Hj]. exists merged, j. split; [exact Hj|].
  assert (Hm : forall k, get merged k
               = match lookup_prop (js k) updates with
                 | Some x => Ok x
                 | None => get (VObject props) k
                 end).
  { intros k. unfold merged. cbn [get]. rewrite (spread_merge _ _ _ Hnd).
    destruct (lookup_prop (js k) updates); reflexivity. }
  split; [exact Hm|].
  unfold updateSession. erewrite bind_Return by exact Hget. cbv beta.
  cbn [truthy negb spread]. fold merged.
  apply saveSession_ok; try assumption.
  unfold prop. destruct (get merged "id") eqn:E; [reflexivity|].
  discriminate E.
Qed.

Lemma updateSession_merges_witness :
  exists merged,
    get merged "notes" = Ok (VString (js "seen")) /\
    get merged "id" = Ok (VString (js "00d1a2734414e5b0")) /\
    fst (updateSession example_env (js "00d1a2734414e5b0")
           (VObject [(js "notes", VString (js "seen"))]) revealed_world)
    = Return tt.
Proof.
  destruct (getSession (js "00d1a2734414e5b0") revealed_world)
    as [[[| | | | | | |props]|e|c] w1] eqn:E; try (vm_compute in E; discriminate E).
  destruct (updateSession_merges example_env (js "00d1a2734414e5b0")
              [(js "notes", VString (js "seen"))] props revealed_world w1 E)
    as (merged & j & _ & Hm & Hrun).
  - repeat constructor. intros [].
  - pose proof (leaves_files_getSession (js "00d1a2734414e5b0") revealed_world) as H.
    rewrite E in H. cbn [snd] in H. rewrite H. reflexivity.
  - pose proof (leaves_files_getSession (js "00d1a2734414e5b0") revealed_world) as H.
    rewrite E in H. cbn [snd] in H. rewrite H. reflexivity.
  - exists merged. split; [rewrite Hm; reflexivity|]. split.
    + rewrite Hm. cbn [lookup_prop]. 
      pose proof E as E'. vm_compute in E'. injection E' as Hp _.
      rewrite <- Hp. reflexivity.
    + rewrite Hrun. reflexivity.
Defined.

End StorageProperties.

(** ** The image service *)

Module UnsplashProperties.
Import JsString Js JsNumber JsDate JsValue Effects Types UnsplashService.
Import EffectsAux CommandsAux EffectsFacts ServiceFacts StoreFacts.
Local Open Scope M_scope.

Lemma image_of_Throw photo e : image_of photo = Throw e -> e = TypeError.
Proof.
  unfold image_of. unfold mbind, result_bind, mret, result_ret.
  repeat match goal with
         | |- context [match get ?v ?k with _ => _ end] =>
             let E := fresh "E" in
             destruct (get v k) eqn:E; [|intros [= <-]; exact (get_Throw _ _ _ E)]
         end.
  discriminate.
Qed.

Lemma fetchRandomImage_run env w :
  fetchRandomImage env w
  = match responses env (requests_sent w) with
    | Ok photo =>
        match image_of photo with
        | Ok image => (Return image, after_request w)
        | Throw e => (Raise e, after_request w)
        end
    | Throw e =>
        if isAxiosError e
        then (Raise (ErrorFrom "Failed to fetch image from Unsplash" e),
              printing (after_request w) [LogError "Unsplash API error:" (Some e)])
        else (Raise e, after_request w)
    end.
Proof.
  unfold fetchRandomImage, request_image, try_catch.
  unfold bind at 1. unfold logger_debug at 1. unfold emit at 1.
  unfold bind at 1. unfold axios_get at 1.
  cbn [requests_sent fs out clock_reads random_draws].
  fold (after_request w).
  destruct (responses env (requests_sent w)) as [photo|e].
  - unfold image_of, mbind, result_bind, mret, result_ret.
    repeat (rewrite bind_lift;
            match goal with
            | |- context [match get ?v ?k with _ => _ end] =>
                let E := fresh "E" in
                destruct (get v k) eqn:E;
                [|apply get_Throw in E as ->; reflexivity]
            end).
    reflexivity.
  - destruct (isAxiosError e); reflexivity.
Qed.

Lemma truthy_first_truthy a b c : truthy c = true -> truthy (first_truthy a b c) = true.
Proof.
  intros Hc. unfold first_truthy.
  destruct (truthy a) eqn:Ha; [exact Ha|].
  destruct (truthy b) eqn:Hb; [exact Hb | exact Hc].
Qed.

Lemma image_of_Ok photo image :
  image_of photo = Ok image ->
  url image = prop (prop photo "urls") "regular" /\
  sourceUrl image = prop (prop photo "links") "html" /\
  description image
  = first_truthy (prop photo "description") (prop photo "alt_description")
      (VString (js "No description available")).
Proof.
  unfold image_of, mbind, result_bind, mret, result_ret, prop. intros H.
  repeat match type of H with
         | context [match get ?v ?k with _ => _ end] =>
             destruct (get v k); [|discriminate H]
         end.
  injection H as <-. cbn [url sourceUrl description].
  repeat split. unfold or_else, first_truthy.
  destruct (truthy a1) eqn:E1; [rewrite E1; reflexivity|].
  destruct (truthy a2); reflexivity.
Qed.

Lemma fetchRandomImage_described env w image w' :
  fetchRandomImage env w = (Return image, w') -> truthy (description image) = true.
Proof.
  rewrite fetchRandomImage_run.
  destruct (responses env (requests_sent w)) as [photo|e].
  - destruct (image_of photo) as [img|e] eqn:Himg; [|discriminate].
    intros [= <- _]. destruct (image_of_Ok _ _ Himg) as (_ & _ & ->).
    apply truthy_first_truthy. reflexivity.
  - destruct (isAxiosError e); discriminate.
Qed.

Lemma leaves_files_fetchRandomImage env : leaves_files (fetchRandomImage env).
Proof. unfold fetchRandomImage, request_image. repeat leaves_files_step. Qed.

(** X14: [fetchRandomImage] sends exactly one request and never touches
    the data directory.  A failing request is thrown on: an Axios error
    is logged and wrapped in 'Failed to fetch image from Unsplash', any
    other error is rethrown as it is and not logged.  From a response it
    takes [urls.regular] and [links.html], and as description the first
    truthy one of [description], [alt_description] and
    'No description available', so that the description is never empty;
    a response without [urls] or [links] throws a TypeError. *)
Theorem fetchRandomImage_outcome env w :
  requests_sent (snd (fetchRandomImage env w)) = S (requests_sent w) /\
  fs (snd (fetchRandomImage env w)) = fs w /\
  match responses env (requests_sent w) with
  | Throw e =>
      fst (fetchRandomImage env w)
      = Raise (if isAxiosError e
               then ErrorFrom "Failed to fetch image from Unsplash" e else e) /\
      out (snd (fetchRandomImage env w))
      = out w ++ LogDebug "Fetching random image from Unsplash..."
          :: (if isAxiosError e then [LogError "Unsplash API error:" (Some e)]
              else [])
  | Ok photo =>
      (forall e, fst (fetchRandomImage env w) = Raise e -> e = TypeError) /\
      forall image w',
        fetchRandomImage env w = (Return image, w') ->
        url image = prop (prop photo "urls") "regular" /\
        sourceUrl image = prop (prop photo "links") "html" /\
        description image
        = first_truthy (prop photo "description") (prop photo "alt_description")
            (VString (js "No description available")) /\
        truthy (description image) = true
  end.
Proof.
  rewrite fetchRandomImage_run.
  destruct (responses env (requests_sent w)) as [photo|e].
  - destruct (image_of photo) as [image|e] eqn:Himg.
    + split; [reflexivity|]. split; [reflexivity|]. split; [discriminate|].
      intros image' w' [= <- <-].
      destruct (image_of_Ok _ _ Himg) as (H1 & H2 & H3).
      repeat (split; [assumption|]).
      rewrite H3. apply truthy_first_truthy. reflexivity.
    + apply image_of_Throw in Himg as ->.
      split; [reflexivity|]. split; [reflexivity|].
      split; [intros e [= <-]; reflexivity | discriminate].
  - destruct (isAxiosError e); (split; [reflexivity|]); (split; [reflexivity|]);
      (split; [reflexivity|]); simpl; rewrite <- ?app_assoc; reflexivity.
Qed.

End UnsplashProperties.

(** ** The commands *)

Module CommandProperties.
Import JsString Js JsNumber JsDate JsValue CodeGenerator Effects Types.
Import StorageService UnsplashService Commands.
Import JsStringAux CodeGeneratorAux EffectsAux CommandsAux JsDateAux Examples.
Import JsStringFacts CodeGeneratorFacts EffectsFacts ServiceFacts CommandFacts.
Import CodeSchemeProperties JsDateFacts StoreFacts UnsplashProperties.
Local Open Scope M_scope.

(** *** create *)

Lemma leaves_files_create_targets env targetCount fuel i targets :
  leaves_files (create_targets env targetCount fuel i targets).
Proof.
  revert i targets. induction fuel as [|fuel IH]; intros i targets; simpl.
  - auto with leaves_files.
  - pose proof (leaves_files_fetchRandomImage env).
    repeat leaves_files_step; auto.
Qed.

(** The session returned by [create_session] was just saved, and nothing
    before that touched the data directory. *)
Lemma create_session_saved env options w s w' :
  create_session env options w = (Return s, w') ->
  exists w1, fs w1 = fs w /\
    saveSession env (RVSession_value s) w1 = (Return tt, w').
Proof.
  intros H.
  destruct (UNSPLASH_ACCESS_KEY env) as [[|c key]|] eqn:Hk;
    try (unfold create_session in H; rewrite Hk in H; discriminate H).
  rewrite (create_session_with_key _ _ _ _ Hk) in H. cbv zeta in H.
  destruct (number_lt _ _ || number_gt _ _) eqn:Hc; [discriminate H|].
  apply bind_Return_inv in H as (bytes & w1 & H1 & H).
  apply bind_Return_inv in H as (idBytes & w2 & H2 & H).
  apply bind_Return_inv in H as (created & w3 & H3 & H).
  apply bind_Return_inv in H as (ts & w4 & H4 & H).
  apply bind_Return_inv in H as (u5 & w5 & H5 & H).
  apply bind_Return_inv in H as ([] & w6 & H6 & H).
  injection H as <- <-.
  exists w5. split; [|exact H6].
  apply (leaves_files_Return _ _ _ _ (leaves_files_emit _)) in H5.
  apply (leaves_files_Return _ _ _ _ (leaves_files_create_targets _ _ _ _ _)) in H4.
  apply (leaves_files_Return _ _ _ _ (leaves_files_Date_now _)) in H3.
  apply (leaves_files_Return _ _ _ _ (leaves_files_lift _)) in H2.
  apply (leaves_files_Return _ _ _ _ (leaves_files_draw _)) in H1.
  congruence.
Qed.

Lemma generateCode_default_valid p entropy code :
  generateCode_default p entropy = Ok code ->
  List.length code = 9%nat /\ validateCode code = true.
Proof.
  unfold generateCode_default. intros H. split.
  - apply generateCode_shape in H. subst code.
    change ((1 <=? 4) && (4 <? 8)) with true. cbv iota.
    unfold with_separator_after. rewrite !length_app, length_take, length_drop.
    rewrite drawn_symbols_length. reflexivity.
  - apply validateCode_Forall. fold (normalizeCode code).
    rewrite (generated_code_normalized _ _ _ _ _ H).
    apply drawn_symbols_in_alphabet.
Qed.

Lemma create_targets_Return env n fuel i targets w l w' :
  create_targets env (Num n) fuel i targets w = (Return l, w') ->
  exists new,
    l = targets ++ new /\ Forall fresh_target new /\
    Z.of_nat (List.length new) = Z.min (Z.of_nat fuel) (Z.max 0 (n - i)).
Proof.
  revert i targets w. induction fuel as [|fuel IH]; intros i targets w H.
  - injection H as <- _. exists []. rewrite app_nil_r.
    split; [reflexivity|]. split; [constructor|]. simpl. lia.
  - cbn [create_targets number_lt] in H.
    destruct (i <? n) eqn:E.
    + apply Z.ltb_lt in E.
      apply bind_Return_inv in H as (u & w1 & _ & H).
      apply bind_Return_inv in H as (bytes & w2 & _ & H).
      apply bind_Return_inv in H as (c & w3 & Hc & H).
      apply bind_Return_inv in H as (image & w4 & Himg & H).
      apply IH in H as (new & -> & Hnew & Hlen).
      rewrite lift_run in Hc.
      destruct (generateCode_default (plat env) bytes) as [c'|] eqn:Hcode;
        [|discriminate Hc].
      injection Hc as -> _.
      destruct (generateCode_default_valid _ _ _ Hcode) as (H9 & Hv).
      eexists (_ :: new). rewrite <- app_assoc. split; [reflexivity|].
      split.
      * constructor; [|exact Hnew].
        unfold fresh_target. cbn [revealed revealedAt targetSource code targetDescription].
        repeat split; try assumption.
        exact (fetchRandomImage_described _ _ _ _ Himg).
      * cbn [List.length]. lia.
    + apply Z.ltb_ge in E. injection H as <- _. exists []. rewrite app_nil_r.
      split; [reflexivity|]. split; [constructor|]. simpl. lia.
Qed.

Lemma hex_digit_is_hex d : 0 <= d < 16 -> is_hex_digit (hex_digit d) = true.
Proof.
  intros H. unfold hex_digit, is_hex_digit.
  destruct (d <? 10) eqn:E; [apply Z.ltb_lt in E | apply Z.ltb_ge in E];
    apply orb_true_iff; [left | right];
    apply andb_true_iff; split; apply Z.leb_le; lia.
Qed.

Lemma to_hex_spec bytes :
  Forall (fun b => 0 <= b < 256) bytes ->
  List.length (to_hex bytes) = (2 * List.length bytes)%nat /\
  Forall (fun c => is_hex_digit c = true) (to_hex bytes).
Proof.
  induction 1 as [|b bytes Hb _ [IHl IHf]]; [split; [reflexivity | constructor]|].
  unfold to_hex in *. cbn [flat_map app List.length]. split; [lia|].
  constructor; [|constructor; [|exact IHf]]; apply hex_digit_is_hex.
  - split; [apply Z.div_pos; lia | apply Z.div_lt_upper_bound; lia].
  - apply Z.mod_pos_bound. lia.
Qed.

Lemma randomBytes_spec entropy (n : Z) bytes :
  randomBytes entropy n = Ok bytes ->
  List.length bytes = Z.to_nat n /\ Forall (fun b => 0 <= b < 256) bytes.
Proof.
  rewrite randomBytes_of_int. destruct (_ || _); [discriminate|]. intros [= <-].
  split; [apply drawn_bytes_length|].
  apply List.Forall_forall. intros b Hb. apply in_map_iff in Hb as (i & <- & _).
  apply ToUint8_range.
Qed.

(** What a session returned by [create_session] is made of (continued). *)
Lemma create_session_id env options w s w' :
  create_session env options w = (Return s, w') ->
  List.length (id s) = 16%nat /\ Forall (fun c => is_hex_digit c = true) (id s) /\
  notes s = None.
Proof.
  intros H.
  destruct (UNSPLASH_ACCESS_KEY env) as [[|c key]|] eqn:Hk;
    try (unfold create_session in H; rewrite Hk in H; discriminate H).
  rewrite (create_session_with_key _ _ _ _ Hk) in H. cbv zeta in H.
  destruct (number_lt _ _ || number_gt _ _) eqn:Hc; [discriminate H|].
  apply bind_Return_inv in H as (bytes & w1 & _ & H).
  apply bind_Return_inv in H as (idBytes & w2 & H2 & H).
  apply bind_Return_inv in H as (created & w3 & _ & H).
  apply bind_Return_inv in H as (ts & w4 & _ & H).
  apply bind_Return_inv in H as (u5 & w5 & _ & H).
  apply bind_Return_inv in H as ([] & w6 & _ & H).
  injection H as <- _. cbn [id notes].
  cut (List.length (to_hex idBytes) = 16%nat /\
       Forall (fun c => is_hex_digit c = true) (to_hex idBytes));
    [intros [? ?]; auto|].
  rewrite lift_run in H2. destruct (randomBytes bytes 8) as [b|] eqn:Hb; [|discriminate H2].
  injection H2 as -> _.
  destruct (randomBytes_spec _ _ _ Hb) as (Hlen & Hrange).
  destruct (to_hex_spec _ Hrange) as (Hl & Hf).
  split; [rewrite Hl, Hlen; reflexivity | exact Hf].
Qed.

(** X15: what the create command saves.  A session returned by the
    creation has as many targets as [--targets] says (between 1 and 10;
    none when the count does not parse), each of them unrevealed, without
    a reveal timestamp, from 'unsplash', with a described image and a
    9-character code that [validateCode] accepts; its id is 16 lowercase
    hexadecimal digits, its name is the [--name] option and it has no
    notes; and the store differs from the one before the command by
    exactly the file <id>.json, which holds the JSON text of the
    session. *)
Theorem created_session_shape env options w s w' :
  create_session env options w = (Return s, w') ->
  (parseInt10 (options_targets options) = NaN /\ targets s = [] \/
   exists n, parseInt10 (options_targets options) = Num n /\ 1 <= n <= 10 /\
             Z.of_nat (List.length (targets s)) = n) /\
  Forall fresh_target (targets s) /\
  List.length (id s) = 16%nat /\ Forall (fun c => is_hex_digit c = true) (id s) /\
  name s = options_name options /\ notes s = None /\
  exists j, JSON_stringify (RVSession_value s) = Some j /\
    files (fs w') = <[getSessionPath (id s) := File (JsonText j)]> (files (fs w)).
Proof.
  intros H.
  destruct (create_session_Return _ _ _ _ _ H) as (Hc & _ & _ & Hname & w1 & w2 & Ht).
  destruct (create_session_id _ _ _ _ _ H) as (Hid1 & Hid2 & Hnotes).
  destruct (create_session_saved _ _ _ _ _ H) as (w5 & Hfs & Hsave).
  destruct (saveSession_Return _ _ _ _ _ Hsave) as (idv & j & Hidv & Hj & _ & _ & Hw').
  injection Hidv as <-. cbn [ToString] in Hw'.
  assert (Hfresh : Forall fresh_target (targets s) /\
            (parseInt10 (options_targets options) = NaN /\ targets s = [] \/
             exists n, parseInt10 (options_targets options) = Num n /\ 1 <= n <= 10 /\
                       Z.of_nat (List.length (targets s)) = n)).
  { destruct (parseInt10 (options_targets options)) as [|n] eqn:En.
    - injection Ht as <- _. split; [constructor | left; split; reflexivity].
    - apply create_targets_Return in Ht as (new & Hnew & Hf & Hlen).
      simpl in Hnew. subst new. split; [exact Hf|]. right. exists n.
      simpl in Hc. apply orb_false_iff in Hc as [H1 H10].
      apply Z.ltb_ge in H1, H10. unfold loop_fuel in Hlen.
      split; [reflexivity|]. split; [lia|]. rewrite Hlen. lia. }
  destruct Hfresh as (Hfresh & Hcount).
  split; [exact Hcount|]. split; [exact Hfresh|].
  split; [exact Hid1|]. split; [exact Hid2|].
  split; [exact Hname|]. split; [exact Hnotes|].
  exists j. split; [exact Hj|]. rewrite Hw', Hfs. reflexivity.
Qed.

Lemma created_session_shape_witness :
  exists s w',
    create_session example_env (example_options "60" "3") empty_world
    = (Return s, w') /\
    List.length (targets s) = 3%nat /\ Forall fresh_target (targets s) /\
    List.length (id s) = 16%nat.
Proof.
  destruct (create_session example_env (example_options "60" "3") empty_world)
    as [[s|e|c] w'] eqn:E; try (vm_compute in E; discriminate E).
  exists s, w'. split; [reflexivity|].
  destruct (created_session_shape example_env (example_options "60" "3")
              empty_world s w' E) as (Hcount & Hfresh & Hid & _).
  split; [|split; [exact Hfresh | exact Hid]].
  destruct Hcount as [[Hnan _]|(n & Hn & _ & Hlen)]; [discriminate Hnan|].
  vm_compute in Hn. injection Hn as <-. lia.
Defined.

Lemma create_targets_usage env targetCount fuel i targets w l w' :
  create_targets env targetCount fuel i targets w = (Return l, w') ->
  usage w'
  = (clock_reads w,
     (random_draws w + (List.length l - List.length targets))%nat,
     (requests_sent w + (List.length l - List.length targets))%nat) /\
  (List.length targets <= List.length l)%nat.
Proof.
  revert i targets w. induction fuel as [|fuel IH]; intros i targets w H.
  - injection H as <- <-. unfold usage. split; [|lia].
    rewrite Nat.sub_diag, !Nat.add_0_r. reflexivity.
  - cbn [create_targets] in H.
    destruct (number_lt (Num i) targetCount).
    + apply bind_Return_inv in H as (u & w1 & H1 & H).
      apply bind_Return_inv in H as (bytes & w2 & H2 & H).
      apply bind_Return_inv in H as (c & w3 & H3 & H).
      apply bind_Return_inv in H as (image & w4 & H4 & H).
      apply IH in H as (Hu & Hlen). rewrite length_app in Hlen, Hu.
      cbn [List.length] in Hlen, Hu.
      injection H1 as _ <-. injection H2 as _ <-.
      rewrite lift_run in H3.
      destruct (generateCode_default _ _); [|discriminate H3].
      injection H3 as _ <-.
      rewrite fetchRandomImage_run in H4.
      destruct (responses env _) as [photo|e];
        [destruct (image_of photo); [|discriminate H4]
        |destruct (isAxiosError e); discriminate H4].
      injection H4 as _ <-.
      unfold usage in *. cbn [clock_reads random_draws requests_sent after_request] in Hu.
      split; [|lia]. rewrite Hu. f_equal; [f_equal|]; lia.
    + injection H as <- <-. unfold usage. split; [|lia].
      rewrite Nat.sub_diag, !Nat.add_0_r. reflexivity.
Qed.

(** X16: a successful creation reads the clock once, and [createdAt] is
    that reading, taken before any image is fetched; it sends one request
    to Unsplash per target and draws random bytes once for the id and
    once per target. *)
Theorem create_session_usage env options w s w' :
  create_session env options w = (Return s, w') ->
  clock_reads w' = S (clock_reads w) /\
  random_draws w' = (random_draws w + 1 + List.length (targets s))%nat /\
  requests_sent w' = (requests_sent w + List.length (targets s))%nat /\
  getTime (createdAt s) = TimeClip (Num (clock env (clock_reads w))).
Proof.
  intros H.
  destruct (UNSPLASH_ACCESS_KEY env) as [[|c key]|] eqn:Hk;
    try (unfold create_session in H; rewrite Hk in H; discriminate H).
  rewrite (create_session_with_key _ _ _ _ Hk) in H. cbv zeta in H.
  destruct (number_lt _ _ || number_gt _ _) eqn:Hc; [discriminate H|].
  apply bind_Return_inv in H as (bytes & w1 & H1 & H).
  apply bind_Return_inv in H as (idBytes & w2 & H2 & H).
  apply bind_Return_inv in H as (created & w3 & H3 & H).
  apply bind_Return_inv in H as (ts & w4 & H4 & H).
  apply bind_Return_inv in H as (u5 & w5 & H5 & H).
  apply bind_Return_inv in H as ([] & w6 & H6 & H).
  injection H as <- <-. cbn [targets createdAt].
  apply create_targets_usage in H4 as (H4 & _).
  destruct (saveSession_Return _ _ _ _ _ H6) as (_ & j & _ & Hj & Hmk & Hwr & _).
  unfold RVSession_value in H6, Hj.
  rewrite (saveSession_object _ _ _ _ Hmk Hwr Hj) in H6.
  injection H6 as <-. injection H5 as _ <-.
  injection H1 as _ <-. rewrite lift_run in H2.
  destruct (randomBytes _ _); [|discriminate H2]. injection H2 as _ <-.
  injection H3 as <- <-.
  unfold usage in H4. cbn [clock_reads random_draws requests_sent] in H4.
  injection H4 as Hc' Hd Hr.
  cbn [clock_reads random_draws requests_sent printing with_fs emit snd List.length] in *.
  rewrite Nat.sub_0_r in *.
  repeat split; try assumption; try lia.
Qed.

Lemma create_session_usage_witness :
  exists s w',
    create_session example_env (example_options "60" "3") empty_world
    = (Return s, w') /\
    clock_reads w' = 1%nat /\
    random_draws w' = (1 + List.length (targets s))%nat /\
    requests_sent w' = List.length (targets s).
Proof.
  destruct (create_session example_env (example_options "60" "3") empty_world)
    as [[s|e|c] w'] eqn:E; try (vm_compute in E; discriminate E).
  exists s, w'. split; [reflexivity|].
  destruct (create_session_usage example_env (example_options "60" "3")
              empty_world s w' E) as (H1 & H2 & H3 & _).
  split; [exact H1|]. split; [exact H2 | exact H3].
Defined.

Lemma fails_safely_create_session env options :
  fails_safely (create_session env options).
Proof.
  destruct (UNSPLASH_ACCESS_KEY env) as [[|c key]|] eqn:Hk.
  - apply fails_safely_leaves. unfold create_session. rewrite Hk.
    repeat leaves_files_step.
  - rewrite (create_session_with_key _ _ _ _ Hk). cbv zeta.
    destruct (number_lt _ _ || number_gt _ _).
    + apply fails_safely_leaves. repeat leaves_files_step.
    + apply fails_safely_bind; [apply leaves_files_draw|]. intros bytes.
      apply fails_safely_bind; [apply leaves_files_lift|]. intros idBytes.
      apply fails_safely_bind; [apply leaves_files_Date_now|]. intros created.
      apply fails_safely_bind; [apply leaves_files_create_targets|]. intros ts.
      apply fails_safely_bind; [apply leaves_files_emit|]. intros _.
      apply fails_safely_saveSession.
  - apply fails_safely_leaves. unfold create_session. rewrite Hk.
    repeat leaves_files_step.
Qed.

Lemma createCommand_run env options w :
  createCommand env options w
  = match create_session env options
            (printing w [Spinner "start" "Creating RV session..."]) with
    | (Return s, w2) =>
        (Return tt,
         printing w2
           [Spinner "succeed" "RV session created successfully!";
            Print "SESSION CREATED"
              [RVSession_value s;
               VNumber (parseInt10 (options_targets options));
               VNumber (parseInt10 (options_duration options))]])
    | (Raise e, w2) =>
        (Exit 1,
         printing w2 [Spinner "fail" "Failed to create session";
                      LogError "error.message" (Some e)])
    | (Exit c, w2) => (Exit c, w2)
    end.
Proof.
  unfold createCommand, create_action. unfold bind at 1. unfold spinner at 1. unfold emit at 1.
  fold (printing w [Spinner "start" "Creating RV session..."]).
  unfold try_catch. unfold bind at 1.
  destruct (create_session env options _) as [[s|e|c] w2]; try reflexivity.
  - unfold bind, spinner, console_log, emit, printing. simpl.
    rewrite <- app_assoc. reflexivity.
  - unfold bind, spinner, logger_error, emit, process_exit, printing. simpl.
    rewrite <- app_assoc. reflexivity.
Qed.

(** X17: the create command saves all or nothing.  When it does not
    return it exits with code 1 and the entries of the data directory are
    the ones from before the command, also when some targets were
    already fetched; without an access key it exits before it reads the
    clock, draws random bytes, sends a request or touches the data
    directory. *)
Theorem createCommand_failure env options w :
  fst (createCommand env options w) <> Return tt ->
  fst (createCommand env options w) = Exit 1 /\
  same_store (fs (snd (createCommand env options w))) (fs w) /\
  (UNSPLASH_ACCESS_KEY env = None \/ UNSPLASH_ACCESS_KEY env = Some [] ->
   clock_reads (snd (createCommand env options w)) = clock_reads w /\
   random_draws (snd (createCommand env options w)) = random_draws w /\
   requests_sent (snd (createCommand env options w)) = requests_sent w /\
   fs (snd (createCommand env options w)) = fs w).
Proof.
  rewrite createCommand_run.
  set (w1 := printing w [Spinner "start" "Creating RV session..."]).
  pose proof (fails_safely_create_session env options w1) as Hsafe.
  pose proof (reports_create_session true env options w1) as Hrep.
  destruct (create_session env options w1) as [[s|e|c] w2] eqn:E; cbn [fst snd] in *.
  - intros H. exfalso. apply H. reflexivity.
  - intros _. split; [reflexivity|]. split.
    + apply Hsafe. discriminate.
    + intros Hk. exfalso. unfold create_session in E.
      destruct Hk as [Hk|Hk]; rewrite Hk in E; discriminate E.
  - intros _. destruct Hrep as (evs & _ & Hexit).
    destruct (Hexit c eq_refl) as [-> _].
    split; [reflexivity|]. split.
    + apply Hsafe. discriminate.
    + intros Hk. unfold create_session in E.
      destruct Hk as [Hk|Hk]; rewrite Hk in E; injection E as <-;
        repeat split; reflexivity.
Qed.

Lemma createCommand_failure_witness :
  let r := createCommand failing_env (example_options "60" "3") empty_world in
  fst r = Exit 1 /\ requests_sent (snd r) = 3%nat /\
  same_store (fs (snd r)) (fs empty_world).
Proof.
  intros r.
  assert (H : fst r <> Return tt) by (vm_compute; discriminate).
  destruct (createCommand_failure failing_env (example_options "60" "3")
              empty_world H) as (H1 & H2 & _).
  split; [exact H1|]. split; [vm_compute; reflexivity | exact H2].
Defined.

(** X18: a [--duration] that does not parse as a number is not refused.
    The session is created with an Invalid Date as [revealAt]; it is
    written as [null], and [getSession] reads [null] back as the epoch
    (1970-01-01T00:00:00Z), a reveal time that every clock reading since
    then has reached: the stored session can be revealed at once. *)
Theorem create_unparsable_duration env options w s w' :
  create_session env options w = (Return s, w') ->
  parseInt10 (options_duration options) = NaN ->
  getTime (revealAt s) = NaN /\
  exists v,
    getSession (id s) w' = (Return v, w') /\
    get v "revealAt" = Ok (VDate (mkDate (Num 0))) /\
    forall now t, getTime now = Num t -> 0 <= t ->
      reached now (prop v "revealAt") = true.
Proof.
  intros H Hd.
  destruct (create_session_Return _ _ _ _ _ H) as (_ & _ & Hr & _).
  rewrite Hd in Hr.
  assert (Hnan : getTime (revealAt s) = NaN).
  { rewrite Hr. destruct (getTime (createdAt s)); reflexivity. }
  split; [exact Hnan|].
  destruct (create_session_saved _ _ _ _ _ H) as (w1 & _ & Hsave).
  destruct (saveSession_Return _ _ _ _ _ Hsave) as (_ & _ & _ & _ & Hmk & Hwr & _).
  destruct (saveSession_then_getSession env s w1 Hmk Hwr)
    as (_ & v & Hget & _ & _ & _ & Hreveal & _).
  rewrite Hsave in Hget. cbn [snd] in Hget.
  rewrite (reread_date_invalid _ Hnan) in Hreveal.
  exists v. split; [exact Hget|]. split; [exact Hreveal|].
  intros now t Ht Hpos. unfold prop. rewrite Hreveal.
  unfold reached, Date_ge. rewrite Ht. simpl. apply Z.leb_le. lia.
Qed.

Lemma create_unparsable_duration_witness :
  exists s w',
    create_session example_env (example_options "soon" "1") empty_world
    = (Return s, w') /\
    getTime (revealAt s) = NaN /\
    exists v,
      getSession (id s) w' = (Return v, w') /\
      get v "revealAt" = Ok (VDate (mkDate (Num 0))).
Proof.
  destruct (create_session example_env (example_options "soon" "1") empty_world)
    as [[s|e|c] w'] eqn:E; try (vm_compute in E; discriminate E).
  exists s, w'. split; [reflexivity|].
  destruct (create_unparsable_duration example_env (example_options "soon" "1")
              empty_world s w' E eq_refl) as (Hnan & v & Hget & Hr & _).
  split; [exact Hnan|]. exists v. split; [exact Hget | exact Hr].
Defined.

(** *** reveal *)

Lemma findIndex_from_spec pred items i0 r :
  findIndex_from pred items i0 = Ok r ->
  0 <= i0 ->
  (r = -1 /\ Forall (fun t => pred t = Ok false) items) \/
  (i0 <= r /\ exists t,
     items !! Z.to_nat (r - i0) = Some t /\ pred t = Ok true /\
     Forall (fun t' => pred t' = Ok false) (take (Z.to_nat (r - i0)) items)).
Proof.
  revert i0. induction items as [|t items IH]; intros i0; cbn [findIndex_from].
  - intros [= <-] _. left. split; [reflexivity | constructor].
  - unfold mbind, result_bind, mret, result_ret.
    destruct (pred t) as [[|]|] eqn:E; [| |discriminate].
    + intros [= <-] Hi. right. split; [lia|]. exists t.
      rewrite Z.sub_diag. simpl. repeat split; [exact E | constructor].
    + intros H Hi. destruct (IH _ H ltac:(lia)) as [[-> Hf]|(Hle & t' & Hl & Hp & Hf)].
      * left. split; [reflexivity | constructor; assumption].
      * right. split; [lia|]. exists t'.
        replace (Z.to_nat (r - i0)) with (S (Z.to_nat (r - (i0 + 1)))) by lia.
        simpl. repeat split; try assumption. constructor; assumption.
Qed.

Lemma has_code_Throw normalizedCode t e :
  has_code normalizedCode t = Throw e -> e = TypeError.
Proof.
  unfold has_code, mbind, result_bind, mret, result_ret.
  destruct (get t "code") as [c|e0] eqn:E; [|intros [= <-]; exact (get_Throw _ _ _ E)].
  destruct c; simpl; congruence.
Qed.

Lemma findIndex_from_Throw normalizedCode items i0 e :
  findIndex_from (has_code normalizedCode) items i0 = Throw e -> e = TypeError.
Proof.
  revert i0. induction items as [|t items IH]; intros i0; cbn [findIndex_from].
  - discriminate.
  - unfold mbind, result_bind, mret, result_ret.
    destruct (has_code normalizedCode t) as [[|]|e0] eqn:E.
    + discriminate.
    + apply IH.
    + intros [= <-]. exact (has_code_Throw _ _ _ E).
Qed.

Lemma find_target_Ok allSessions normalizedCode found :
  find_target allSessions normalizedCode = Ok found ->
  match found with
  | Some (s, i) =>
      exists before after items t,
        allSessions = before ++ s :: after /\
        Forall (without_code normalizedCode) before /\
        targets_of s = Ok items /\ 0 <= i /\
        items !! Z.to_nat i = Some t /\ has_code normalizedCode t = Ok true /\
        Forall (fun t' => has_code normalizedCode t' = Ok false)
          (take (Z.to_nat i) items)
  | None => Forall (without_code normalizedCode) allSessions
  end.
Proof.
  revert found. induction allSessions as [|s rest IH]; cbn [find_target]; intros found.
  - intros [= <-]. constructor.
  - unfold mbind, result_bind, mret, result_ret.
    destruct (get s "targets") as [ts|e] eqn:Ets; [|discriminate].
    destruct (as_array ts) as [items|e] eqn:Ea; [|discriminate].
    assert (Hts : targets_of s = Ok items).
    { unfold targets_of. rewrite Ets. exact Ea. }
    destruct (findIndex_from _ items 0) as [i|e] eqn:Ei; [|discriminate].
    destruct (findIndex_from_spec _ _ _ _ Ei ltac:(lia))
      as [[-> Hf]|(Hle & t & Hl & Hp & Hf)].
    + change (-1 =? -1) with true. cbv iota. intros H. specialize (IH _ H).
      destruct found as [[s' i']|].
      * destruct IH as (before & after & items' & t & -> & Hb & IH).
        exists (s :: before), after, items', t.
        split; [reflexivity|]. split; [|exact IH].
        constructor; [exists items; auto | exact Hb].
      * constructor; [exists items; auto | exact IH].
    + replace (i =? -1) with false by (symmetry; apply Z.eqb_neq; lia).
      rewrite Z.sub_0_r in *. intros [= <-].
      exists [], rest, items, t. repeat split; try assumption. constructor.
Qed.

Lemma find_target_Throw allSessions normalizedCode e :
  find_target allSessions normalizedCode = Throw e -> e = TypeError.
Proof.
  induction allSessions as [|s rest IH]; cbn [find_target]; [discriminate|].
  unfold mbind, result_bind, mret, result_ret.
  destruct (get s "targets") as [ts|e0] eqn:Ets;
    [|intros [= <-]; exact (get_Throw _ _ _ Ets)].
  destruct (as_array ts) as [items|e0] eqn:Ea;
    [|destruct ts; simpl in Ea; congruence].
  destruct (findIndex_from _ items 0) as [i|e0] eqn:Ei;
    [|intros [= <-]; exact (findIndex_from_Throw _ _ _ _ Ei)].
  destruct (i =? -1); [exact IH | discriminate].
Qed.

(** X19: the search of the reveal command (lines 26-35) returns the
    first session, in the order of the list, that has a target with the
    normalised code, and the index of the first such target in it: no
    session before it has such a target and no target before that index
    has the code.  It returns nothing exactly when no session has such a
    target, and what it throws is a TypeError (targets that is not an
    array, a target without a string code). *)
Theorem find_target_spec allSessions normalizedCode :
  match find_target allSessions normalizedCode with
  | Ok (Some (s, i)) =>
      exists before after items t,
        allSessions = before ++ s :: after /\
        Forall (without_code normalizedCode) before /\
        targets_of s = Ok items /\ 0 <= i /\
        items !! Z.to_nat i = Some t /\ has_code normalizedCode t = Ok true /\
        Forall (fun t' => has_code normalizedCode t' = Ok false)
          (take (Z.to_nat i) items)
  | Ok None => Forall (without_code normalizedCode) allSessions
  | Throw e => e = TypeError
  end.
Proof.
  destruct (find_target allSessions normalizedCode) as [found|e] eqn:E.
  - pose proof (find_target_Ok _ _ _ E) as H. destruct found as [[s i]|]; exact H.
  - exact (find_target_Throw _ _ _ E).
Qed.

Lemma Date_now_run env w : Date_now env w = (Return (clock_now env w), after_clock w).
Proof. reflexivity. Qed.

(** The reveal command up to the check of the revealed flag. *)
Lemma revealCommand_found env code force w allSessions w1 session index target flag :
  getAllSessions w = (Return allSessions, w1) ->
  find_target allSessions (toUpperCase (normalizeCode code))
  = Ok (Some (session, index)) ->
  target_at session index = Ok target ->
  get target "revealed" = Ok flag ->
  truthy flag = false ->
  revealCommand env code force w
  = try_catch
      (let* now := Date_now env in
       let* revealAt := lift (get session "revealAt") in
       let canReveal := reached now revealAt in
       let* proceed :=
         (if negb canReveal && negb force then
            let* t := lift (call_getTime revealAt) in
            let timeRemaining := number_sub t (getTime now) in
            let* shown := lift (get target "code") in
            console_log "Target ${target.code} is not ready to reveal yet." [shown];;
            console_log "Time remaining: ${minutesRemaining} minutes"
              [VNumber (minutes_ceil timeRemaining)];;
            console_log "Reveal at: ${revealAt}" [revealAt];;
            let* forceReveal := lift (prompt_answer env) in
            if (forceReveal : bool) then ret true
            else (console_log "Reveal cancelled." [];; ret false)
          else ret true) in
       if (proceed : bool) then
         let* stamp := Date_now env in
         let* targetSession := lift (mark_revealed session index stamp) in
         saveSession env targetSession;;
         console_log "Target revealed!" [];;
         let* target := lift (target_at targetSession index) in
         showTarget target targetSession
       else ret tt)
      (fun error =>
         logger_error "Failed to reveal target" None;;
         logger_error "error.message" (Some error);;
         process_exit 1) w1.
Proof.
  intros Hall Hfind Htarget Hflag Htruthy.
  unfold revealCommand, reveal_action, try_catch.
  erewrite bind_Return by exact Hall. cbv zeta beta.
  erewrite bind_Return by (rewrite lift_run, Hfind; reflexivity). cbv beta iota.
  erewrite bind_Return by (rewrite lift_run, Htarget; reflexivity). cbv beta.
  erewrite bind_Return by (rewrite lift_run, Hflag; reflexivity). cbv beta.
  rewrite Htruthy. reflexivity.
Qed.

(** X20: when no stored target has the code, the reveal command prints
    'Target not found' and the hint, exits with code 1, and leaves the
    entries of the data directory as they were. *)
Theorem reveal_not_found env code force w allSessions w1 :
  getAllSessions w = (Return allSessions, w1) ->
  find_target allSessions (toUpperCase (normalizeCode code)) = Ok None ->
  revealCommand env code force w
  = (Exit 1,
     printing w1
       [Print "Target not found: ${code}" [VString code];
        Print "Use glimpse list to see available targets." []]) /\
  same_store (fs (snd (revealCommand env code force w))) (fs w) /\
  Forall (without_code (toUpperCase (normalizeCode code))) allSessions.
Proof.
  intros Hall Hfind.
  assert (Hrun : revealCommand env code force w
    = (Exit 1,
       printing w1
         [Print "Target not found: ${code}" [VString code];
          Print "Use glimpse list to see available targets." []])).
  { unfold revealCommand, reveal_action, try_catch.
    erewrite bind_Return by exact Hall. cbv zeta beta.
    erewrite bind_Return by (rewrite lift_run, Hfind; reflexivity). cbv beta iota.
    unfold bind, console_log, emit, process_exit, printing.
    simpl. rewrite <- app_assoc. reflexivity. }
  split; [exact Hrun|]. split; [|exact (find_target_Ok _ _ _ Hfind)].
  rewrite Hrun. pose proof (keeps_store_getAllSessions w) as [Hsame _].
  rewrite Hall in Hsame. exact Hsame.
Qed.

Lemma reveal_not_found_witness :
  fst (revealCommand example_env (js "ZZZZ-ZZZZ") false revealed_world) = Exit 1.
Proof.
  destruct (reveal_not_found example_env (js "ZZZZ-ZZZZ") false revealed_world
              (returned [] (getAllSessions revealed_world))
              (snd (getAllSessions revealed_world))) as (H & _).
  - vm_compute. reflexivity.
  - vm_compute. reflexivity.
  - rewrite H. reflexivity.
Defined.

(** X21: before the reveal time, without [--force], an unrevealed target
    is not revealed unless the prompt is answered with yes.  The command
    prints that the target is not ready, the minutes remaining and the
    reveal time, and asks; when the answer is no it prints
    'Reveal cancelled.' and returns, when the prompt fails it logs the
    error and exits with code 1.  In both cases the target is not shown
    and the data directory is as [getAllSessions] left it. *)
Theorem reveal_declined env code w allSessions w1 session index target flag r :
  getAllSessions w = (Return allSessions, w1) ->
  find_target allSessions (toUpperCase (normalizeCode code))
  = Ok (Some (session, index)) ->
  target_at session index = Ok target ->
  get target "revealed" = Ok flag ->
  truthy flag = false ->
  get session "revealAt" = Ok (VDate r) ->
  Date_ge (clock_now env w1) r = false ->
  prompt_answer env <> Ok true ->
  revealCommand env code false w
  = (match prompt_answer env with
     | Ok _ => Return tt
     | Throw _ => Exit 1
     end,
     printing (after_clock w1)
       (not_ready_lines target r (clock_now env w1) ++
        match prompt_answer env with
        | Ok _ => [Print "Reveal cancelled." []]
        | Throw e => [LogError "Failed to reveal target" None;
                      LogError "error.message" (Some e)]
        end)) /\
  fs (snd (revealCommand env code false w)) = fs w1.
Proof.
  intros Hall Hfind Htarget Hflag Htruthy Hr Hnot Hprompt.
  rewrite (revealCommand_found _ _ _ _ _ _ _ _ _ _ Hall Hfind Htarget Hflag Htruthy).
  unfold try_catch.
  erewrite bind_Return by apply Date_now_run. cbv beta.
  erewrite bind_Return by (rewrite lift_run, Hr; reflexivity). cbv beta zeta.
  cbn [reached]. rewrite Hnot. cbn [negb andb call_getTime].
  rewrite (get_prop _ _ _ "code" Hflag).
  destruct (prompt_answer env) as [[|]|e] eqn:Ep.
  - exfalso. apply Hprompt. reflexivity.
  - split; [|reflexivity].
    unfold bind, lift, ret, console_log, emit, printing, not_ready_lines, after_clock.
    simpl. rewrite <- !app_assoc. reflexivity.
  - split; [|reflexivity].
    unfold bind, lift, ret, throw, console_log, logger_error, emit, process_exit,
      printing, not_ready_lines, after_clock.
    simpl. rewrite <- !app_assoc. reflexivity.
Qed.

Lemma reveal_declined_witness :
  let w := two_sessions_world in
  fst (revealCommand example_env (js "qw9e-rt5y") false w) = Return tt /\
  fs (snd (revealCommand example_env (js "qw9e-rt5y") false w))
  = fs (snd (getAllSessions w)).
Proof.
  intros w.
  pose (found := match find_target (returned [] (getAllSessions w))
                         (toUpperCase (normalizeCode (js "qw9e-rt5y"))) with
                 | Ok (Some found) => found
                 | _ => (VUndefined, 0)
                 end).
  pose (target := match target_at (fst found) (snd found) with
                  | Ok target => target
                  | Throw _ => VUndefined
                  end).
  destruct (reveal_declined example_env (js "qw9e-rt5y") w
              (returned [] (getAllSessions w)) (snd (getAllSessions w))
              (fst found) (snd found) target (VBool false)
              (mkDate (Num 1700004100000))) as (H1 & H2).
  - vm_compute. reflexivity.
  - vm_compute. reflexivity.
  - vm_compute. reflexivity.
  - vm_compute. reflexivity.
  - reflexivity.
  - vm_compute. reflexivity.
  - vm_compute. reflexivity.
  - discriminate.
  - split; [rewrite H1; reflexivity | exact H2].
Defined.

(** A value with a string under [code] is an object or an array. *)
Lemma has_code_true normalizedCode t :
  has_code normalizedCode t = Ok true ->
  exists c, get t "code" = Ok (VString c).
Proof.
  unfold has_code, mbind, result_bind, mret, result_ret.
  destruct (get t "code") as [[]|]; try discriminate. eauto.
Qed.




(** *** status and list *)

Lemma Array_find_none pred items :
  Forall (fun t => pred t = Ok false) items -> Array_find pred items = Ok VUndefined.
Proof.
  induction 1 as [|t items Ht _ IH]; [reflexivity|].
  cbn [Array_find]. rewrite Ht. exact IH.
Qed.

Lemma Array_find_first pred items n t :
  items !! n = Some t -> pred t = Ok true ->
  Forall (fun t' => pred t' = Ok false) (take n items) ->
  Array_find pred items = Ok t.
Proof.
  revert n. induction items as [|x items IH]; intros n Hl Hp Hf.
  - destruct n; discriminate Hl.
  - destruct n as [|n]; cbn [Array_find].
    + injection Hl as ->. rewrite Hp. reflexivity.
    + simpl in Hl, Hf. apply Forall_cons in Hf as [Hx Hf]. rewrite Hx.
      exact (IH n Hl Hp Hf).
Qed.

Lemma truthy_coded t c : get t "code" = Ok (VString c) -> truthy t = true.
Proof. destruct t; simpl; try discriminate; reflexivity. Qed.

Lemma status_search_skip env before rest normalizedCode code w :
  Forall (without_code normalizedCode) before ->
  status_search env (before ++ rest) normalizedCode code w
  = status_search env rest normalizedCode code w.
Proof.
  induction 1 as [|s before (items & Hts & Hf) _ IH]; [reflexivity|].
  cbn [app status_search].
  erewrite bind_Return by (rewrite lift_run, Hts; reflexivity). cbv beta.
  erewrite bind_Return
    by (rewrite lift_run, (Array_find_none _ _ Hf); reflexivity).
  cbv beta. exact IH.
Qed.

(** X23: the status command resolves a target code as the reveal command
    does: when the search of reveal finds target [i] of session [s], the
    loop of status (lines 24-34) shows the status of exactly that target
    of that session; when the search finds nothing, status prints
    'Target or session not found' and the hint and exits with code 1. *)
Theorem status_resolves_code env allSessions normalizedCode code w :
  match find_target allSessions normalizedCode with
  | Ok (Some (s, i)) =>
      forall t, target_at s i = Ok t ->
        status_search env allSessions normalizedCode code w
        = showTargetStatus env t s w
  | Ok None =>
      status_search env allSessions normalizedCode code w
      = (Exit 1,
         printing w
           [Print "Target or session not found: ${code}" [VString code];
            Print "Use glimpse list to see available sessions and targets." []])
  | Throw _ => True
  end.
Proof.
  destruct (find_target allSessions normalizedCode) as [[[s i]|]|e] eqn:E; [| |exact I].
  - destruct (find_target_Ok _ _ _ E)
      as (before & after & items & t & -> & Hb & Hts & Hi & Ht & Hcode & Hf).
    intros t' Ht'. rewrite (status_search_skip _ _ _ _ _ _ Hb).
    assert (t' = t) as ->.
    { unfold target_at in Ht'. unfold targets_of in Hts.
      unfold mbind, result_bind, mret, result_ret in *.
      destruct (get s "targets"); [|discriminate Hts].
      rewrite Hts, Ht in Ht'. injection Ht' as <-. reflexivity. }
    cbn [status_search].
    erewrite bind_Return by (rewrite lift_run, Hts; reflexivity). cbv beta.
    erewrite bind_Return
      by (rewrite lift_run, (Array_find_first _ _ _ _ Ht Hcode Hf); reflexivity).
    cbv beta. destruct (has_code_true _ _ Hcode) as [c Hc].
    rewrite (truthy_coded _ _ Hc). reflexivity.
  - pose proof (find_target_Ok _ _ _ E) as Hnone. cbv iota in Hnone.
    rewrite <- (app_nil_r allSessions).
    rewrite (status_search_skip _ _ _ _ _ _ Hnone).
    cbn [status_search]. unfold bind, console_log, emit, process_exit, printing.
    simpl. rewrite <- app_assoc. reflexivity.
Qed.

(** X24: the status command lets no exception escape, and when it exits
    it does so with code 1 after printing.  A code that is the id of a
    stored session is taken as that session, before any target is
    searched: the session status is shown, and a failure while showing
    it is logged and ends the run with exit code 1. *)
Theorem status_failures_surfaced env code :
  never_raises (statusCommand env code) /\
  reports false (statusCommand env code) /\
  (forall w v w0, getSession code w = (Return v, w0) -> truthy v = true ->
     statusCommand env code w = showSessionStatus env v w0 \/
     exists e w1, showSessionStatus env v w0 = (Raise e, w1) /\
       statusCommand env code w
       = (Exit 1, printing w1 [LogError "Failed to check status" None;
                               LogError "error.message" (Some e)])).
Proof.
  split; [apply never_raises_statusCommand|].
  split; [apply reports_statusCommand|].
  intros w v w0 Hget Hv. unfold statusCommand, status_action, try_catch.
  erewrite bind_Return by exact Hget. cbv beta. rewrite Hv. cbn [negb].
  destruct (showSessionStatus env v w0) as [[u|e|c] w1] eqn:E.
  - left. reflexivity.
  - right. exists e, w1. split; [reflexivity|].
    unfold bind, logger_error, emit, process_exit, printing. simpl.
    rewrite <- app_assoc. reflexivity.
  - left. reflexivity.
Qed.

Lemma keeps_store_show_target_lines l index : keeps_store (show_target_lines l index).
Proof.
  revert index. induction l as [|t l IH]; intros index; simpl.
  - auto with keeps_store.
  - repeat keeps_store_step; auto.
Qed.

Lemma keeps_store_show_session env session : keeps_store (show_session env session).
Proof.
  unfold show_session. pose proof keeps_store_show_target_lines.
  repeat keeps_store_step; auto.
Qed.

Lemma keeps_store_forEach (f : jsval -> M unit) l :
  (forall x, keeps_store (f x)) -> keeps_store (forEach f l).
Proof.
  intros Hf. induction l as [|x l IH]; simpl; [auto with keeps_store|].
  apply keeps_store_bind; auto.
Qed.

Lemma keeps_store_listCommand env options : keeps_store (listCommand env options).
Proof.
  unfold listCommand, list_action.
  pose proof keeps_store_getAllSessions.
  pose proof (keeps_store_forEach (show_session env)) as Hf.
  pose proof (keeps_store_show_session env).
  repeat keeps_store_step; auto.
Qed.

Lemma keeps_store_show_status_lines canReveal l index :
  keeps_store (show_status_lines canReveal l index).
Proof.
  revert index. induction l as [|t l IH]; intros index; simpl.
  - auto with keeps_store.
  - repeat keeps_store_step; auto.
Qed.

Lemma keeps_store_showTargetStatus env target session :
  keeps_store (showTargetStatus env target session).
Proof. unfold showTargetStatus. repeat keeps_store_step. Qed.

Lemma keeps_store_showSessionStatus env session :
  keeps_store (showSessionStatus env session).
Proof.
  unfold showSessionStatus. pose proof keeps_store_show_status_lines.
  repeat keeps_store_step; auto.
Qed.

Lemma keeps_store_status_search env l normalizedCode code :
  keeps_store (status_search env l normalizedCode code).
Proof.
  induction l as [|s l IH]; simpl.
  - repeat keeps_store_step.
  - pose proof (keeps_store_showTargetStatus env). repeat keeps_store_step; auto.
Qed.

Lemma keeps_store_statusCommand env code : keeps_store (statusCommand env code).
Proof.
  unfold statusCommand, status_action.
  pose proof keeps_store_getAllSessions.
  pose proof keeps_store_getSession.
  pose proof (keeps_store_status_search env).
  pose proof (keeps_store_showSessionStatus env).
  repeat keeps_store_step; auto.
Qed.

(** X25: reading never writes.  [getSession] leaves the data directory
    exactly as it is; [getAllSessions], the list command and the status
    command leave every entry and fault of the data directory as it is
    (they may create the empty directory). *)
Theorem reading_keeps_store env w :
  (forall id, fs (snd (getSession id w)) = fs w) /\
  same_store (fs (snd (getAllSessions w))) (fs w) /\
  (forall options, same_store (fs (snd (listCommand env options w))) (fs w)) /\
  (forall code, same_store (fs (snd (statusCommand env code w))) (fs w)).
Proof.
  split; [intros id; apply leaves_files_getSession|].
  split; [apply keeps_store_getAllSessions|].
  split; [intros options; apply keeps_store_listCommand|].
  intros code. apply keeps_store_statusCommand.
Qed.

Lemma Array_some_not_every pred items :
  Array_some (fun t => b ← pred t; mret (negb b)) items
  = b ← Array_every pred items; mret (negb b).
Proof.
  induction items as [|t items IH]; [reflexivity|].
  cbn [Array_some Array_every]. unfold mbind, result_bind, mret, result_ret in *.
  destruct (pred t) as [[|]|]; simpl; [exact IH | reflexivity | reflexivity].
Qed.

Lemma Array_filter_every pred items shown :
  Array_filter pred items = Ok shown ->
  Array_every pred items
  = Ok (Z.of_nat (List.length shown) =? Z.of_nat (List.length items)) /\
  (List.length shown <= List.length items)%nat.
Proof.
  revert shown. induction items as [|t items IH]; intros shown.
  - intros [= <-]. split; [reflexivity | simpl; lia].
  - cbn [Array_filter Array_every]. unfold mbind, result_bind, mret, result_ret.
    destruct (pred t) as [b|]; [|discriminate].
    destruct (Array_filter pred items) as [rest|]; [|discriminate].
    destruct (IH rest eq_refl) as [Hevery Hlen].
    intros [= <-]. destruct b; cbn [List.length].
    + rewrite Hevery. split; [|lia]. f_equal.
      destruct (Z.eqb_spec (Z.of_nat (List.length rest)) (Z.of_nat (List.length items)));
        symmetry; [apply Z.eqb_eq | apply Z.eqb_neq]; lia.
    + split; [|lia]. f_equal. symmetry. apply Z.eqb_neq. lia.
Qed.

(** X26: the two filters of the list command are complementary: a
    session passes the default filter (some target hidden) exactly when
    it does not pass [--revealed] (every target revealed), and where one
    of them throws the other throws too.  A session without targets
    counts as revealed, so the default listing hides it.  The label
    'ALL REVEALED' ([revealedCount === totalTargets]) is given to exactly
    the sessions that pass [--revealed]. *)
Theorem list_filters s :
  some_hidden s = (b ← all_revealed s; mret (negb b)) /\
  (targets_of s = Ok [] -> all_revealed s = Ok true /\ some_hidden s = Ok false) /\
  (forall n items,
     revealed_count s = Ok n -> targets_of s = Ok items ->
     all_revealed s = Ok (n =? Z.of_nat (List.length items))).
Proof.
  unfold some_hidden, all_revealed, revealed_count.
  unfold mbind, result_bind, mret, result_ret.
  split; [|split].
  - destruct (targets_of s) as [items|]; [|reflexivity].
    apply Array_some_not_every.
  - intros ->. split; reflexivity.
  - intros n items Hn Hts. rewrite Hts in *.
    destruct (Array_filter is_revealed items) as [shown|] eqn:E; [|discriminate Hn].
    injection Hn as <-. apply (Array_filter_every _ _ _ E).
Qed.

(** X27: for a positive number of milliseconds until the reveal, the
    hours and minutes that the status command prints are non-negative
    integers with the minutes below 60, and together they are the time
    remaining rounded up to the next full minute. *)
Theorem time_remaining_spec t :
  0 < t ->
  exists hours minutes,
    time_remaining (Num t) = (Num hours, Num minutes) /\
    0 <= hours /\ 0 <= minutes < 60 /\
    minutes_ceil (Num t) = Num (hours * 60 + minutes) /\
    (hours * 60 + minutes - 1) * 60000 < t <= (hours * 60 + minutes) * 60000.
Proof.
  intros Ht. unfold time_remaining, minutes_ceil, number_floor_div, number_rem.
  set (m := - (- t / 60000)).
  assert (Hm : (m - 1) * 60000 < t <= m * 60000).
  { unfold m. pose proof (Z.div_mod (- t) 60000 ltac:(lia)).
    pose proof (Z.mod_pos_bound (- t) 60000 ltac:(lia)). lia. }
  assert (Hpos : 0 < m) by lia.
  exists (m / 60), (Z.rem m 60). split; [reflexivity|].
  rewrite Z.rem_mod_nonneg by lia.
  pose proof (Z.div_mod m 60 ltac:(lia)).
  pose proof (Z.mod_pos_bound m 60 ltac:(lia)).
  assert (0 <= m / 60) by (apply Z.div_pos; lia).
  replace (m / 60 * 60 + m mod 60) with m by lia.
  repeat split; try lia.
Qed.

Lemma time_remaining_spec_witness :
  exists hours minutes,
    time_remaining (Num 5400001) = (Num hours, Num minutes) /\
    0 <= hours /\ 0 <= minutes < 60 /\
    minutes_ceil (Num 5400001) = Num (hours * 60 + minutes) /\
    (hours * 60 + minutes - 1) * 60000 < 5400001 <= (hours * 60 + minutes) * 60000.
Proof. apply (time_remaining_spec 5400001). lia. Defined.

End CommandProperties.
